(** * PeerSync coordinator: a shallow embedding of [src/server.py]

    The coordinator keeps two insertion-ordered Python dictionaries,
    [active_clients] (control address -> session record) and
    [published_files] (filename -> list of publisher usernames), and answers
    one datagram per iteration of [PeerSyncServer.run].

    Modelling choices.
    - A Python [str] is a [string]; one [ascii] stands for one code point, so
      the model speaks about messages whose code points are below 256.
    - A Python [dict] is an association list in insertion order.  The
      dictionary invariant "keys are unique" is the predicate [dict_wf]; it is
      an explicit hypothesis where a statement depends on it.
    - [time.time()] readings are rationals, in seconds; every double is
      one.  The difference of two readings is taken as Python takes it, in
      IEEE 754 binary64: the exact difference rounded to the nearest double,
      ties to even ([Double.sub]).
    - [recvfrom(BUFFER_SIZE)] followed by [decode()] hands over the text of
      the first [BUFFER_SIZE] bytes of the UTF-8 encoding of the datagram
      ([Wire.recv_decode]).
    - [socket.sendto] appends to the list of datagrams sent by the call;
      [log_action] only prints and is left out.
    - A Python exception is the constructor [Raised] of [outcome]. *)

From Stdlib Require Import List String Ascii Bool ZArith QArith Qround Qpower.
From Stdlib Require Import Lia Lqa.
Import ListNotations.
Local Close Scope Q_scope.
Local Open Scope list_scope.
Local Open Scope string_scope.

(* ------------------------------------------------------------------ *)
(** ** Python string operations used by the server *)

Module PyStr.

(** [str.isspace] on the code points below 256. *)
Definition is_space (c : ascii) : bool :=
  let n := nat_of_ascii c in
  (((9 <=? n) && (n <=? 13)) || ((28 <=? n) && (n <=? 32))
   || (n =? 133) || (n =? 160))%nat.

Definition is_empty (s : string) : bool :=
  match s with EmptyString => true | String _ _ => false end.

Fixpoint lstrip (s : string) : string :=
  match s with
  | EmptyString => EmptyString
  | String c r => if is_space c then lstrip r else s
  end.

Fixpoint rstrip (s : string) : string :=
  match s with
  | EmptyString => EmptyString
  | String c r =>
      let r' := rstrip r in
      if is_space c && is_empty r' then EmptyString else String c r'
  end.

(** [s.strip()] *)
Definition strip (s : string) : string := rstrip (lstrip s).

(** [s.startswith(p)] *)
Definition startswith (s p : string) : bool := String.prefix p s.

(** [sub in s]: literal containment, tried at every offset. *)
Fixpoint contains (sub s : string) : bool :=
  String.prefix sub s ||
  match s with
  | EmptyString => false
  | String _ r => contains sub r
  end.

(** [s.split(' ', 1)]: at most one cut, at the first space character. *)
Fixpoint split_space1 (s : string) : list string :=
  match s with
  | EmptyString => [EmptyString]
  | String c r =>
      if Ascii.eqb c " "%char then [EmptyString; r]
      else match split_space1 r with
           | h :: t => String c h :: t
           | [] => [String c EmptyString]
           end
  end.

(** [s.split()]: cut at runs of whitespace, no empty words.  [cur] is the
    word being read, if one has started. *)
Fixpoint split_from (cur : option string) (s : string) : list string :=
  match s with
  | EmptyString => match cur with Some w => [w] | None => [] end
  | String c r =>
      if is_space c then
        match cur with
        | Some w => w :: split_from None r
        | None => split_from None r
        end
      else
        match cur with
        | Some w => split_from (Some (w ++ String c EmptyString)) r
        | None => split_from (Some (String c EmptyString)) r
        end
  end.

Definition split (s : string) : list string := split_from None s.

(** [sep.join(l)] *)
Fixpoint join (sep : string) (l : list string) : string :=
  match l with
  | [] => EmptyString
  | [x] => x
  | x :: t => x ++ sep ++ join sep t
  end.

(** [x in l] for a list of strings. *)
Definition mem (x : string) (l : list string) : bool :=
  existsb (String.eqb x) l.

(** [l.remove(x)]: drops the first occurrence.  Python raises [ValueError]
    when there is none; the server only calls it after [x in l]. *)
Fixpoint remove_first (x : string) (l : list string) : list string :=
  match l with
  | [] => []
  | y :: t => if String.eqb x y then t else y :: remove_first x t
  end.

End PyStr.

(* ------------------------------------------------------------------ *)
(** ** Insertion-ordered dictionaries *)

Section Dict.

Variables K V : Type.
Variable keqb : K -> K -> bool.

Definition dict := list (K * V).

(** [d.get(k)], [None] when [k not in d]. *)
Fixpoint dict_get (k : K) (d : dict) : option V :=
  match d with
  | [] => None
  | (k', v) :: t => if keqb k k' then Some v else dict_get k t
  end.

(** [k in d] *)
Definition dict_mem (k : K) (d : dict) : bool :=
  match dict_get k d with Some _ => true | None => false end.

(** [d[k] = v]: an existing key keeps its place, a new key goes last. *)
Fixpoint dict_set (k : K) (v : V) (d : dict) : dict :=
  match d with
  | [] => [(k, v)]
  | (k', v') :: t =>
      if keqb k k' then (k, v) :: t else (k', v') :: dict_set k v t
  end.

(** [del d[k]] *)
Definition dict_del (k : K) (d : dict) : dict :=
  filter (fun kv => negb (keqb k (fst kv))) d.

Definition dict_keys (d : dict) : list K := map fst d.
Definition dict_values (d : dict) : list V := map snd d.

(** Keys of a dictionary are pairwise distinct. *)
Definition dict_wf (d : dict) : Prop := NoDup (dict_keys d).

End Dict.

Arguments dict_get {K V} keqb k d.
Arguments dict_mem {K V} keqb k d.
Arguments dict_set {K V} keqb k v d.
Arguments dict_del {K V} keqb k d.
Arguments dict_keys {K V} d.
Arguments dict_values {K V} d.
Arguments dict_wf {K V} d.

(* ------------------------------------------------------------------ *)
(** ** [config.py] *)

Module Config.
Definition BUFFER_SIZE : nat := 1024.
Definition HEARTBEAT_TIMEOUT : Q := 3%Q.

Definition MSG_AUTH := "auth".
Definition MSG_HEARTBEAT := "HBT".
Definition MSG_OK := "OK".
Definition MSG_ERROR := "ERR".
Definition MSG_TCP := "TCP".

Definition CMD_LIST_ACTIVE_PEERS := "lap".
Definition CMD_LIST_PUBLISHED_FILES := "lpf".
Definition CMD_PUBLISH := "pub".
Definition CMD_UNPUBLISH := "unp".
Definition CMD_SEARCH := "sch".
Definition CMD_GET := "get".

Definition RESP_FILE_PUBLISHED := "File published successfully".
Definition RESP_FILE_UNPUBLISHED := "File unpublished successfully".
Definition RESP_FILE_UNPUB_FAILED := "File unpublication failed".
Definition RESP_NO_ACTIVE_PEERS := "No active peers".
Definition RESP_NO_PUBLISHED_FILES := "No published files".
Definition RESP_NO_FILES_FOUND := "No files found".
Definition RESP_FILE_NOT_FOUND := "File not found".
Definition RESP_NO_ACTIVE_PEER_HAS_FILE := "No active peer has this file".
End Config.
Import Config.

(* ------------------------------------------------------------------ *)
(** ** [utils.py] *)

(** [parse_command]: the command word and everything after the first space. *)
Definition parse_command (message : string) : string * string :=
  let parts := PyStr.split_space1 message in
  let command := nth 0 parts EmptyString in
  let argument :=
    if (1 <? List.length parts)%nat then nth 1 parts EmptyString
    else EmptyString in
  (command, argument).

(* ------------------------------------------------------------------ *)
(** ** [server.py]: state *)

(** [ClientAddress = Tuple[str, int]] *)
Definition ClientAddress : Type := string * Z.

Definition addr_eqb (a b : ClientAddress) : bool :=
  String.eqb (fst a) (fst b) && Z.eqb (snd a) (snd b).

(** The per-session dictionary with keys ['username'], ['last_heartbeat'] and
    ['tcp_address']; the last is [None] until the peer reports it. *)
Record ClientData : Type := mkClientData {
  username : string;
  last_heartbeat : Q;
  tcp_address : option (string * string)
}.

Record PeerSyncServer : Type := mkServer {
  active_clients : dict ClientAddress ClientData;
  published_files : dict string (list string);
  credentials : dict string string
}.

Definition with_active_clients (c : dict ClientAddress ClientData)
  (s : PeerSyncServer) : PeerSyncServer :=
  mkServer c (published_files s) (credentials s).

Definition with_published_files (p : dict string (list string))
  (s : PeerSyncServer) : PeerSyncServer :=
  mkServer (active_clients s) p (credentials s).

(** One [socket.sendto(payload.encode(), destination)]. *)
Definition datagram : Type := string * ClientAddress.

Inductive exn : Type := KeyError | ValueError | UnicodeDecodeError.

(** How a call ends: by returning or by raising.  Either way the server is
    left in some state and some datagrams have gone out. *)
Inductive outcome : Type :=
| Returned (s : PeerSyncServer) (sent : list datagram)
| Raised (e : exn) (s : PeerSyncServer) (sent : list datagram).

Definition state_of (o : outcome) : PeerSyncServer :=
  match o with Returned s _ => s | Raised _ s _ => s end.

Definition sent_of (o : outcome) : list datagram :=
  match o with Returned _ m => m | Raised _ _ m => m end.

(** Sequencing of two calls: the second runs from where the first returned. *)
Definition and_then (o : outcome) (k : PeerSyncServer -> outcome) : outcome :=
  match o with
  | Returned s m =>
      match k s with
      | Returned s' m' => Returned s' (m ++ m')%list
      | Raised e s' m' => Raised e s' (m ++ m')%list
      end
  | Raised e s m => Raised e s m
  end.

(* ------------------------------------------------------------------ *)
(** ** [server.py]: liveness sweep and session handlers *)

(** Python floats are IEEE 754 binary64 numbers.  A finite double is the
    rational it denotes; an operation returns the exact result rounded to
    the nearest double, ties to the even significand, and overflows to an
    infinity. *)
Module Double.

Definition pow2 (k : Z) : Q := (2 ^ k)%Q.

(** The exponent [k] with [2^k <= x < 2^(k+1)], for positive [x]. *)
Definition ilog2 (x : Q) : Z :=
  let k := (Z.log2 (Qnum x) - Z.log2 (Z.pos (Qden x)))%Z in
  if Qle_bool (pow2 k) x then k else (k - 1)%Z.

(** The nearest integer, the even one of two that are equally near. *)
Definition rne (x : Q) : Z :=
  let f := Qfloor x in
  match Qcompare (x - inject_Z f)%Q (1 # 2)%Q with
  | Lt => f
  | Gt => (f + 1)%Z
  | Eq => if Z.even f then f else (f + 1)%Z
  end.

(** The nearest multiple of the spacing of doubles around a positive [x]:
    53 significant bits, and [2^-1074] below the normal range. *)
Definition nearest (x : Q) : Q :=
  let e := Z.max (ilog2 x - 52) (-1074) in
  (inject_Z (rne (x / pow2 e)) * pow2 e)%Q.

Inductive value : Type :=
| Finite (q : Q)
| Infinity (negative : bool).

Definition round (x : Q) : value :=
  match Qcompare x 0%Q with
  | Eq => Finite 0%Q
  | Gt => let r := nearest x in
          if Qle_bool (pow2 1024) r then Infinity false else Finite r
  | Lt => let r := nearest (- x)%Q in
          if Qle_bool (pow2 1024) r then Infinity true else Finite (- r)%Q
  end.

(** [x - y] on two finite doubles. *)
Definition sub (x y : Q) : value := round (x - y)%Q.

(** [v > q] for a float [v] and a number [q] compared exactly, as Python
    compares a float with an [int]. *)
Definition gtb (v : value) (q : Q) : bool :=
  match v with
  | Finite r => negb (Qle_bool r q)
  | Infinity negative => negb negative
  end.

End Double.

(** The test of the list comprehension in [check_for_inactive_clients]:
    [current_time - data['last_heartbeat'] > HEARTBEAT_TIMEOUT], a float
    subtraction compared with the integer 3. *)
Definition is_inactive (current_time : Q) (data : ClientData) : bool :=
  Double.gtb (Double.sub current_time (last_heartbeat data))
    HEARTBEAT_TIMEOUT.

(** The [for client in inactive_clients] loop: [self.active_clients[client]]
    is a subscript, so a missing key would raise. *)
Fixpoint evict (inactive_clients : list ClientAddress) (s : PeerSyncServer)
  : outcome :=
  match inactive_clients with
  | [] => Returned s []
  | client :: rest =>
      match dict_get addr_eqb client (active_clients s) with
      | None => Raised KeyError s []
      | Some _ =>
          evict rest
            (with_active_clients
               (dict_del addr_eqb client (active_clients s)) s)
      end
  end.

Definition check_for_inactive_clients (current_time : Q) (s : PeerSyncServer)
  : outcome :=
  let inactive_clients :=
    map fst (filter (fun cd => is_inactive current_time (snd cd))
               (active_clients s)) in
  evict inactive_clients s.

Definition process_heartbeat (now : Q) (client_address : ClientAddress)
  (s : PeerSyncServer) : outcome :=
  match dict_get addr_eqb client_address (active_clients s) with
  | Some data =>
      Returned
        (with_active_clients
           (dict_set addr_eqb client_address
              (mkClientData (username data) now (tcp_address data))
              (active_clients s)) s) []
  | None => Returned s []
  end.

Definition authenticate_client (now : Q) (client_address : ClientAddress)
  (message : string) (s : PeerSyncServer) : outcome :=
  match PyStr.split message with
  | [_; user; password] =>
      if existsb (fun data => String.eqb (username data) user)
           (dict_values (active_clients s))
      then Returned s [(MSG_ERROR, client_address)]
      else
        match dict_get String.eqb user (credentials s) with
        | Some stored =>
            if String.eqb stored password then
              Returned
                (with_active_clients
                   (dict_set addr_eqb client_address
                      (mkClientData user now None) (active_clients s)) s)
                [(MSG_OK, client_address)]
            else Returned s [(MSG_ERROR, client_address)]
        | None => Returned s [(MSG_ERROR, client_address)]
        end
  | _ => Returned s [(MSG_ERROR, client_address)]
  end.

(** The unpacking [_, tcp_ip, tcp_port = message.split()] raises [ValueError]
    unless there are exactly three words; the handler catches it itself. *)
Definition process_tcp_address (client_address : ClientAddress)
  (message : string) (s : PeerSyncServer) : outcome :=
  match PyStr.split message with
  | [_; tcp_ip; tcp_port] =>
      match dict_get addr_eqb client_address (active_clients s) with
      | Some data =>
          Returned
            (with_active_clients
               (dict_set addr_eqb client_address
                  (mkClientData (username data) (last_heartbeat data)
                     (Some (tcp_ip, tcp_port)))
                  (active_clients s)) s) []
      | None => Returned s []
      end
  | _ => Returned s []
  end.

(* ------------------------------------------------------------------ *)
(** ** [server.py]: publication registry handlers *)

(** Lines 164-168: the registry update of [handle_publish_file]. *)
Definition publish (filename user : string)
  (files : dict string (list string)) : dict string (list string) :=
  match dict_get String.eqb filename files with
  | Some publishers =>
      if PyStr.mem user publishers then files
      else dict_set String.eqb filename (publishers ++ [user])%list files
  | None => dict_set String.eqb filename [user] files
  end.

Definition handle_publish_file (client_address : ClientAddress)
  (message : string) (s : PeerSyncServer) : outcome :=
  let filename := snd (parse_command message) in
  match dict_get addr_eqb client_address (active_clients s) with
  | None => Returned s []
  | Some data =>
      Returned
        (with_published_files
           (publish filename (username data) (published_files s)) s)
        [(RESP_FILE_PUBLISHED, client_address)]
  end.

(** Lines 191-194: the registry update of [handle_unpublish_file], taken
    when the guard [filename in files and user in files[filename]] holds. *)
Definition unpublish (filename user : string) (publishers : list string)
  (files : dict string (list string)) : dict string (list string) :=
  let remaining := PyStr.remove_first user publishers in
  let files' := dict_set String.eqb filename remaining files in
  match remaining with
  | [] => dict_del String.eqb filename files'
  | _ :: _ => files'
  end.

Definition handle_unpublish_file (client_address : ClientAddress)
  (message : string) (s : PeerSyncServer) : outcome :=
  let filename := snd (parse_command message) in
  match dict_get addr_eqb client_address (active_clients s) with
  | None => Returned s []
  | Some data =>
      match dict_get String.eqb filename (published_files s) with
      | Some publishers =>
          if PyStr.mem (username data) publishers then
            Returned
              (with_published_files
                 (unpublish filename (username data) publishers
                    (published_files s)) s)
              [(RESP_FILE_UNPUBLISHED, client_address)]
          else Returned s [(RESP_FILE_UNPUB_FAILED, client_address)]
      | None => Returned s [(RESP_FILE_UNPUB_FAILED, client_address)]
      end
  end.

(* ------------------------------------------------------------------ *)
(** ** [server.py]: listing, search and resolution handlers *)

Definition handle_list_active_peers (client_address : ClientAddress)
  (s : PeerSyncServer) : outcome :=
  match dict_get addr_eqb client_address (active_clients s) with
  | None => Returned s []
  | Some _ =>
      let active_peers :=
        map (fun ad => username (snd ad))
          (filter (fun ad => negb (addr_eqb (fst ad) client_address))
             (active_clients s)) in
      let response :=
        match active_peers with
        | [] => RESP_NO_ACTIVE_PEERS
        | _ :: _ => PyStr.join ", " active_peers
        end in
      Returned s [(response, client_address)]
  end.

Definition handle_list_published_files (client_address : ClientAddress)
  (s : PeerSyncServer) : outcome :=
  match dict_get addr_eqb client_address (active_clients s) with
  | None => Returned s []
  | Some _ =>
      let response :=
        match published_files s with
        | [] => RESP_NO_PUBLISHED_FILES
        | _ :: _ => PyStr.join ", " (dict_keys (published_files s))
        end in
      Returned s [(response, client_address)]
  end.

(** The list comprehension of [handle_search_files]. *)
Definition matching_files (substring user : string)
  (files : dict string (list string)) : list string :=
  map fst
    (filter (fun fp => PyStr.contains substring (fst fp)
                       && negb (PyStr.mem user (snd fp))) files).

Definition handle_search_files (client_address : ClientAddress)
  (message : string) (s : PeerSyncServer) : outcome :=
  match dict_get addr_eqb client_address (active_clients s) with
  | None => Returned s []
  | Some data =>
      let substring := snd (parse_command message) in
      let found := matching_files substring (username data)
                     (published_files s) in
      let response :=
        match found with
        | [] => RESP_NO_FILES_FOUND
        | _ :: _ => PyStr.join ", " found
        end in
      Returned s [(response, client_address)]
  end.

(** The inner [for addr, data in self.active_clients.items()] loop of
    [handle_get_request]: the first address whose session has the username. *)
Fixpoint find_peer_address (publisher_username : string)
  (clients : dict ClientAddress ClientData) : option ClientAddress :=
  match clients with
  | [] => None
  | (addr, data) :: rest =>
      if String.eqb (username data) publisher_username then Some addr
      else find_peer_address publisher_username rest
  end.

(** The outer [for publisher_username in self.published_files[filename]]
    loop, with the reply sent after it when no publisher was chosen. *)
Fixpoint resolve_publishers (requesting_username : string)
  (client_address : ClientAddress) (publishers : list string)
  (s : PeerSyncServer) : outcome :=
  match publishers with
  | [] => Returned s [(RESP_NO_ACTIVE_PEER_HAS_FILE, client_address)]
  | publisher_username :: rest =>
      if String.eqb publisher_username requesting_username then
        resolve_publishers requesting_username client_address rest s
      else
        match find_peer_address publisher_username (active_clients s) with
        | None => resolve_publishers requesting_username client_address rest s
        | Some peer_address =>
            match dict_get addr_eqb peer_address (active_clients s) with
            | None => Raised KeyError s []
            | Some peer =>
                match tcp_address peer with
                | Some (peer_ip, peer_port) =>
                    Returned s
                      [(publisher_username ++ " " ++ peer_ip ++ " "
                          ++ peer_port, client_address)]
                | None =>
                    resolve_publishers requesting_username client_address
                      rest s
                end
            end
        end
  end.

(** [self.active_clients[client_address]] is read without a membership
    test, so an address with no session makes the handler raise. *)
Definition handle_get_request (client_address : ClientAddress)
  (message : string) (s : PeerSyncServer) : outcome :=
  let filename := snd (parse_command message) in
  match dict_get addr_eqb client_address (active_clients s) with
  | None => Raised KeyError s []
  | Some requester =>
      match dict_get String.eqb filename (published_files s) with
      | None => Returned s [(RESP_FILE_NOT_FOUND, client_address)]
      | Some publishers =>
          resolve_publishers (username requester) client_address publishers s
      end
  end.

(* ------------------------------------------------------------------ *)
(** ** [server.py]: the control loop *)

Inductive command : Type :=
| HEARTBEAT | PUBLISH | UNPUBLISH | REPORT_DATA_ENDPOINT
| LIST_PEERS | LIST_FILES | SEARCH | GET | AUTH | UNKNOWN.

(** The [if]/[elif] chain of [run], in its order. *)
Definition route (message : string) : command :=
  if String.eqb message MSG_HEARTBEAT then HEARTBEAT
  else if PyStr.startswith message CMD_PUBLISH then PUBLISH
  else if PyStr.startswith message CMD_UNPUBLISH then UNPUBLISH
  else if PyStr.startswith message MSG_TCP then REPORT_DATA_ENDPOINT
  else if String.eqb message CMD_LIST_ACTIVE_PEERS then LIST_PEERS
  else if String.eqb message CMD_LIST_PUBLISHED_FILES then LIST_FILES
  else if PyStr.startswith message CMD_SEARCH then SEARCH
  else if PyStr.startswith message CMD_GET then GET
  else if PyStr.startswith message "auth" then AUTH
  else UNKNOWN.

(** The handler call of each branch; [now] is what [time.time()] returns
    inside the handler. *)
Definition dispatch (now : Q) (message : string)
  (client_address : ClientAddress) (s : PeerSyncServer) : outcome :=
  match route message with
  | HEARTBEAT => process_heartbeat now client_address s
  | PUBLISH => handle_publish_file client_address message s
  | UNPUBLISH => handle_unpublish_file client_address message s
  | REPORT_DATA_ENDPOINT => process_tcp_address client_address message s
  | LIST_PEERS => handle_list_active_peers client_address s
  | LIST_FILES => handle_list_published_files client_address s
  | SEARCH => handle_search_files client_address message s
  | GET => handle_get_request client_address message s
  | AUTH => authenticate_client now client_address message s
  | UNKNOWN => Returned s [(MSG_ERROR, client_address)]
  end.

(** What [recvfrom] delivered: the sender and the payload, [None] when the
    bytes are not valid UTF-8 and [decode] raises. *)
Record inbound : Type := mkInbound {
  payload : option string;
  sender : ClientAddress
}.

(** A datagram on the wire is [text.encode()], UTF-8: one byte for a code
    point below 128 and two bytes for the others below 256. *)
Module Wire.

Definition width (c : ascii) : nat :=
  if (nat_of_ascii c <? 128)%nat then 1%nat else 2%nat.

(** [len(text.encode())] *)
Fixpoint utf8_length (text : string) : nat :=
  match text with
  | EmptyString => 0%nat
  | String c rest => (width c + utf8_length rest)%nat
  end.

(** [recvfrom(bufsize)[0].decode()] on the datagram carrying
    [text.encode()]: the receiver gets the first [bufsize] bytes and the
    rest of the datagram is dropped; [decode] raises when the cut falls
    inside a two-byte character. *)
Fixpoint recv_decode (bufsize : nat) (text : string) : option string :=
  match text with
  | EmptyString => Some EmptyString
  | String c rest =>
      if (width c <=? bufsize)%nat
      then option_map (String c) (recv_decode (bufsize - width c) rest)
      else if (bufsize =? 0)%nat then Some EmptyString else None
  end.

End Wire.

(** What the server's [recvfrom(BUFFER_SIZE)] and [decode()] make of the
    datagram a client sent as [message.encode()] from [client_address]. *)
Definition recvfrom (message : string) (client_address : ClientAddress)
  : inbound :=
  mkInbound (Wire.recv_decode BUFFER_SIZE message) client_address.

(** The body of the [try] block. *)
Definition receive_and_dispatch (now : Q) (i : inbound) (s : PeerSyncServer)
  : outcome :=
  match payload i with
  | None => Raised UnicodeDecodeError s []
  | Some raw => dispatch now (PyStr.strip raw) (sender i) s
  end.

(** [except Exception: continue] *)
Definition try_except (o : outcome) : outcome :=
  match o with
  | Returned s m => Returned s m
  | Raised _ s m => Returned s m
  end.

(** One turn of [while True]: the sweep, outside the [try], then the guarded
    receive and dispatch.  [sweep_time] and [now] are the two clock readings. *)
Definition run_iteration (sweep_time now : Q) (i : inbound)
  (s : PeerSyncServer) : outcome :=
  and_then (check_for_inactive_clients sweep_time s)
    (fun s1 => try_except (receive_and_dispatch now i s1)).

(** Several turns; an exception that leaves a turn ends the loop. *)
Fixpoint run (turns : list (Q * Q * inbound)) (s : PeerSyncServer) : outcome :=
  match turns with
  | [] => Returned s []
  | (sweep_time, now, i) :: rest =>
      and_then (run_iteration sweep_time now i s) (run rest)
  end.

(* ------------------------------------------------------------------ *)
(** ** Drivers used to state properties of sequences of calls *)

(** Consecutive sweeps at the given clock readings. *)
Fixpoint sweep_many (times : list Q) (s : PeerSyncServer) : outcome :=
  match times with
  | [] => Returned s []
  | t :: rest => and_then (check_for_inactive_clients t s) (sweep_many rest)
  end.

(** A publish or unpublish request as it reaches its handler. *)
Record request : Type := mkRequest {
  rq_publish : bool;
  rq_from : ClientAddress;
  rq_file : string
}.

Definition handle_request (r : request) (s : PeerSyncServer) : outcome :=
  if rq_publish r
  then handle_publish_file (rq_from r) (CMD_PUBLISH ++ " " ++ rq_file r) s
  else handle_unpublish_file (rq_from r) (CMD_UNPUBLISH ++ " " ++ rq_file r) s.

Fixpoint handle_requests (rs : list request) (s : PeerSyncServer) : outcome :=
  match rs with
  | [] => Returned s []
  | r :: rest => and_then (handle_request r s) (handle_requests rest)
  end.

(** Membership of a username in the publisher list of a filename. *)
Definition publishes (files : dict string (list string))
  (filename user : string) : bool :=
  match dict_get String.eqb filename files with
  | Some publishers => PyStr.mem user publishers
  | None => false
  end.

(* ------------------------------------------------------------------ *)
(** ** Predicates on states *)

(** [sub] occurs in [s] as a literal, contiguous piece. *)
Definition occurs_in (sub s : string) : Prop :=
  exists before after, s = before ++ sub ++ after.

(** Every registered filename has at least one publisher. *)
Definition no_empty_entry (files : dict string (list string)) : Prop :=
  forall filename publishers,
    In (filename, publishers) files -> publishers <> [].

(** No publisher list names a username twice. *)
Definition publishers_nodup (files : dict string (list string)) : Prop :=
  forall filename publishers,
    In (filename, publishers) files -> NoDup publishers.

(** At most one session per username. *)
Definition unique_usernames (clients : dict ClientAddress ClientData) : Prop :=
  forall a1 d1 a2 d2,
    In (a1, d1) clients -> In (a2, d2) clients ->
    username d1 = username d2 -> a1 = a2.

(** What holds of every state the loop can reach from an empty server. *)
Definition server_inv (s : PeerSyncServer) : Prop :=
  dict_wf (active_clients s)
  /\ unique_usernames (active_clients s)
  /\ no_empty_entry (published_files s)
  /\ publishers_nodup (published_files s).

(** A publisher that [GET] passes over: the requester itself, a username
    with no session, or one whose session has no data endpoint yet. *)
Definition skipped (requesting_username : string)
  (clients : dict ClientAddress ClientData) (publisher : string) : Prop :=
  publisher = requesting_username
  \/ (forall a d, In (a, d) clients -> username d <> publisher)
  \/ (exists a d, In (a, d) clients /\ username d = publisher
                  /\ tcp_address d = None).

(** A publisher that [GET] can hand out, with its endpoint. *)
Definition reachable (requesting_username : string)
  (clients : dict ClientAddress ClientData) (publisher : string)
  (host port : string) : Prop :=
  publisher <> requesting_username
  /\ exists a d, In (a, d) clients /\ username d = publisher
                 /\ tcp_address d = Some (host, port).

(* ------------------------------------------------------------------ *)
(** ** The specification's reading of three operations

    These definitions follow the words of the specification, not the code;
    they are what the code is compared with. *)

Module Spec.

(** [search(substring, excludingUsername)]: filenames containing the
    substring whose publisher set, after removing the excluded username,
    is non-empty. *)
Definition search (substring excluding : string)
  (files : dict string (list string)) : list string :=
  map fst
    (filter (fun fp =>
               PyStr.contains substring (fst fp)
               && negb (Nat.eqb
                          (List.length
                             (List.remove string_dec excluding (snd fp)))
                          0))
       files).

Definition search_reply (substring excluding : string)
  (files : dict string (list string)) : string :=
  let found := search substring excluding files in
  match found with
  | [] => RESP_NO_FILES_FOUND
  | _ :: _ => PyStr.join ", " found
  end.

(** The leading space-separated token of a datagram. *)
Definition leading_token (message : string) : string :=
  fst (parse_command message).

(** Classification by the leading token alone. *)
Definition classify (message : string) : command :=
  let token := leading_token message in
  if String.eqb token CMD_PUBLISH then PUBLISH
  else if String.eqb token CMD_UNPUBLISH then UNPUBLISH
  else if String.eqb token CMD_SEARCH then SEARCH
  else if String.eqb token CMD_GET then GET
  else if String.eqb token MSG_AUTH then AUTH
  else if String.eqb token MSG_HEARTBEAT then HEARTBEAT
  else if String.eqb token MSG_TCP then REPORT_DATA_ENDPOINT
  else if String.eqb token CMD_LIST_ACTIVE_PEERS then LIST_PEERS
  else if String.eqb token CMD_LIST_PUBLISHED_FILES then LIST_FILES
  else UNKNOWN.

(** The registry as a relation between filenames and usernames, and the
    set-level effect of [publish] and [unpublish] on it. *)
Definition registry : Type := string -> string -> bool.

Definition publish (filename user : string) (r : registry) : registry :=
  fun f u =>
    if String.eqb f filename && String.eqb u user then true else r f u.

Definition unpublish (filename user : string) (r : registry) : registry :=
  fun f u =>
    if String.eqb f filename && String.eqb u user then false else r f u.

(** The effect of one request, given who is logged in where; a request
    from an address with no session has none. *)
Definition effect (clients : dict ClientAddress ClientData)
  (rq : request) (r : registry) : registry :=
  match dict_get addr_eqb (rq_from rq) clients with
  | Some data =>
      if rq_publish rq then publish (rq_file rq) (username data) r
      else unpublish (rq_file rq) (username data) r
  | None => r
  end.

Definition net_effect (clients : dict ClientAddress ClientData)
  (rqs : list request) (r : registry) : registry :=
  fold_left (fun acc rq => effect clients rq acc) rqs r.

End Spec.

(* ------------------------------------------------------------------ *)
(** ** Concrete states used to exercise the statements *)

Module Examples.

Definition alice_addr : ClientAddress := ("127.0.0.1", 5001%Z).
Definition bob_addr : ClientAddress := ("127.0.0.1", 5002%Z).
Definition carol_addr : ClientAddress := ("127.0.0.1", 5003%Z).

Definition table : dict string string :=
  [("alice", "password123"); ("bob", "secret"); ("carol", "pw")].

Definition alice : ClientData :=
  mkClientData "alice" 0%Q (Some ("127.0.0.1", "9001")).
Definition bob : ClientData := mkClientData "bob" 5%Q None.

(** Nobody is logged in, nothing is published. *)
Definition fresh : PeerSyncServer := mkServer [] [] table.

(** Alice and Bob are logged in; both publish [document.txt]. *)
Definition shared : PeerSyncServer :=
  mkServer [(alice_addr, alice); (bob_addr, bob)]
    [("document.txt", ["alice"; "bob"]); ("report.pdf", ["alice"])]
    table.

(** A word of [n] letters. *)
Fixpoint letters (n : nat) : string :=
  match n with
  | O => EmptyString
  | S k => String "a" (letters k)
  end.

End Examples.

(* ------------------------------------------------------------------ *)
(** ** More of the Python string operations *)

Module PyText.

(** No character of [s] is whitespace. *)
Fixpoint no_space (s : string) : bool :=
  match s with
  | EmptyString => true
  | String c r => negb (PyStr.is_space c) && no_space r
  end.

(** A word, as [str.split()] produces them: not empty, no whitespace. *)
Definition is_word (s : string) : bool :=
  negb (PyStr.is_empty s) && no_space s.

(** [ch in s] for a single character. *)
Fixpoint has_char (ch : ascii) (s : string) : bool :=
  match s with
  | EmptyString => false
  | String c r => Ascii.eqb c ch || has_char ch r
  end.

(** [s.count(ch)] for a single character. *)
Fixpoint count_char (ch : ascii) (s : string) : nat :=
  match s with
  | EmptyString => 0
  | String c r => (if Ascii.eqb c ch then 1 else 0) + count_char ch r
  end.

(** [s.split(sep)] for a separator of one character: a cut at every
    occurrence, empty pieces kept. *)
Fixpoint split_on (sep : ascii) (s : string) : list string :=
  match s with
  | EmptyString => [EmptyString]
  | String c r =>
      if Ascii.eqb c sep then EmptyString :: split_on sep r
      else match split_on sep r with
           | h :: t => String c h :: t
           | [] => [String c EmptyString]
           end
  end.

(** [s.split(", ")]: a cut at every comma that a space follows, scanning
    from the left. *)
Fixpoint split_comma_space (s : string) : list string :=
  match s with
  | EmptyString => [EmptyString]
  | String c r =>
      match r with
      | String c' r' =>
          if Ascii.eqb c ","%char && Ascii.eqb c' " "%char
          then EmptyString :: split_comma_space r'
          else match split_comma_space r with
               | h :: t => String c h :: t
               | [] => [String c EmptyString]
               end
      | EmptyString => [String c EmptyString]
      end
  end.

End PyText.

(* ------------------------------------------------------------------ *)
(** ** [utils.py]: filenames and the credential file *)

(** [is_valid_filename]; [max_length] is a Python int. *)
Definition is_valid_filename (filename : string) (max_length : Z) : bool :=
  if PyStr.is_empty filename
     || (max_length <? Z.of_nat (String.length filename))%Z
  then false
  else
    let invalid_chars :=
      ["/"; String (ascii_of_nat 92) EmptyString;
       String (ascii_of_nat 0) EmptyString;
       String (ascii_of_nat 10) EmptyString;
       String (ascii_of_nat 13) EmptyString] in
    negb (existsb (fun char => PyStr.contains char filename) invalid_chars).

(** How [load_credentials] ends once the file is open: with the table, or
    with the [ValueError] raised at a line, numbered from 1. *)
Inductive load_result : Type :=
| Loaded (table : dict string string)
| InvalidFormat (line_num : nat).

(** The [for line_num, line in enumerate(file, 1)] loop over the lines the
    file yields. *)
Fixpoint load_lines (line_num : nat) (lines : list string)
  (table : dict string string) : load_result :=
  match lines with
  | [] => Loaded table
  | raw :: rest =>
      let line := PyStr.strip raw in
      if PyStr.is_empty line || PyStr.startswith line "#" then
        load_lines (S line_num) rest table
      else
        match PyText.split_on " "%char line with
        | [user; password] =>
            load_lines (S line_num) rest
              (dict_set String.eqb user password table)
        | _ => InvalidFormat line_num
        end
  end.

Definition load_credentials (lines : list string) : load_result :=
  load_lines 1 lines [].

(* ------------------------------------------------------------------ *)
(** ** [client.py]: what the client puts on the wire and reads from it *)

Module Client.

Definition CMD_EXIT := "xit".

(** The request of [authenticate]. *)
Definition auth_message (user password : string) : string :=
  "auth " ++ user ++ " " ++ password.

(** The endpoint report sent after a successful login; [port] is the
    decimal rendering of the listening port. *)
Definition tcp_message (host port : string) : string :=
  "TCP " ++ host ++ " " ++ port.

(** What one turn of [handle_commands] does with the line typed. *)
Inductive action : Type :=
| Exit
| ListActivePeers
| ListPublishedFiles
| PublishFile (filename : string)
| UnpublishFile (filename : string)
| SearchFiles (substring : string)
| GetFile (filename : string)
| Ignored.

(** [command.split(" ", 1)[1]]; the index exists when the command starts
    with a command word and a space. *)
Definition argument_of (command : string) : string :=
  nth 1 (PyStr.split_space1 command) EmptyString.

Definition handle_command (typed : string) : action :=
  let command := PyStr.strip typed in
  if String.eqb command CMD_EXIT then Exit
  else if String.eqb command CMD_LIST_ACTIVE_PEERS then ListActivePeers
  else if String.eqb command CMD_LIST_PUBLISHED_FILES then ListPublishedFiles
  else if PyStr.startswith command (CMD_PUBLISH ++ " ")
  then PublishFile (argument_of command)
  else if PyStr.startswith command (CMD_UNPUBLISH ++ " ")
  then UnpublishFile (argument_of command)
  else if PyStr.startswith command (CMD_SEARCH ++ " ")
  then SearchFiles (argument_of command)
  else if PyStr.startswith command (CMD_GET ++ " ")
  then GetFile (argument_of command)
  else Ignored.

(** The datagram each action sends to the server, if any. *)
Definition request_of (a : action) : option string :=
  match a with
  | Exit => None
  | ListActivePeers => Some CMD_LIST_ACTIVE_PEERS
  | ListPublishedFiles => Some CMD_LIST_PUBLISHED_FILES
  | PublishFile filename => Some (CMD_PUBLISH ++ " " ++ filename)
  | UnpublishFile filename => Some (CMD_UNPUBLISH ++ " " ++ filename)
  | SearchFiles substring => Some (CMD_SEARCH ++ " " ++ substring)
  | GetFile filename => Some (CMD_GET ++ " " ++ filename)
  | Ignored => None
  end.

(** How [get_file] reads the datagram the server sent as [reply.encode()]:
    [recvfrom(BUFFER_SIZE)] and [decode()], which raises
    [UnicodeDecodeError] on a character cut in two, then the two sentinel
    tests and the unpacking
    [peer_username, peer_ip, peer_port = message.split()], which raises
    [ValueError] unless there are three words. *)
Inductive get_reply : Type :=
| NoActivePeer
| FileNotFound
| Peer (peer_username peer_ip peer_port : string)
| Unreadable
| Undecodable.

Definition read_get_reply (reply : string) : get_reply :=
  match Wire.recv_decode BUFFER_SIZE reply with
  | None => Undecodable
  | Some message =>
      if String.eqb message RESP_NO_ACTIVE_PEER_HAS_FILE then NoActivePeer
      else if String.eqb message RESP_FILE_NOT_FOUND then FileNotFound
      else match PyStr.split message with
           | [peer_username; peer_ip; peer_port] =>
               Peer peer_username peer_ip peer_port
           | _ => Unreadable
           end
  end.

(** How [list_active_peers] reads the datagram the server sent as
    [reply.encode()]: [recvfrom(BUFFER_SIZE)] and [decode()], then the
    sentinel test, else the peers it prints, whose number it announces. *)
Inductive peer_listing : Type :=
| NoPeers
| Peers (peers : list string)
| UndecodableListing.

Definition read_peer_list (reply : string) : peer_listing :=
  match Wire.recv_decode BUFFER_SIZE reply with
  | None => UndecodableListing
  | Some message =>
      if String.eqb message RESP_NO_ACTIVE_PEERS then NoPeers
      else Peers (PyText.split_comma_space message)
  end.

End Client.

(* ------------------------------------------------------------------ *)
(** ** Predicates on what the state stores *)

(** Every username and endpoint the server stores is a word. *)
Definition stores_words (s : PeerSyncServer) : Prop :=
  (forall a d, In (a, d) (active_clients s) ->
               PyText.is_word (username d) = true
               /\ forall host port,
                    tcp_address d = Some (host, port) ->
                    PyText.is_word host = true
                    /\ PyText.is_word port = true)
  /\ (forall f publishers u,
        In (f, publishers) (published_files s) -> In u publishers ->
        PyText.is_word u = true).

(* ================================================================== *)
(** * Facts about the building blocks *)

Section DictFacts.

Context {K V : Type}.
Variable keqb : K -> K -> bool.
Hypothesis keqb_eq : forall a b, keqb a b = true <-> a = b.

Implicit Types (k : K) (v : V) (d : dict K V).

Lemma keqb_refl k : keqb k k = true.
Proof. now apply keqb_eq. Qed.

Lemma keqb_neq k k' : k <> k' -> keqb k k' = false.
Proof.
  intros Hne. destruct (keqb k k') eqn:E; trivial.
  apply keqb_eq in E. contradiction.
Qed.

Lemma keqb_false k k' : keqb k k' = false -> k <> k'.
Proof.
  intros E Heq. subst. rewrite keqb_refl in E. discriminate.
Qed.

Lemma get_In k v d : dict_get keqb k d = Some v -> In (k, v) d.
Proof.
  induction d as [|[k' v'] t IH]; simpl; [discriminate|].
  destruct (keqb k k') eqn:E.
  - intros [= ->]. apply keqb_eq in E. subst. now left.
  - intros H. right. auto.
Qed.

Lemma get_None_keys k d :
  dict_get keqb k d = None <-> ~ In k (dict_keys d).
Proof.
  induction d as [|[k' v'] t IH]; simpl; [tauto|].
  destruct (keqb k k') eqn:E.
  - apply keqb_eq in E. subst. split; [discriminate|].
    intros H. elim H. now left.
  - apply keqb_false in E. rewrite IH. unfold dict_keys.
    split; intros H; [intros [H1|H1]; [congruence|tauto] | tauto].
Qed.

Lemma get_Some_keys k v d :
  dict_get keqb k d = Some v -> In k (dict_keys d).
Proof.
  intros H. apply get_In in H. unfold dict_keys.
  change k with (fst (k, v)). now apply in_map.
Qed.

Lemma keys_get k d :
  In k (dict_keys d) -> exists v, dict_get keqb k d = Some v.
Proof.
  intros H. destruct (dict_get keqb k d) eqn:E; [eauto|].
  apply get_None_keys in E. contradiction.
Qed.

Lemma In_get k v d : dict_wf d -> In (k, v) d -> dict_get keqb k d = Some v.
Proof.
  unfold dict_wf, dict_keys.
  induction d as [|[k' v'] t IH]; simpl; [tauto|].
  intros Hnd [H|H].
  - injection H as -> ->. now rewrite keqb_refl.
  - inversion Hnd as [|? ? Hnot Hnd']; subst.
    assert (k <> k') as Hne.
    { intros ->. apply Hnot. change k' with (fst (k', v)). now apply in_map. }
    rewrite (keqb_neq _ _ Hne). auto.
Qed.

Lemma get_set_eq k v d : dict_get keqb k (dict_set keqb k v d) = Some v.
Proof.
  induction d as [|[k' v'] t IH]; simpl.
  - now rewrite keqb_refl.
  - destruct (keqb k k') eqn:E; simpl.
    + now rewrite keqb_refl.
    + now rewrite E.
Qed.

Lemma get_set_ne k k' v d :
  k' <> k -> dict_get keqb k' (dict_set keqb k v d) = dict_get keqb k' d.
Proof.
  intros Hne. induction d as [|[k0 v0] t IH]; simpl.
  - now rewrite (keqb_neq _ _ Hne).
  - destruct (keqb k k0) eqn:E; simpl.
    + apply keqb_eq in E. subst k0. now rewrite (keqb_neq _ _ Hne).
    + now rewrite IH.
Qed.

Lemma keys_set k v d :
  forall k', In k' (dict_keys (dict_set keqb k v d))
             <-> k' = k \/ In k' (dict_keys d).
Proof.
  intros k'. induction d as [|[k0 v0] t IH]; simpl.
  - intuition.
  - destruct (keqb k k0) eqn:E; simpl.
    + apply keqb_eq in E. subst k0. intuition.
    + rewrite IH. intuition.
Qed.

Lemma set_wf k v d : dict_wf d -> dict_wf (dict_set keqb k v d).
Proof.
  unfold dict_wf. induction d as [|[k0 v0] t IH]; simpl; intros Hnd.
  - constructor; [simpl; tauto | constructor].
  - inversion Hnd as [|? ? Hnot Hnd']; subst.
    destruct (keqb k k0) eqn:E; simpl.
    + apply keqb_eq in E. subst k0. now constructor.
    + constructor; [|now apply IH].
      intros Hin. apply keys_set in Hin. destruct Hin as [->|Hin].
      * rewrite keqb_refl in E. discriminate.
      * contradiction.
Qed.

Lemma In_set k v d :
  forall kv, In kv (dict_set keqb k v d) -> kv = (k, v) \/ In kv d.
Proof.
  intros kv. induction d as [|[k0 v0] t IH]; simpl.
  - intros [<-|[]]. now left.
  - destruct (keqb k k0); simpl.
    + intros [<-|H]; [now left | right; now right].
    + intros [<-|H]; [right; now left|].
      destruct (IH H) as [->|?]; [now left | right; now right].
Qed.

Lemma In_del k d :
  forall kv, In kv (dict_del keqb k d) <-> In kv d /\ fst kv <> k.
Proof.
  intros kv. unfold dict_del. rewrite filter_In.
  split; intros [H1 H2]; split; trivial.
  - apply negb_true_iff in H2. intros Heq. subst k.
    rewrite keqb_refl in H2. discriminate.
  - apply negb_true_iff. apply keqb_neq. congruence.
Qed.

Lemma keys_del k d :
  forall k', In k' (dict_keys (dict_del keqb k d))
             <-> In k' (dict_keys d) /\ k' <> k.
Proof.
  intros k'. unfold dict_keys. rewrite !in_map_iff. split.
  - intros [[k0 v0] [<- H]]. apply In_del in H. destruct H as [H1 H2].
    split; [exists (k0, v0); auto | exact H2].
  - intros [[[k0 v0] [<- H]] Hne]. exists (k0, v0). split; trivial.
    apply In_del. auto.
Qed.

Lemma get_del_eq k d : dict_get keqb k (dict_del keqb k d) = None.
Proof.
  apply get_None_keys. rewrite keys_del. tauto.
Qed.

Lemma get_del_ne k k' d :
  k' <> k -> dict_get keqb k' (dict_del keqb k d) = dict_get keqb k' d.
Proof.
  intros Hne. induction d as [|[k0 v0] t IH]; simpl; trivial.
  destruct (keqb k k0) eqn:E; simpl.
  - apply keqb_eq in E. subst k0. now rewrite (keqb_neq _ _ Hne).
  - now rewrite IH.
Qed.

Lemma del_wf k d : dict_wf d -> dict_wf (dict_del keqb k d).
Proof.
  unfold dict_wf, dict_keys, dict_del.
  induction d as [|[k0 v0] t IH]; simpl; intros Hnd; trivial.
  inversion Hnd as [|? ? Hnot Hnd']; subst.
  destruct (keqb k k0); simpl; [now apply IH|].
  constructor; [|now apply IH].
  intros Hin. apply Hnot. apply in_map_iff in Hin.
  destruct Hin as [kv [Hk Hin]]. apply filter_In in Hin.
  apply in_map_iff. exists kv. tauto.
Qed.

Lemma mem_get k d :
  dict_mem keqb k d = true <-> exists v, dict_get keqb k d = Some v.
Proof.
  unfold dict_mem. destruct (dict_get keqb k d); split; eauto.
  - discriminate.
  - intros [v Hv]. discriminate.
Qed.

End DictFacts.

Lemma addr_eqb_eq (a b : ClientAddress) : addr_eqb a b = true <-> a = b.
Proof.
  destruct a as [h1 p1], b as [h2 p2]. unfold addr_eqb. simpl.
  rewrite andb_true_iff, String.eqb_eq, Z.eqb_eq.
  split; [intros [-> ->]; reflexivity | intros [= -> ->]; auto].
Qed.

Lemma str_eqb_eq (a b : string) : String.eqb a b = true <-> a = b.
Proof. apply String.eqb_eq. Qed.

Section StringFacts.

Lemma prefix_app (p s : string) :
  String.prefix p s = true <-> exists rest, s = p ++ rest.
Proof.
  revert s. induction p as [|a p IH]; intros s.
  - split; [intros _; exists s; reflexivity|].
    intros _. destruct s; reflexivity.
  - destruct s as [|b s]; simpl.
    + split; [discriminate | intros [r Hr]; discriminate].
    + destruct (ascii_dec a b) as [->|Hne].
      * rewrite IH. split; intros [r Hr]; exists r; congruence.
      * split; [discriminate | intros [r Hr]; congruence].
Qed.

Lemma startswith_app (s p : string) :
  PyStr.startswith s p = true <-> exists rest, s = p ++ rest.
Proof. apply prefix_app. Qed.

Lemma contains_occurs (sub s : string) :
  PyStr.contains sub s = true <-> occurs_in sub s.
Proof.
  unfold occurs_in. induction s as [|c s IH].
  - change (PyStr.contains sub EmptyString)
      with (String.prefix sub EmptyString || false).
    rewrite orb_false_r, prefix_app. split.
    + intros [r Hr]. exists EmptyString, r. exact Hr.
    + intros [[|c0 b0] [a0 Ha]]; [exists a0; exact Ha | discriminate].
  - change (PyStr.contains sub (String c s))
      with (String.prefix sub (String c s) || PyStr.contains sub s).
    rewrite orb_true_iff, IH, prefix_app. split.
    + intros [[r Hr]|[b [a Hba]]].
      * exists EmptyString, r. exact Hr.
      * exists (String c b), a. simpl. now rewrite Hba.
    + intros [[|c' b] [a Hba]].
      * left. exists a. exact Hba.
      * right. simpl in Hba. injection Hba as _ Hs. eauto.
Qed.

Lemma mem_In (x : string) (l : list string) :
  PyStr.mem x l = true <-> In x l.
Proof.
  unfold PyStr.mem. rewrite existsb_exists. split.
  - intros [y [Hy E]]. apply String.eqb_eq in E. now subst.
  - intros H. exists x. split; trivial. apply String.eqb_refl.
Qed.

Lemma mem_false (x : string) (l : list string) :
  PyStr.mem x l = false <-> ~ In x l.
Proof.
  rewrite <- mem_In. destruct (PyStr.mem x l); split; congruence.
Qed.

Lemma mem_app_single (x u : string) (l : list string) :
  PyStr.mem x (l ++ [u])%list = PyStr.mem x l || String.eqb x u.
Proof.
  unfold PyStr.mem. rewrite existsb_app. simpl. now rewrite orb_false_r.
Qed.

Lemma remove_first_In (x y : string) (l : list string) :
  In y (PyStr.remove_first x l) -> In y l.
Proof.
  induction l as [|z t IH]; simpl; trivial.
  destruct (String.eqb x z); simpl; tauto.
Qed.

Lemma remove_first_NoDup (x : string) (l : list string) :
  NoDup l -> NoDup (PyStr.remove_first x l).
Proof.
  induction 1 as [|z t Hnot Hnd IH]; simpl; [constructor|].
  destruct (String.eqb x z); trivial.
  constructor; trivial. intros H. apply Hnot. eapply remove_first_In; eauto.
Qed.

Lemma mem_remove_first (x y : string) (l : list string) :
  NoDup l ->
  PyStr.mem y (PyStr.remove_first x l)
  = PyStr.mem y l && negb (String.eqb y x).
Proof.
  induction 1 as [|z t Hnot Hnd IH]; [reflexivity|].
  cbn [PyStr.remove_first].
  change (PyStr.mem y (z :: t)) with (String.eqb y z || PyStr.mem y t).
  destruct (String.eqb x z) eqn:E.
  - apply String.eqb_eq in E. subst z.
    destruct (String.eqb y x) eqn:E'.
    + apply String.eqb_eq in E'. subst y.
      apply mem_false in Hnot. rewrite Hnot. reflexivity.
    + destruct (PyStr.mem y t); reflexivity.
  - change (PyStr.mem y (z :: PyStr.remove_first x t))
      with (String.eqb y z || PyStr.mem y (PyStr.remove_first x t)).
    rewrite IH. destruct (String.eqb y z) eqn:E'; [|reflexivity].
    apply String.eqb_eq in E'. subst z.
    rewrite String.eqb_sym, E. reflexivity.
Qed.

Lemma remove_first_absent (x : string) (l : list string) :
  ~ In x l -> PyStr.remove_first x l = l.
Proof.
  induction l as [|z t IH]; simpl; trivial. intros H.
  destruct (String.eqb x z) eqn:E.
  - apply String.eqb_eq in E. subst. tauto.
  - f_equal. tauto.
Qed.

(** The command word is what precedes the first space, so the message
    starts with it. *)
Lemma split_space1_head (s : string) :
  exists h t, PyStr.split_space1 s = h :: t /\ exists rest, s = h ++ rest.
Proof.
  induction s as [|c s (h & t & E & rest & Hrest)]; simpl.
  - exists EmptyString, []. split; trivial. now exists EmptyString.
  - destruct (Ascii.eqb c " ").
    + exists EmptyString, [s]. split; trivial. now exists (String c s).
    + rewrite E. exists (String c h), t. split; trivial.
      exists rest. simpl. now rewrite <- Hrest.
Qed.

Lemma command_word_prefix (message : string) :
  exists rest, message = fst (parse_command message) ++ rest.
Proof.
  unfold parse_command.
  destruct (split_space1_head message) as (h & t & E & Hrest).
  rewrite E. exact Hrest.
Qed.

Lemma parse_pub (filename : string) :
  parse_command (CMD_PUBLISH ++ " " ++ filename) = (CMD_PUBLISH, filename).
Proof. reflexivity. Qed.

Lemma parse_unp (filename : string) :
  parse_command (CMD_UNPUBLISH ++ " " ++ filename)
  = (CMD_UNPUBLISH, filename).
Proof. reflexivity. Qed.

End StringFacts.

(* ================================================================== *)
(** * The liveness sweep *)

Abbreviation clients_get := (dict_get addr_eqb).
Abbreviation files_get := (dict_get String.eqb).

(* ================================================================== *)
(** * Double-precision subtraction *)

Section DoubleFacts.

Local Open Scope Q_scope.

Lemma pow2_pos k : 0 < Double.pow2 k.
Proof. apply Qpower_0_lt. reflexivity. Qed.

Lemma pow2_plus a b : Double.pow2 (a + b) == Double.pow2 a * Double.pow2 b.
Proof. apply Qpower_plus. discriminate. Qed.

Lemma pow2_le a b : (a <= b)%Z -> Double.pow2 a <= Double.pow2 b.
Proof. intros H. apply Qpower_le_compat_l; [exact H | discriminate]. Qed.

Lemma pow2_lt_inv a b : Double.pow2 a < Double.pow2 b -> (a < b)%Z.
Proof. intros H. eapply Qpower_lt_compat_l_inv; [exact H | reflexivity]. Qed.

Lemma pow2_Z k : (0 <= k)%Z -> Double.pow2 k == inject_Z (2 ^ k).
Proof.
  intros H. unfold Double.pow2. change 2 with (inject_Z 2).
  symmetry. apply Zpower_Qpower. exact H.
Qed.

Lemma pow2_minus a b :
  (0 <= a)%Z -> (0 <= b)%Z ->
  Double.pow2 (a - b) == inject_Z (2 ^ a) / inject_Z (2 ^ b).
Proof.
  intros Ha Hb. unfold Double.pow2.
  change (2 ^ (a - b)) with (Double.pow2 (a + - b)).
  rewrite pow2_plus, <- (pow2_Z a Ha), <- (pow2_Z b Hb).
  unfold Double.pow2 at 2. rewrite Qpower_opp. reflexivity.
Qed.

Lemma ilog2_bounds (x : Q) :
  0 < x ->
  let k := (Z.log2 (Qnum x) - Z.log2 (Z.pos (Qden x)))%Z in
  Double.pow2 (k - 1) <= x /\ x < Double.pow2 (k + 1).
Proof.
  intros Hx k. destruct x as [n d]. cbn [Qnum Qden] in k.
  assert (0 < n)%Z as Hn by (unfold Qlt in Hx; simpl in Hx; lia).
  pose proof (Z.log2_nonneg n) as Ha0.
  pose proof (Z.log2_nonneg (Z.pos d)) as Hb0.
  destruct (Z.log2_spec n Hn) as [Ha1 Ha2].
  destruct (Z.log2_spec (Z.pos d) eq_refl) as [Hb1 Hb2].
  set (a := Z.log2 n) in *. set (b := Z.log2 (Z.pos d)) in *.
  assert (0 < 2 ^ a)%Z as Hpa by (apply Z.pow_pos_nonneg; lia).
  assert (0 < 2 ^ b)%Z as Hpb by (apply Z.pow_pos_nonneg; lia).
  assert (2 ^ Z.succ a = 2 * 2 ^ a)%Z as Esa by (apply Z.pow_succ_r; lia).
  assert (2 ^ Z.succ b = 2 * 2 ^ b)%Z as Esb by (apply Z.pow_succ_r; lia).
  split.
  - replace (k - 1)%Z with (a - (b + 1))%Z by (unfold k; lia).
    rewrite pow2_minus by lia.
    apply Qle_shift_div_r.
    + unfold Qlt. simpl. replace (b + 1)%Z with (Z.succ b) by lia. lia.
    + unfold Qle. simpl. replace (b + 1)%Z with (Z.succ b) by lia.
      rewrite Esb. nia.
  - replace (k + 1)%Z with ((a + 1) - b)%Z by (unfold k; lia).
    rewrite pow2_minus by lia.
    apply Qlt_shift_div_l.
    + unfold Qlt. simpl. lia.
    + unfold Qlt. simpl. replace (a + 1)%Z with (Z.succ a) by lia.
      rewrite Esa. nia.
Qed.

Lemma ilog2_spec (x : Q) :
  0 < x -> Double.pow2 (Double.ilog2 x) <= x /\ x < Double.pow2 (Double.ilog2 x + 1).
Proof.
  intros Hx. destruct (ilog2_bounds x Hx) as [Hlo Hhi]. unfold Double.ilog2.
  set (k := (Z.log2 (Qnum x) - Z.log2 (Z.pos (Qden x)))%Z) in *.
  destruct (Qle_bool (Double.pow2 k) x) eqn:E.
  - apply Qle_bool_iff in E. auto.
  - split; [exact Hlo|]. replace (k - 1 + 1)%Z with k by lia.
    apply Qnot_le_lt. intros H. apply Qle_bool_iff in H. congruence.
Qed.

Lemma rne_floor x : (Qfloor x <= Double.rne x <= Qfloor x + 1)%Z.
Proof.
  unfold Double.rne. destruct (Qcompare _ _); [destruct (Z.even _)| |]; lia.
Qed.

Lemma floor_lt_Z x N : x <= inject_Z N -> inject_Z (Qfloor x) < x ->
  (Qfloor x + 1 <= N)%Z.
Proof.
  intros H1 H2.
  assert (inject_Z (Qfloor x) < inject_Z N) as H by (eapply Qlt_le_trans; eauto).
  rewrite <- Zlt_Qlt in H. lia.
Qed.

Lemma rne_le_Z x N : x <= inject_Z N -> (Double.rne x <= N)%Z.
Proof.
  intros H. unfold Double.rne.
  pose proof (Qfloor_le x) as Hf.
  assert (Qfloor x <= N)%Z as HfN.
  { rewrite <- (Qfloor_Z N). now apply Qfloor_resp_le. }
  destruct (Qcompare_spec (x - inject_Z (Qfloor x)) (1 # 2)) as [E|E|E].
  - destruct (Z.even _); trivial. apply floor_lt_Z; trivial. lra.
  - exact HfN.
  - apply floor_lt_Z; trivial. lra.
Qed.

Lemma rne_ge_Z x N : inject_Z N <= x -> (N <= Double.rne x)%Z.
Proof.
  intros H. pose proof (rne_floor x).
  assert (N <= Qfloor x)%Z.
  { rewrite <- (Qfloor_Z N). now apply Qfloor_resp_le. }
  lia.
Qed.

Lemma rne_tie_le x N :
  Z.even N = true -> x <= inject_Z N + (1 # 2) -> (Double.rne x <= N)%Z.
Proof.
  intros Hev H. pose proof (Qfloor_le x) as Hf.
  assert (Qfloor x <= N)%Z as HfN.
  { assert (inject_Z (Qfloor x) < inject_Z (N + 1)) as H'.
    { rewrite inject_Z_plus. change (inject_Z 1) with 1. lra. }
    rewrite <- Zlt_Qlt in H'. lia. }
  destruct (Z.eq_dec (Qfloor x) N) as [E|E].
  - unfold Double.rne. rewrite E, Hev.
    destruct (Qcompare_spec (x - inject_Z N) (1 # 2)); try lia. lra.
  - pose proof (rne_floor x). lia.
Qed.

Lemma rne_tie_gt x N : inject_Z N + (1 # 2) < x -> (N + 1 <= Double.rne x)%Z.
Proof.
  intros H. pose proof (Qfloor_le x) as Hf. pose proof (rne_floor x) as Hr.
  assert (N <= Qfloor x)%Z as HfN.
  { rewrite <- (Qfloor_Z N). apply Qfloor_resp_le. lra. }
  destruct (Z.eq_dec (Qfloor x) N) as [E|E]; [|lia].
  unfold Double.rne. rewrite E.
  destruct (Qcompare_spec (x - inject_Z N) (1 # 2)); try lia; lra.
Qed.

Lemma nearest_nonneg x : 0 <= x -> 0 <= Double.nearest x.
Proof.
  intros Hx. unfold Double.nearest.
  set (e := Z.max _ _). pose proof (pow2_pos e) as Hp.
  apply Qmult_le_0_compat; [|lra].
  change 0 with (inject_Z 0). rewrite <- Zle_Qle. apply rne_ge_Z.
  change (inject_Z 0) with 0. apply Qle_shift_div_l; trivial. lra.
Qed.

(** Below 2 the result stays at or below 2; from 4 on it stays at or above
    4; in between the grid is 2^-51 wide. *)
Lemma nearest_below_2 x : 0 < x -> x < 2 -> Double.nearest x <= 2.
Proof.
  intros H0 H2. unfold Double.nearest.
  destruct (ilog2_spec x H0) as [Hlo _].
  assert (Double.ilog2 x < 1)%Z as Hk.
  { apply pow2_lt_inv. change (Double.pow2 1) with 2. lra. }
  set (e := Z.max _ _). assert (e <= -52)%Z as He by lia.
  pose proof (pow2_pos e) as Hp.
  assert (Double.pow2 (1 - e) * Double.pow2 e == 2) as Hprod.
  { rewrite <- pow2_plus. replace (1 - e + e)%Z with 1%Z by lia. reflexivity. }
  rewrite <- Hprod. apply Qmult_le_compat_r; [|lra].
  rewrite (pow2_Z (1 - e)) by lia. rewrite <- Zle_Qle. apply rne_le_Z.
  rewrite <- (pow2_Z (1 - e)) by lia. apply Qle_shift_div_r; trivial. lra.
Qed.

Lemma nearest_from_4 x : 4 <= x -> 4 <= Double.nearest x.
Proof.
  intros H4. assert (0 < x) as H0 by lra. unfold Double.nearest.
  destruct (ilog2_spec x H0) as [Hlo Hhi].
  assert (1 < Double.ilog2 x + 1)%Z as Hk.
  { apply pow2_lt_inv. change (Double.pow2 1) with 2. lra. }
  assert (2 <= Double.ilog2 x)%Z as Hk2.
  { assert (2 < Double.ilog2 x + 1)%Z; [|lia].
    apply pow2_lt_inv. change (Double.pow2 2) with 4. lra. }
  replace (Z.max (Double.ilog2 x - 52) (-1074)) with (Double.ilog2 x - 52)%Z by lia.
  set (k := Double.ilog2 x) in *. pose proof (pow2_pos (k - 52)) as Hp.
  assert (Double.pow2 52 * Double.pow2 (k - 52) == Double.pow2 k) as Hprod.
  { rewrite <- pow2_plus. replace (52 + (k - 52))%Z with k by lia.
    reflexivity. }
  apply Qle_trans with (Double.pow2 k).
  { change 4 with (Double.pow2 2). apply pow2_le. lia. }
  rewrite <- Hprod. apply Qmult_le_compat_r; [|lra].
  rewrite (pow2_Z 52) by lia. rewrite <- Zle_Qle. apply rne_ge_Z.
  rewrite <- (pow2_Z 52) by lia. apply Qle_shift_div_l; trivial. lra.
Qed.

Lemma ilog2_between_2_and_4 x : 2 <= x -> x < 4 -> Double.ilog2 x = 1%Z.
Proof.
  intros H2 H4. assert (0 < x) as H0 by lra.
  destruct (ilog2_spec x H0) as [Hlo Hhi].
  assert (Double.ilog2 x < 2)%Z.
  { apply pow2_lt_inv. change (Double.pow2 2) with 4. lra. }
  assert (1 < Double.ilog2 x + 1)%Z.
  { apply pow2_lt_inv. change (Double.pow2 1) with 2. lra. }
  lia.
Qed.

Lemma nearest_between_2_and_4 x :
  2 <= x -> x < 4 ->
  Double.nearest x == inject_Z (Double.rne (x * inject_Z (2 ^ 51))) * (1 # 2 ^ 51).
Proof.
  intros H2 H4. unfold Double.nearest. rewrite ilog2_between_2_and_4 by assumption.
  change (Z.max (1 - 52) (-1074)) with (-51)%Z.
  change (Double.pow2 (-51)) with (1 # 2 ^ 51).
  replace (Double.rne (x / (1 # 2 ^ 51))) with (Double.rne (x * inject_Z (2 ^ 51)));
    [reflexivity|].
  reflexivity.
Qed.

Lemma nearest_le_3 x : 0 < x -> x <= 3 + (1 # 2 ^ 52) -> Double.nearest x <= 3.
Proof.
  intros H0 H. destruct (Qlt_le_dec x 2) as [H2|H2].
  - pose proof (nearest_below_2 x H0 H2). lra.
  - assert (x < 4) as H4.
    { eapply Qle_lt_trans; [exact H|]. reflexivity. }
    rewrite (nearest_between_2_and_4 x H2 H4).
    assert (Double.rne (x * inject_Z (2 ^ 51)) <= 3 * 2 ^ 51)%Z as Hr.
    { apply rne_tie_le; [reflexivity|].
      apply Qle_trans with ((3 + (1 # 2 ^ 52)) * inject_Z (2 ^ 51)).
      - apply Qmult_le_compat_r; [exact H | discriminate].
      - discriminate. }
    rewrite Zle_Qle in Hr.
    apply Qle_trans with (inject_Z (3 * 2 ^ 51) * (1 # 2 ^ 51)).
    + apply Qmult_le_compat_r; [exact Hr | discriminate].
    + discriminate.
Qed.

Lemma nearest_gt_3 x : 3 + (1 # 2 ^ 52) < x -> 3 < Double.nearest x.
Proof.
  intros H. destruct (Qlt_le_dec x 4) as [H4|H4].
  - assert (2 <= x) as H2.
    { apply Qlt_le_weak. eapply Qlt_trans; [|exact H]. reflexivity. }
    rewrite (nearest_between_2_and_4 x H2 H4).
    assert (3 * 2 ^ 51 + 1 <= Double.rne (x * inject_Z (2 ^ 51)))%Z as Hr.
    { apply rne_tie_gt.
      apply Qle_lt_trans with ((3 + (1 # 2 ^ 52)) * inject_Z (2 ^ 51)).
      - discriminate.
      - apply Qmult_lt_compat_r; [reflexivity | exact H]. }
    rewrite Zle_Qle in Hr.
    apply Qlt_le_trans with (inject_Z (3 * 2 ^ 51 + 1) * (1 # 2 ^ 51)).
    + reflexivity.
    + apply Qmult_le_compat_r; [exact Hr | discriminate].
  - pose proof (nearest_from_4 x H4). lra.
Qed.

Lemma round_gt_3 x :
  Double.gtb (Double.round x) 3 = true <-> 3 + (1 # 2 ^ 52) < x.
Proof.
  unfold Double.round.
  destruct (Qcompare_spec x 0) as [E|E|E].
  - simpl. split; [discriminate|]. intros H. exfalso.
    rewrite E in H. discriminate H.
  - assert (~ 3 + (1 # 2 ^ 52) < x) as Hno.
    { intros H. assert (0 < 3 + (1 # 2 ^ 52)) as H3 by reflexivity. lra. }
    assert (0 <= Double.nearest (- x)) as Hn by (apply nearest_nonneg; lra).
    cbv zeta. destruct (Qle_bool (Double.pow2 1024) (Double.nearest (- x))); simpl.
    + split; [discriminate | tauto].
    + split; [|tauto]. rewrite negb_true_iff. intros Hb. exfalso.
      assert (Qle_bool (- Double.nearest (- x)) 3 = true) as Hb'.
      { apply Qle_bool_iff. lra. }
      congruence.
  - cbv zeta. destruct (Qlt_le_dec (3 + (1 # 2 ^ 52)) x) as [H|H].
    + pose proof (nearest_gt_3 x H) as Hr.
      split; [tauto|intros _].
      destruct (Qle_bool (Double.pow2 1024) (Double.nearest x)); simpl; trivial.
      rewrite negb_true_iff.
      destruct (Qle_bool (Double.nearest x) 3) eqn:Eb; trivial.
      apply Qle_bool_iff in Eb. lra.
    + pose proof (nearest_le_3 x E H) as Hr.
      split; [|intros H'; lra].
      destruct (Qle_bool (Double.pow2 1024) (Double.nearest x)) eqn:Ebig; simpl.
      * apply Qle_bool_iff in Ebig. exfalso.
        assert (3 < Double.pow2 1024) as Hbig by reflexivity. lra.
      * rewrite negb_true_iff. intros Hb.
        assert (Qle_bool (Double.nearest x) 3 = true) as Hb'
          by (now apply Qle_bool_iff).
        congruence.
Qed.

(** The doubles nearest to 3.1 and to 0.1 differ by a little more than 3,
    and their difference as doubles is 3. *)
Example sub_rounds_to_the_timeout :
  3 < (6980579422424269 # 2 ^ 51) - (3602879701896397 # 2 ^ 55)
  /\ Double.gtb
       (Double.sub (6980579422424269 # 2 ^ 51) (3602879701896397 # 2 ^ 55))
       3 = false.
Proof. split; vm_compute; reflexivity. Qed.

End DoubleFacts.

(* ================================================================== *)
(** * Datagrams and the receive buffer *)

(** A datagram whose encoding fits the buffer is received whole. *)
Lemma recv_decode_whole (text : string) :
  forall bufsize,
    (Wire.utf8_length text <= bufsize)%nat ->
    Wire.recv_decode bufsize text = Some text.
Proof.
  induction text as [|c rest IH]; intros bufsize Hfit; [reflexivity|].
  cbn [Wire.utf8_length] in Hfit. cbn [Wire.recv_decode].
  destruct (Nat.leb_spec (Wire.width c) bufsize) as [Hc|Hc]; [|lia].
  rewrite IH by lia. reflexivity.
Qed.

(** What is received is the beginning of what was sent, and fits. *)
Lemma recv_decode_prefix (text : string) :
  forall bufsize received,
    Wire.recv_decode bufsize text = Some received ->
    (exists dropped, text = received ++ dropped)
    /\ (Wire.utf8_length received <= bufsize)%nat.
Proof.
  induction text as [|c rest IH]; intros bufsize received.
  - intros [= <-]. split; [now exists EmptyString | simpl; lia].
  - cbn [Wire.recv_decode].
    destruct (Nat.leb_spec (Wire.width c) bufsize) as [Hc|Hc].
    + destruct (Wire.recv_decode (bufsize - Wire.width c) rest)
        as [r|] eqn:E; [|discriminate].
      intros [= <-]. destruct (IH _ _ E) as [[dropped ->] Hlen].
      split; [now exists dropped|]. cbn [Wire.utf8_length]. lia.
    + destruct (Nat.eqb_spec bufsize 0); [|discriminate].
      intros [= <-]. split; [now eexists | simpl; lia].
Qed.

Lemma receive_whole (now : Q) (message : string) (a : ClientAddress)
  (s : PeerSyncServer) :
  (Wire.utf8_length message <= BUFFER_SIZE)%nat ->
  receive_and_dispatch now (recvfrom message a) s
  = dispatch now (PyStr.strip message) a s.
Proof.
  intros Hfit. unfold receive_and_dispatch, recvfrom. cbn [payload sender].
  now rewrite recv_decode_whole.
Qed.

(** A longer datagram is cut, and the cut can fall inside a character. *)
Example recv_decode_cuts :
  Wire.recv_decode 6 "pub notes.txt" = Some "pub no"
  /\ Wire.recv_decode 5 (String "p" (String (ascii_of_nat 233) "te"))
     = Some (String "p" (String (ascii_of_nat 233) "te"))
  /\ Wire.recv_decode 2 (String "p" (String (ascii_of_nat 233) "te"))
     = None.
Proof. repeat split; reflexivity. Qed.

Section Sweep.

Implicit Types (s : PeerSyncServer) (t : Q) (a : ClientAddress)
  (d : ClientData).

(** The difference is rounded before it is compared: a session is stale
    when the exact difference exceeds the timeout by more than [2^-52],
    half the spacing of doubles at 3. *)
Lemma is_inactive_gt t d :
  is_inactive t d = true
  <-> (HEARTBEAT_TIMEOUT + (1 # 2 ^ 52) < t - last_heartbeat d)%Q.
Proof. unfold is_inactive, Double.sub. apply round_gt_3. Qed.

Lemma is_inactive_le t d :
  is_inactive t d = false
  <-> (t - last_heartbeat d <= HEARTBEAT_TIMEOUT + (1 # 2 ^ 52))%Q.
Proof.
  destruct (is_inactive t d) eqn:E.
  - apply is_inactive_gt in E. split; [discriminate|].
    intros H. exfalso. exact (Qlt_not_le _ _ E H).
  - split; trivial. intros _. apply Qnot_lt_le. intros H.
    apply is_inactive_gt in H. congruence.
Qed.

(** Within the timeout in exact terms, a session is not stale. *)
Lemma is_inactive_keep t d :
  (t - last_heartbeat d <= HEARTBEAT_TIMEOUT)%Q -> is_inactive t d = false.
Proof.
  intros H. apply is_inactive_le. eapply Qle_trans; [exact H|].
  discriminate.
Qed.

(** Whatever the loop does, it only rebinds [active_clients] and sends
    nothing. *)
Lemma evict_frame (l : list ClientAddress) s :
  published_files (state_of (evict l s)) = published_files s
  /\ credentials (state_of (evict l s)) = credentials s
  /\ sent_of (evict l s) = [].
Proof.
  revert s. induction l as [|c rest IH]; intros s; simpl; auto.
  destruct (clients_get c (active_clients s)); simpl; auto.
  destruct (IH (with_active_clients
                  (dict_del addr_eqb c (active_clients s)) s))
    as (H1 & H2 & H3).
  auto.
Qed.

Lemma filter_all {A} (l : list A) : filter (fun _ => true) l = l.
Proof. induction l as [|x l IH]; simpl; congruence. Qed.

Lemma filter_filter {A} (f g : A -> bool) (l : list A) :
  filter f (filter g l) = filter (fun x => g x && f x) l.
Proof.
  induction l as [|x l IH]; simpl; trivial.
  destruct (g x); simpl; [destruct (f x)|]; rewrite IH; reflexivity.
Qed.

Lemma NoDup_keys_filter {A B} (f : A * B -> bool) (l : list (A * B)) :
  NoDup (map fst l) -> NoDup (map fst (filter f l)).
Proof.
  induction l as [|x l IH]; simpl; trivial. intros Hnd.
  inversion Hnd as [|? ? Hnot Hnd']; subst.
  destruct (f x); simpl; auto.
  constructor; auto. intros Hin. apply Hnot.
  apply in_map_iff in Hin. destruct Hin as [y [Hy Hin]].
  apply filter_In in Hin. apply in_map_iff. exists y. tauto.
Qed.

Lemma wf_functional (l : dict ClientAddress ClientData) a d d' :
  dict_wf l -> In (a, d) l -> In (a, d') l -> d = d'.
Proof.
  intros Hwf H1 H2.
  apply (In_get addr_eqb addr_eqb_eq _ _ _ Hwf) in H1.
  apply (In_get addr_eqb addr_eqb_eq _ _ _ Hwf) in H2.
  congruence.
Qed.

(** Evicting distinct addresses that all have a session returns, and
    leaves the sessions of the other addresses in their order. *)
Lemma evict_returns (l : list ClientAddress) s :
  NoDup l ->
  (forall c, In c l -> In c (dict_keys (active_clients s))) ->
  evict l s
  = Returned
      (with_active_clients
         (filter (fun cd => negb (existsb (fun c => addr_eqb c (fst cd)) l))
            (active_clients s)) s) [].
Proof.
  revert s. induction l as [|c rest IH]; intros s Hnd Hin.
  - simpl. destruct s as [cl pf cr]. unfold with_active_clients. simpl.
    now rewrite filter_all.
  - inversion Hnd as [|? ? Hnot Hnd']; subst. simpl.
    destruct (keys_get addr_eqb addr_eqb_eq c (active_clients s)) as [v Hv];
      [apply Hin; now left|].
    rewrite Hv. rewrite IH; trivial.
    + unfold with_active_clients. simpl. unfold dict_del.
      rewrite filter_filter. f_equal. f_equal.
      apply filter_ext. intros x. now rewrite negb_orb.
    + intros c' Hc'. simpl. apply (keys_del addr_eqb addr_eqb_eq). split.
      * apply Hin. now right.
      * intros ->. contradiction.
Qed.

(** On a dictionary the sweep always returns, and keeps exactly the
    sessions that fail the staleness test. *)
Lemma sweep_filter t s :
  dict_wf (active_clients s) ->
  check_for_inactive_clients t s
  = Returned
      (with_active_clients
         (filter (fun cd => negb (is_inactive t (snd cd)))
            (active_clients s)) s) [].
Proof.
  intros Hwf. unfold check_for_inactive_clients.
  rewrite evict_returns.
  - f_equal. f_equal. apply filter_ext_in. intros [a d] Hin. simpl.
    f_equal. destruct (is_inactive t d) eqn:E.
    + apply existsb_exists. exists a. split; [|now apply addr_eqb_eq].
      apply in_map_iff. exists (a, d). split; trivial.
      apply filter_In. auto.
    + destruct (existsb _ _) eqn:Ex; trivial.
      apply existsb_exists in Ex. destruct Ex as [c [Hc Heq]].
      apply addr_eqb_eq in Heq. simpl in Heq. subst c.
      apply in_map_iff in Hc. destruct Hc as [[a' d'] [Ha' Hin']].
      simpl in Ha'. subst a'. apply filter_In in Hin'.
      destruct Hin' as [Hin' Hst]. simpl in Hst.
      assert (d = d') by (eapply wf_functional; eauto).
      subst d'. congruence.
  - now apply NoDup_keys_filter.
  - intros c Hc. apply in_map_iff in Hc. destruct Hc as [x [<- Hx]].
    apply filter_In in Hx. unfold dict_keys. apply in_map. tauto.
Qed.

Lemma sweep_wf t s :
  dict_wf (active_clients s) ->
  dict_wf (active_clients (state_of (check_for_inactive_clients t s))).
Proof.
  intros Hwf. rewrite sweep_filter by assumption. simpl.
  now apply NoDup_keys_filter.
Qed.

Lemma sweep_get t s a d :
  dict_wf (active_clients s) ->
  clients_get a
    (active_clients (state_of (check_for_inactive_clients t s))) = Some d
  <-> clients_get a (active_clients s) = Some d /\ is_inactive t d = false.
Proof.
  intros Hwf. rewrite sweep_filter by assumption. simpl. split.
  - intros H. apply (get_In addr_eqb addr_eqb_eq) in H. apply filter_In in H.
    destruct H as [Hin Hf]. simpl in Hf. apply negb_true_iff in Hf.
    split; trivial. now apply (In_get addr_eqb addr_eqb_eq).
  - intros [H Hf]. apply (In_get addr_eqb addr_eqb_eq).
    + now apply NoDup_keys_filter.
    + apply filter_In. split; [now apply (get_In addr_eqb addr_eqb_eq)|].
      simpl. now rewrite Hf.
Qed.

Lemma sweep_get_None t s a :
  dict_wf (active_clients s) ->
  clients_get a (active_clients s) = None ->
  clients_get a
    (active_clients (state_of (check_for_inactive_clients t s))) = None.
Proof.
  intros Hwf Hn.
  destruct (clients_get a (active_clients (state_of _))) as [d|] eqn:E;
    trivial.
  apply sweep_get in E; trivial. destruct E as [E _]. congruence.
Qed.

End Sweep.

Ltac dict_wf_by_computation :=
  unfold dict_wf, dict_keys; simpl;
  repeat (constructor; [simpl; intuition discriminate|]); constructor.

Lemma and_then_returned (s : PeerSyncServer) (m : list datagram)
  (k : PeerSyncServer -> outcome) :
  and_then (Returned s m) k
  = match k s with
    | Returned s' m' => Returned s' (m ++ m')%list
    | Raised e s' m' => Raised e s' (m ++ m')%list
    end.
Proof. reflexivity. Qed.

(** A session that no sweep of a sequence finds stale is still there after
    all of them. *)
Lemma sweep_many_keeps (times : list Q) :
  forall (s : PeerSyncServer) (a : ClientAddress) (d : ClientData),
    dict_wf (active_clients s) ->
    clients_get a (active_clients s) = Some d ->
    (forall t, In t times -> is_inactive t d = false) ->
    exists s', sweep_many times s = Returned s' []
               /\ dict_wf (active_clients s')
               /\ clients_get a (active_clients s') = Some d.
Proof.
  induction times as [|t rest IH]; intros s a d Hwf Hget Hle; simpl.
  - exists s. auto.
  - pose proof (sweep_wf t s Hwf) as Hwf1.
    assert (clients_get a
              (active_clients (state_of (check_for_inactive_clients t s)))
            = Some d) as Hget1.
    { apply sweep_get; trivial. split; trivial.
      apply Hle. now left. }
    rewrite sweep_filter in * by assumption. simpl in Hwf1, Hget1.
    rewrite and_then_returned.
    destruct (IH (with_active_clients
                    (filter (fun cd => negb (is_inactive t (snd cd)))
                       (active_clients s)) s) a d Hwf1 Hget1)
      as (s' & E & Hwf' & Hget').
    { intros t' Ht'. apply Hle. now right. }
    rewrite E. exists s'. auto.
Qed.



(** A session whose heartbeat was stamped 0.1 is kept by the sweep at 3.1:
    the two doubles differ by a little more than 3, and their difference
    as doubles is 3.  One spacing of doubles later the session is removed. *)
Example sweep_at_the_rounded_timeout :
  let stamped := (3602879701896397 # 2 ^ 55)%Q in
  let s := mkServer [(Examples.alice_addr, mkClientData "alice" stamped None)]
             [] Examples.table in
  check_for_inactive_clients (6980579422424269 # 2 ^ 51)%Q s = Returned s []
  /\ check_for_inactive_clients (6980579422424270 # 2 ^ 51)%Q s
     = Returned (with_active_clients [] s) [].
Proof. split; vm_compute; reflexivity. Qed.

(** C8. The liveness sweep never touches the Publication Registry: whatever
    the starting state and the clock reading, [published_files] after the
    sweep is the very dictionary it was before, and so is the credential
    table; the sweep sends nothing. *)
Theorem sweep_leaves_registry (s : PeerSyncServer) (now : Q) :
  published_files (state_of (check_for_inactive_clients now s))
  = published_files s
  /\ credentials (state_of (check_for_inactive_clients now s))
     = credentials s
  /\ sent_of (check_for_inactive_clients now s) = [].
Proof. apply evict_frame. Qed.

(** The registry keeps naming a publisher whose session the sweep removed. *)
Example sweep_keeps_stale_publisher :
  let s' := state_of (check_for_inactive_clients 4%Q Examples.shared) in
  clients_get Examples.alice_addr (active_clients s') = None
  /\ files_get "report.pdf" (published_files s') = Some ["alice"].
Proof. split; reflexivity. Qed.

(* ================================================================== *)
(** * Listing and authentication *)

(** C10. An address with no active session gets no datagram back for
    [lap] or [lpf]: each handler returns at its membership test with the
    state untouched and nothing sent, and so does the whole loop turn that
    receives such a request. *)
Theorem list_requests_without_session_get_no_reply
  (s : PeerSyncServer) (client_address : ClientAddress) :
  clients_get client_address (active_clients s) = None ->
  handle_list_active_peers client_address s = Returned s []
  /\ handle_list_published_files client_address s = Returned s []
  /\ (forall sweep_time now raw,
        dict_wf (active_clients s) ->
        PyStr.strip raw = CMD_LIST_ACTIVE_PEERS
        \/ PyStr.strip raw = CMD_LIST_PUBLISHED_FILES ->
        exists s',
          run_iteration sweep_time now
            (mkInbound (Some raw) client_address) s = Returned s' []).
Proof.
  intros Hnone. unfold handle_list_active_peers, handle_list_published_files.
  rewrite Hnone. split; [reflexivity|]. split; [reflexivity|].
  intros sweep_time now raw Hwf Hraw.
  pose proof (sweep_get_None sweep_time s client_address Hwf Hnone) as Hn.
  unfold run_iteration. rewrite sweep_filter in * by assumption.
  simpl in Hn. rewrite and_then_returned.
  unfold receive_and_dispatch. simpl payload. simpl sender.
  destruct Hraw as [-> | ->]; cbv [dispatch]; simpl route; cbv iota;
    unfold handle_list_active_peers, handle_list_published_files;
    simpl active_clients; rewrite Hn; simpl; eauto.
Qed.

Lemma list_requests_without_session_get_no_reply_witness :
  clients_get Examples.carol_addr (active_clients Examples.shared) = None
  /\ handle_list_active_peers Examples.carol_addr Examples.shared
     = Returned Examples.shared []
  /\ handle_list_published_files Examples.carol_addr Examples.shared
     = Returned Examples.shared [].
Proof.
  assert (clients_get Examples.carol_addr (active_clients Examples.shared)
          = None) as Hnone by reflexivity.
  split; [exact Hnone|].
  destruct (list_requests_without_session_get_no_reply
              Examples.shared Examples.carol_addr Hnone) as (H1 & H2 & _).
  split; assumption.
Defined.

(** C9. An [AUTH] request of three words whose username already has a
    session under another address is answered with [ERR], whatever the
    password and whatever the credential table says, and the server state,
    the Session Directory included, stays as it was. *)
Theorem auth_rejects_username_bound_elsewhere
  (s : PeerSyncServer) (now : Q) (client_address other : ClientAddress)
  (data : ClientData) (message word user password : string) :
  PyStr.split message = [word; user; password] ->
  In (other, data) (active_clients s) ->
  username data = user ->
  other <> client_address ->
  authenticate_client now client_address message s
  = Returned s [(MSG_ERROR, client_address)].
Proof.
  intros Hsplit Hin Huser _. unfold authenticate_client. rewrite Hsplit.
  assert (existsb (fun d => String.eqb (username d) user)
            (dict_values (active_clients s)) = true) as ->; [|reflexivity].
  apply existsb_exists. exists data. split.
  - unfold dict_values. change data with (snd (other, data)).
    now apply in_map.
  - now apply String.eqb_eq.
Qed.

Lemma auth_rejects_username_bound_elsewhere_witness :
  authenticate_client 6%Q Examples.carol_addr "auth alice password123"
    Examples.shared
  = Returned Examples.shared [(MSG_ERROR, Examples.carol_addr)]
  /\ authenticate_client 6%Q Examples.carol_addr "auth alice wrong"
       Examples.shared
     = Returned Examples.shared [(MSG_ERROR, Examples.carol_addr)].
Proof.
  split.
  - apply (auth_rejects_username_bound_elsewhere Examples.shared 6%Q
             Examples.carol_addr Examples.alice_addr Examples.alice
             "auth alice password123" "auth" "alice" "password123").
    + reflexivity.
    + simpl. left. reflexivity.
    + reflexivity.
    + discriminate.
  - apply (auth_rejects_username_bound_elsewhere Examples.shared 6%Q
             Examples.carol_addr Examples.alice_addr Examples.alice
             "auth alice wrong" "auth" "alice" "wrong").
    + reflexivity.
    + simpl. left. reflexivity.
    + reflexivity.
    + discriminate.
Defined.

(** Without a session for the username the same request goes on to the
    credential check, so the rejection above is due to the binding. *)
Example auth_accepts_free_username :
  authenticate_client 6%Q Examples.carol_addr "auth carol pw" Examples.shared
  = Returned
      (with_active_clients
         (active_clients Examples.shared
            ++ [(Examples.carol_addr, mkClientData "carol" 6%Q None)])%list
         Examples.shared)
      [(MSG_OK, Examples.carol_addr)].
Proof. reflexivity. Qed.

(* ================================================================== *)
(** * Resolution of [GET] *)

Section Resolution.

Variable s : PeerSyncServer.
Hypothesis clients_wf : dict_wf (active_clients s).
Hypothesis clients_unique : unique_usernames (active_clients s).

Lemma find_peer_None (p : string) (clients : dict ClientAddress ClientData) :
  find_peer_address p clients = None
  <-> forall a d, In (a, d) clients -> username d <> p.
Proof.
  induction clients as [|[a0 d0] rest IH]; simpl.
  - split; [intros _ a d [] | reflexivity].
  - destruct (String.eqb (username d0) p) eqn:E.
    + apply String.eqb_eq in E. split; [discriminate|].
      intros H. exfalso. apply (H a0 d0); auto.
    + apply String.eqb_neq in E. rewrite IH. split.
      * intros H a d [Heq|Hin]; [|now apply (H a d)].
        injection Heq as <- <-. exact E.
      * intros H a d Hin. apply (H a d). now right.
Qed.

Lemma find_peer_Some (p : string) (clients : dict ClientAddress ClientData)
  (a : ClientAddress) :
  find_peer_address p clients = Some a ->
  exists d, In (a, d) clients /\ username d = p.
Proof.
  induction clients as [|[a0 d0] rest IH]; simpl; [discriminate|].
  destruct (String.eqb (username d0) p) eqn:E.
  - apply String.eqb_eq in E. intros [= <-]. exists d0. auto.
  - intros H. destruct (IH H) as [d [Hin Hd]]. exists d. auto.
Qed.

(** With one session per username, the address found for a username is
    that of its session, and looking it up gives the session back. *)
Lemma find_peer_session (p : string) (a : ClientAddress) (d : ClientData) :
  In (a, d) (active_clients s) -> username d = p ->
  find_peer_address p (active_clients s) = Some a
  /\ clients_get a (active_clients s) = Some d.
Proof.
  intros Hin Hp. split; [|now apply (In_get addr_eqb addr_eqb_eq)].
  destruct (find_peer_address p (active_clients s)) as [a'|] eqn:E.
  - destruct (find_peer_Some _ _ _ E) as [d' [Hin' Hp']].
    f_equal. apply (clients_unique a' d' a d); congruence.
  - exfalso. apply (proj1 (find_peer_None _ _) E a d); assumption.
Qed.

Lemma resolve_skipped (u : string) (client_address : ClientAddress)
  (before rest : list string) :
  Forall (skipped u (active_clients s)) before ->
  resolve_publishers u client_address (before ++ rest)%list s
  = resolve_publishers u client_address rest s.
Proof.
  induction 1 as [|p before Hp _ IH]; [reflexivity|].
  simpl. destruct (String.eqb p u) eqn:E; [exact IH|].
  apply String.eqb_neq in E.
  destruct Hp as [Hp | [Hp | (a & d & Hin & Hd & Htcp)]].
  - contradiction.
  - apply find_peer_None in Hp. rewrite Hp. exact IH.
  - destruct (find_peer_session p a d Hin Hd) as [-> ->].
    rewrite Htcp. exact IH.
Qed.

Lemma resolve_reachable (u : string) (client_address : ClientAddress)
  (p host port : string) (rest : list string) :
  reachable u (active_clients s) p host port ->
  resolve_publishers u client_address (p :: rest) s
  = Returned s [(p ++ " " ++ host ++ " " ++ port, client_address)].
Proof.
  intros (Hne & a & d & Hin & Hd & Htcp). simpl.
  apply String.eqb_neq in Hne. rewrite Hne.
  destruct (find_peer_session p a d Hin Hd) as [-> ->].
  now rewrite Htcp.
Qed.

(** C2. For a [GET] from an address that has a session: with no entry for
    the filename the reply is 'File not found'; with an entry, the reply
    names the first publisher, in the order of the entry, that is not the
    requester and has a session whose data endpoint is set, as
    '<username> <host> <port>', every publisher before it being the
    requester, without a session, or without an endpoint; when every
    publisher is of that kind the reply is 'No active peer has this file',
    which is another string than 'File not found'.  The state is never
    changed. *)
Theorem get_replies_with_first_reachable_publisher
  (client_address : ClientAddress) (requester : ClientData)
  (message : string) :
  clients_get client_address (active_clients s) = Some requester ->
  let filename := snd (parse_command message) in
  let u := username requester in
  (files_get filename (published_files s) = None ->
   handle_get_request client_address message s
   = Returned s [(RESP_FILE_NOT_FOUND, client_address)])
  /\ (forall before p after host port,
        files_get filename (published_files s)
        = Some (before ++ p :: after)%list ->
        Forall (skipped u (active_clients s)) before ->
        reachable u (active_clients s) p host port ->
        handle_get_request client_address message s
        = Returned s [(p ++ " " ++ host ++ " " ++ port, client_address)])
  /\ (forall publishers,
        files_get filename (published_files s) = Some publishers ->
        Forall (skipped u (active_clients s)) publishers ->
        handle_get_request client_address message s
        = Returned s [(RESP_NO_ACTIVE_PEER_HAS_FILE, client_address)])
  /\ RESP_NO_ACTIVE_PEER_HAS_FILE <> RESP_FILE_NOT_FOUND.
Proof.
  intros Hreq filename u. unfold handle_get_request. rewrite Hreq.
  fold filename. fold u. split; [|split; [|split]].
  - intros ->. reflexivity.
  - intros before p after host port -> Hskip Hreach.
    rewrite resolve_skipped by assumption.
    now apply resolve_reachable.
  - intros publishers -> Hskip.
    rewrite <- (app_nil_r publishers).
    rewrite resolve_skipped by assumption. reflexivity.
  - discriminate.
Qed.

End Resolution.

Lemma get_replies_with_first_reachable_publisher_witness :
  handle_get_request Examples.bob_addr "get document.txt" Examples.shared
  = Returned Examples.shared [("alice 127.0.0.1 9001", Examples.bob_addr)].
Proof.
  assert (dict_wf (active_clients Examples.shared)) as Hwf
    by dict_wf_by_computation.
  assert (unique_usernames (active_clients Examples.shared)) as Huniq.
  { intros a1 d1 a2 d2 H1 H2. simpl in H1, H2.
    destruct H1 as [[= <- <-]|[[= <- <-]|[]]];
      destruct H2 as [[= <- <-]|[[= <- <-]|[]]];
      simpl; intros; congruence. }
  destruct (get_replies_with_first_reachable_publisher Examples.shared
              Hwf Huniq Examples.bob_addr Examples.bob "get document.txt"
              eq_refl) as (_ & Hfirst & _).
  apply (Hfirst [] "alice" ["bob"] "127.0.0.1" "9001").
  - reflexivity.
  - constructor.
  - split; [discriminate|].
    exists Examples.alice_addr, Examples.alice.
    split; [simpl; left; reflexivity|]. split; reflexivity.
Defined.

(** The three replies of [GET], by evaluation: the first publisher is the
    requester and is passed over; a file whose only publisher is the
    requester has no active peer; an unknown file is not found. *)
Example get_replies_by_evaluation :
  handle_get_request Examples.alice_addr "get document.txt" Examples.shared
  = Returned Examples.shared
      [(RESP_NO_ACTIVE_PEER_HAS_FILE, Examples.alice_addr)]
  /\ handle_get_request Examples.alice_addr "get report.pdf" Examples.shared
     = Returned Examples.shared
         [(RESP_NO_ACTIVE_PEER_HAS_FILE, Examples.alice_addr)]
  /\ handle_get_request Examples.bob_addr "get nothing" Examples.shared
     = Returned Examples.shared [(RESP_FILE_NOT_FOUND, Examples.bob_addr)].
Proof. repeat split; reflexivity. Qed.

(* ================================================================== *)
(** * Search *)

Lemma matching_files_In (substring user : string)
  (files : dict string (list string)) (filename : string) :
  In filename (matching_files substring user files)
  <-> exists publishers,
        In (filename, publishers) files
        /\ occurs_in substring filename
        /\ ~ In user publishers.
Proof.
  unfold matching_files. rewrite in_map_iff. split.
  - intros [[f pubs] [Hf Hin]]. simpl in Hf. subst f.
    apply filter_In in Hin. destruct Hin as [Hin Hc]. simpl in Hc.
    apply andb_true_iff in Hc. destruct Hc as [Hc Hm].
    apply negb_true_iff in Hm.
    exists pubs. split; [assumption|]. split.
    + now apply contains_occurs.
    + now apply mem_false.
  - intros (pubs & Hin & Hocc & Hnot). exists (filename, pubs).
    split; [reflexivity|]. apply filter_In. split; [assumption|]. simpl.
    apply andb_true_iff. split.
    + now apply contains_occurs.
    + apply negb_true_iff. now apply mem_false.
Qed.

(** C1, as the code has it.  For a requester with a session, the [SEARCH]
    handler replies with the published filenames, in registry order and
    joined by ', ', that contain the substring as a literal, case-sensitive
    piece and whose publisher list does not name the requester at all; when
    there is none the reply is 'No files found'.  The state is unchanged.
    When no entry is empty, every filename returned has a publisher left
    after the requester is removed. *)
Theorem search_returns_files_the_requester_does_not_publish
  (s : PeerSyncServer) (client_address : ClientAddress)
  (requester : ClientData) (message : string) :
  clients_get client_address (active_clients s) = Some requester ->
  let substring := snd (parse_command message) in
  let user := username requester in
  exists found,
    (forall filename,
        In filename found
        <-> exists publishers,
              In (filename, publishers) (published_files s)
              /\ occurs_in substring filename
              /\ ~ In user publishers)
    /\ (found = [] ->
        handle_search_files client_address message s
        = Returned s [(RESP_NO_FILES_FOUND, client_address)])
    /\ (found <> [] ->
        handle_search_files client_address message s
        = Returned s [(PyStr.join ", " found, client_address)])
    /\ (no_empty_entry (published_files s) ->
        forall filename,
          In filename found ->
          In filename (Spec.search substring user (published_files s))).
Proof.
  intros Hreq substring user.
  exists (matching_files substring user (published_files s)).
  split; [apply matching_files_In|].
  unfold handle_search_files. rewrite Hreq. fold substring. fold user.
  split; [|split].
  - intros ->. reflexivity.
  - destruct (matching_files substring user (published_files s));
      [congruence | reflexivity].
  - intros Hne filename Hin. apply matching_files_In in Hin.
    destruct Hin as (pubs & Hin & Hocc & Hnot).
    unfold Spec.search. apply in_map_iff. exists (filename, pubs).
    split; [reflexivity|]. apply filter_In. split; [assumption|]. simpl.
    apply andb_true_iff. split; [now apply contains_occurs|].
    rewrite notin_remove by assumption.
    specialize (Hne filename pubs Hin). destruct pubs; [congruence|reflexivity].
Qed.

Lemma search_returns_files_the_requester_does_not_publish_witness :
  exists found,
    In "report.pdf" found
    /\ ~ In "document.txt" found
    /\ handle_search_files Examples.bob_addr "sch rep" Examples.shared
       = Returned Examples.shared
           [(PyStr.join ", " found, Examples.bob_addr)].
Proof.
  destruct (search_returns_files_the_requester_does_not_publish
              Examples.shared Examples.bob_addr Examples.bob "sch rep"
              eq_refl) as (found & Hchar & _ & Hsome & _).
  assert (In "report.pdf" found) as Hin.
  { apply Hchar. exists ["alice"]. split; [simpl; right; left; reflexivity|].
    split.
    - exists EmptyString, "ort.pdf". reflexivity.
    - simpl. intros [H|[]]. discriminate. }
  assert (found <> []) as Hne by (intros ->; exact Hin).
  exists found. split; [exact Hin|]. split; [|exact (Hsome Hne)].
  intros Hdoc. apply Hchar in Hdoc.
  destruct Hdoc as (pubs & Hpubs & _ & Hnot). simpl in Hpubs, Hnot.
  destruct Hpubs as [[= <-]|[[=]|[]]]. apply Hnot. simpl. tauto.
Defined.

(** C1 as stated fails: [document.txt] is published by Alice and by Bob,
    so Bob is left once Alice is removed and the specification's [search]
    returns the file to Alice, but the handler tells her 'No files found'. *)
Lemma search_hides_files_shared_with_requester :
  Spec.search_reply "doc" "alice" (published_files Examples.shared)
  = "document.txt"
  /\ handle_search_files Examples.alice_addr "sch doc" Examples.shared
     = Returned Examples.shared [(RESP_NO_FILES_FOUND, Examples.alice_addr)]
  /\ handle_search_files Examples.alice_addr "sch doc" Examples.shared
     <> Returned Examples.shared
          [(Spec.search_reply "doc" "alice" (published_files Examples.shared),
            Examples.alice_addr)].
Proof.
  split; [reflexivity|]. split; [reflexivity|].
  vm_compute. intros H. discriminate H.
Qed.

(** The containment test is literal and case-sensitive. *)
Example search_match_and_near_miss :
  PyStr.contains "doc" "document.txt" = true
  /\ PyStr.contains "doc" "DOC.txt" = false
  /\ PyStr.contains "d.c" "doc" = false.
Proof. repeat split. Qed.

(* ================================================================== *)
(** * Dispatch *)

Ltac literal_case :=
  cbn in *; repeat split; intros; subst;
  try reflexivity; try discriminate; try congruence.

Lemma route_by_prefix (message : string) :
  (route message = HEARTBEAT <-> message = MSG_HEARTBEAT)
  /\ (route message = PUBLISH
      <-> PyStr.startswith message CMD_PUBLISH = true)
  /\ (route message = UNPUBLISH
      <-> PyStr.startswith message CMD_UNPUBLISH = true)
  /\ (route message = REPORT_DATA_ENDPOINT
      <-> PyStr.startswith message MSG_TCP = true)
  /\ (route message = LIST_PEERS <-> message = CMD_LIST_ACTIVE_PEERS)
  /\ (route message = LIST_FILES <-> message = CMD_LIST_PUBLISHED_FILES)
  /\ (route message = SEARCH <-> PyStr.startswith message CMD_SEARCH = true)
  /\ (route message = GET <-> PyStr.startswith message CMD_GET = true)
  /\ (route message = AUTH <-> PyStr.startswith message MSG_AUTH = true).
Proof.
  unfold route.
  destruct (String.eqb message MSG_HEARTBEAT) eqn:E1.
  { apply String.eqb_eq in E1. subst message. literal_case. }
  destruct (PyStr.startswith message CMD_PUBLISH) eqn:E2.
  { apply startswith_app in E2. destruct E2 as [r ->]. literal_case. }
  destruct (PyStr.startswith message CMD_UNPUBLISH) eqn:E3.
  { apply startswith_app in E3. destruct E3 as [r ->]. literal_case. }
  destruct (PyStr.startswith message MSG_TCP) eqn:E4.
  { apply startswith_app in E4. destruct E4 as [r ->]. literal_case. }
  destruct (String.eqb message CMD_LIST_ACTIVE_PEERS) eqn:E5.
  { apply String.eqb_eq in E5. subst message. literal_case. }
  destruct (String.eqb message CMD_LIST_PUBLISHED_FILES) eqn:E6.
  { apply String.eqb_eq in E6. subst message. literal_case. }
  destruct (PyStr.startswith message CMD_SEARCH) eqn:E7.
  { apply startswith_app in E7. destruct E7 as [r ->]. literal_case. }
  destruct (PyStr.startswith message CMD_GET) eqn:E8.
  { apply startswith_app in E8. destruct E8 as [r ->]. literal_case. }
  apply String.eqb_neq in E1, E5, E6.
  change MSG_AUTH with "auth".
  destruct (PyStr.startswith message "auth") eqn:E9;
    repeat split; intros; try discriminate; try congruence.
Qed.

Lemma leading_token_startswith (message literal : string) :
  Spec.leading_token message = literal ->
  PyStr.startswith message literal = true.
Proof.
  intros <-. apply startswith_app. apply command_word_prefix.
Qed.

(** C4, as the code has it.  The loop classifies the stripped datagram by
    prefix, not by token.  It is handled as HEARTBEAT exactly when it is
    'HBT' and nothing more, as LIST_PEERS or LIST_FILES exactly when it is
    'lap' or 'lpf', and as PUBLISH, UNPUBLISH, REPORT_DATA_ENDPOINT, SEARCH,
    GET or AUTH exactly when it starts with 'pub', 'unp', 'TCP', 'sch',
    'get' or 'auth'; so a datagram whose leading token is one of these six
    literals goes to that handler.  A datagram in none of the nine classes
    is answered with 'ERR' and changes nothing. *)
Theorem dispatch_classifies_by_prefix (message : string) :
  ((route message = HEARTBEAT <-> message = MSG_HEARTBEAT)
   /\ (route message = PUBLISH
       <-> PyStr.startswith message CMD_PUBLISH = true)
   /\ (route message = UNPUBLISH
       <-> PyStr.startswith message CMD_UNPUBLISH = true)
   /\ (route message = REPORT_DATA_ENDPOINT
       <-> PyStr.startswith message MSG_TCP = true)
   /\ (route message = LIST_PEERS <-> message = CMD_LIST_ACTIVE_PEERS)
   /\ (route message = LIST_FILES <-> message = CMD_LIST_PUBLISHED_FILES)
   /\ (route message = SEARCH <-> PyStr.startswith message CMD_SEARCH = true)
   /\ (route message = GET <-> PyStr.startswith message CMD_GET = true)
   /\ (route message = AUTH <-> PyStr.startswith message MSG_AUTH = true))
  /\ ((Spec.leading_token message = CMD_PUBLISH -> route message = PUBLISH)
      /\ (Spec.leading_token message = CMD_UNPUBLISH ->
          route message = UNPUBLISH)
      /\ (Spec.leading_token message = MSG_TCP ->
          route message = REPORT_DATA_ENDPOINT)
      /\ (Spec.leading_token message = CMD_SEARCH -> route message = SEARCH)
      /\ (Spec.leading_token message = CMD_GET -> route message = GET)
      /\ (Spec.leading_token message = MSG_AUTH -> route message = AUTH))
  /\ (route message = UNKNOWN ->
      forall now client_address s,
        dispatch now message client_address s
        = Returned s [(MSG_ERROR, client_address)]).
Proof.
  pose proof (route_by_prefix message)
    as (Hhbt & Hpub & Hunp & Htcp & Hlap & Hlpf & Hsch & Hget & Hauth).
  split; [repeat split; first [apply Hhbt | apply Hpub | apply Hunp
                              | apply Htcp | apply Hlap | apply Hlpf
                              | apply Hsch | apply Hget | apply Hauth]|].
  split.
  - repeat split; intros H; apply leading_token_startswith in H;
      first [now apply Hpub | now apply Hunp | now apply Htcp
            | now apply Hsch | now apply Hget | now apply Hauth].
  - intros Hroute now client_address s. unfold dispatch.
    now rewrite Hroute.
Qed.

Lemma dispatch_classifies_by_prefix_witness :
  route "pub notes.txt" = PUBLISH
  /\ route "TCP 127.0.0.1 9001" = REPORT_DATA_ENDPOINT
  /\ dispatch 6%Q "xit" Examples.bob_addr Examples.shared
     = Returned Examples.shared [(MSG_ERROR, Examples.bob_addr)].
Proof.
  split; [|split].
  - destruct (dispatch_classifies_by_prefix "pub notes.txt")
      as (_ & (H & _) & _).
    apply H. reflexivity.
  - destruct (dispatch_classifies_by_prefix "TCP 127.0.0.1 9001")
      as (_ & (_ & _ & H & _) & _).
    apply H. reflexivity.
  - destruct (dispatch_classifies_by_prefix "xit") as (_ & _ & H).
    apply H. reflexivity.
Defined.

(** C4 as stated fails in both directions.  The leading token of
    'public x' is 'public', no command literal, yet the datagram is handled
    as PUBLISH and registers the file 'x'; the leading token of 'HBT now'
    is 'HBT', yet the datagram is not handled as a heartbeat but answered
    with 'ERR'. *)
Lemma dispatch_is_not_by_leading_token :
  (Spec.leading_token "public x" = "public"
   /\ Spec.classify "public x" = UNKNOWN
   /\ route "public x" = PUBLISH
   /\ dispatch 6%Q "public x" Examples.bob_addr Examples.shared
      = Returned
          (with_published_files
             (published_files Examples.shared ++ [("x", ["bob"])])%list
             Examples.shared)
          [(RESP_FILE_PUBLISHED, Examples.bob_addr)]
   /\ ~ (route "public x" = PUBLISH
         <-> Spec.leading_token "public x" = CMD_PUBLISH))
  /\ (Spec.leading_token "HBT now" = MSG_HEARTBEAT
      /\ Spec.classify "HBT now" = HEARTBEAT
      /\ route "HBT now" = UNKNOWN
      /\ dispatch 6%Q "HBT now" Examples.bob_addr Examples.shared
         = Returned Examples.shared [(MSG_ERROR, Examples.bob_addr)]
      /\ ~ (route "HBT now" = HEARTBEAT
            <-> Spec.leading_token "HBT now" = MSG_HEARTBEAT)).
Proof.
  split.
  - repeat (split; [reflexivity|]).
    intros [H _]. specialize (H eq_refl). vm_compute in H. discriminate H.
  - repeat (split; [reflexivity|]).
    intros [_ H]. specialize (H eq_refl). vm_compute in H. discriminate H.
Qed.

(* ================================================================== *)
(** * The Publication Registry *)

Section Registry.

Implicit Types (files : dict string (list string)) (f u : string).

Lemma publishes_publish files f u f' u' :
  publishes (publish f u files) f' u'
  = Spec.publish f u (publishes files) f' u'.
Proof.
  unfold publishes, publish, Spec.publish.
  destruct (String.eqb f' f) eqn:Ef.
  - apply String.eqb_eq in Ef. subst f'.
    destruct (files_get f files) as [pubs|] eqn:G.
    + destruct (PyStr.mem u pubs) eqn:M.
      * rewrite G. destruct (String.eqb u' u) eqn:Eu; simpl; trivial.
        apply String.eqb_eq in Eu. now subst u'.
      * rewrite (get_set_eq String.eqb str_eqb_eq), mem_app_single.
        destruct (String.eqb u' u); simpl; [apply orb_true_r|].
        apply orb_false_r.
    + rewrite (get_set_eq String.eqb str_eqb_eq). unfold PyStr.mem. simpl.
      destruct (String.eqb u' u); reflexivity.
  - apply String.eqb_neq in Ef. simpl.
    destruct (files_get f files) as [pubs|] eqn:G.
    + destruct (PyStr.mem u pubs); trivial.
      now rewrite (get_set_ne String.eqb str_eqb_eq).
    + now rewrite (get_set_ne String.eqb str_eqb_eq).
Qed.

Lemma publishes_unpublish files f u pubs f' u' :
  files_get f files = Some pubs -> NoDup pubs ->
  publishes (unpublish f u pubs files) f' u'
  = Spec.unpublish f u (publishes files) f' u'.
Proof.
  intros G Hnd. unfold publishes, unpublish, Spec.unpublish.
  pose proof (mem_remove_first u u' pubs Hnd) as Hrem.
  destruct (String.eqb f' f) eqn:Ef.
  - apply String.eqb_eq in Ef. subst f'. rewrite G.
    destruct (PyStr.remove_first u pubs) as [|x rest] eqn:R.
    + rewrite (get_del_eq String.eqb str_eqb_eq).
      destruct (String.eqb u' u); simpl in *; trivial.
      now rewrite andb_true_r in Hrem.
    + rewrite (get_set_eq String.eqb str_eqb_eq), Hrem.
      destruct (String.eqb u' u); simpl; [apply andb_false_r|].
      apply andb_true_r.
  - apply String.eqb_neq in Ef. simpl.
    destruct (PyStr.remove_first u pubs) as [|x rest].
    + rewrite (get_del_ne String.eqb str_eqb_eq) by assumption.
      now rewrite (get_set_ne String.eqb str_eqb_eq).
    + now rewrite (get_set_ne String.eqb str_eqb_eq).
Qed.

Lemma publish_nodup files f u :
  publishers_nodup files -> publishers_nodup (publish f u files).
Proof.
  intros Hnd f' pubs' Hin. unfold publish in Hin.
  destruct (files_get f files) as [pubs|] eqn:G.
  - destruct (PyStr.mem u pubs) eqn:M; [now apply (Hnd f')|].
    apply In_set in Hin. destruct Hin as [[= -> ->]|Hin];
      [|now apply (Hnd f')].
    apply (get_In String.eqb str_eqb_eq) in G.
    apply NoDup_app; [now apply (Hnd f) | repeat constructor; simpl; tauto|].
    intros x Hx [<-|[]]. apply mem_false in M. contradiction.
  - apply In_set in Hin. destruct Hin as [[= -> ->]|Hin];
      [|now apply (Hnd f')].
    repeat constructor. simpl. tauto.
Qed.

Lemma unpublish_nodup files f u pubs :
  files_get f files = Some pubs ->
  publishers_nodup files -> publishers_nodup (unpublish f u pubs files).
Proof.
  intros G Hnd f' pubs' Hin. unfold unpublish in Hin.
  assert (In (f', pubs')
            (dict_set String.eqb f (PyStr.remove_first u pubs) files))
    as Hin'.
  { destruct (PyStr.remove_first u pubs); trivial.
    now apply (In_del String.eqb str_eqb_eq) in Hin. }
  apply In_set in Hin'. destruct Hin' as [[= -> ->]|Hin'];
    [|now apply (Hnd f')].
  apply remove_first_NoDup. apply (Hnd f).
  now apply (get_In String.eqb str_eqb_eq).
Qed.

Lemma publish_no_empty files f u :
  no_empty_entry files -> no_empty_entry (publish f u files).
Proof.
  intros Hne f' pubs' Hin. unfold publish in Hin.
  destruct (files_get f files) as [pubs|] eqn:G.
  - destruct (PyStr.mem u pubs) eqn:M; [now apply (Hne f')|].
    apply In_set in Hin. destruct Hin as [[= -> ->]|Hin];
      [|now apply (Hne f')].
    intros H. apply app_eq_nil in H. destruct H as [_ H]. discriminate.
  - apply In_set in Hin. destruct Hin as [[= -> ->]|Hin];
      [discriminate | now apply (Hne f')].
Qed.

Lemma unpublish_no_empty files f u pubs :
  no_empty_entry files -> no_empty_entry (unpublish f u pubs files).
Proof.
  intros Hne f' pubs' Hin. unfold unpublish in Hin.
  destruct (PyStr.remove_first u pubs) as [|x rest] eqn:R.
  - apply (In_del String.eqb str_eqb_eq) in Hin. destruct Hin as [Hin Hf].
    apply In_set in Hin. destruct Hin as [[= -> ->]|Hin];
      [simpl in Hf; congruence | now apply (Hne f')].
  - apply In_set in Hin. destruct Hin as [[= -> ->]|Hin];
      [discriminate | now apply (Hne f')].
Qed.

End Registry.

Lemma with_published_files_same (s : PeerSyncServer) :
  with_published_files (published_files s) s = s.
Proof. now destruct s. Qed.

Lemma effect_ext (clients : dict ClientAddress ClientData) (rq : request)
  (r1 r2 : Spec.registry) :
  (forall f u, r1 f u = r2 f u) ->
  forall f u, Spec.effect clients rq r1 f u = Spec.effect clients rq r2 f u.
Proof.
  intros H f u. unfold Spec.effect, Spec.publish, Spec.unpublish.
  destruct (clients_get (rq_from rq) clients); [|apply H].
  destruct (rq_publish rq);
    destruct (String.eqb f (rq_file rq) && String.eqb u (username c));
    trivial.
Qed.

Lemma net_effect_ext (clients : dict ClientAddress ClientData)
  (rqs : list request) :
  forall r1 r2 : Spec.registry,
    (forall f u, r1 f u = r2 f u) ->
    forall f u,
      Spec.net_effect clients rqs r1 f u = Spec.net_effect clients rqs r2 f u.
Proof.
  induction rqs as [|rq rest IH]; intros r1 r2 H; [exact H|].
  simpl. apply IH. now apply effect_ext.
Qed.

(** One request: the handler returns, leaves the sessions alone, and moves
    the publisher relation as the set-level operation does. *)
Lemma handle_request_effect (rq : request) (s : PeerSyncServer) :
  publishers_nodup (published_files s) ->
  exists s' replies,
    handle_request rq s = Returned s' replies
    /\ active_clients s' = active_clients s
    /\ publishers_nodup (published_files s')
    /\ forall f u,
         publishes (published_files s') f u
         = Spec.effect (active_clients s) rq
             (publishes (published_files s)) f u.
Proof.
  intros Hnd. unfold handle_request, Spec.effect.
  destruct (rq_publish rq).
  - unfold handle_publish_file. rewrite parse_pub. simpl snd.
    destruct (clients_get (rq_from rq) (active_clients s)) as [d|].
    + eexists. eexists. split; [reflexivity|]. simpl.
      split; [reflexivity|]. split; [now apply publish_nodup|].
      intros f u. apply publishes_publish.
    + exists s, []. auto.
  - unfold handle_unpublish_file. rewrite parse_unp. simpl snd.
    destruct (clients_get (rq_from rq) (active_clients s)) as [d|];
      [|exists s, []; auto].
    destruct (files_get (rq_file rq) (published_files s)) as [pubs|] eqn:G.
    + destruct (PyStr.mem (username d) pubs) eqn:M.
      * eexists. eexists. split; [reflexivity|]. simpl.
        split; [reflexivity|]. split; [now apply unpublish_nodup|].
        intros f u. apply publishes_unpublish; trivial.
        apply (Hnd (rq_file rq)). now apply (get_In String.eqb str_eqb_eq).
      * eexists. eexists. split; [reflexivity|]. repeat split; trivial.
        intros f u. unfold Spec.unpublish, publishes.
        destruct (String.eqb f (rq_file rq)) eqn:Ef; trivial.
        destruct (String.eqb u (username d)) eqn:Eu; trivial.
        apply String.eqb_eq in Ef, Eu. subst. now rewrite G.
    + eexists. eexists. split; [reflexivity|]. repeat split; trivial.
      intros f u. unfold Spec.unpublish, publishes.
      destruct (String.eqb f (rq_file rq)) eqn:Ef; trivial.
      destruct (String.eqb u (username d)) eqn:Eu; trivial.
      apply String.eqb_eq in Ef, Eu. subst. now rewrite G.
Qed.

(** C5. For every sequence of publish and unpublish requests, the handlers
    all return and the final publisher set of every filename is the net
    effect of the set-level operations applied in order: a publish adds the
    requester's username, an unpublish removes it.  Publishing a username
    that is already there leaves the state as it is and is acknowledged;
    unpublishing a username that is not there leaves the state as it is and
    is answered 'File unpublication failed', with no exception. *)
Theorem publish_unpublish_net_effect
  (s : PeerSyncServer) (requests : list request) :
  publishers_nodup (published_files s) ->
  (exists s' replies,
      handle_requests requests s = Returned s' replies
      /\ active_clients s' = active_clients s
      /\ forall filename user,
           publishes (published_files s') filename user
           = Spec.net_effect (active_clients s) requests
               (publishes (published_files s)) filename user)
  /\ (forall client_address data filename,
        clients_get client_address (active_clients s) = Some data ->
        publishes (published_files s) filename (username data) = true ->
        handle_publish_file client_address
          (CMD_PUBLISH ++ " " ++ filename) s
        = Returned s [(RESP_FILE_PUBLISHED, client_address)])
  /\ (forall client_address data filename,
        clients_get client_address (active_clients s) = Some data ->
        publishes (published_files s) filename (username data) = false ->
        handle_unpublish_file client_address
          (CMD_UNPUBLISH ++ " " ++ filename) s
        = Returned s [(RESP_FILE_UNPUB_FAILED, client_address)]).
Proof.
  intros Hnd. split; [|split].
  - revert s Hnd. induction requests as [|rq rest IH]; intros s Hnd.
    + exists s, []. auto.
    + destruct (handle_request_effect rq s Hnd)
        as (s1 & m1 & E1 & Hc1 & Hnd1 & Heff1).
      destruct (IH s1 Hnd1) as (s' & m' & E' & Hc' & Heff').
      exists s', (m1 ++ m')%list. simpl. rewrite E1, and_then_returned, E'.
      split; [reflexivity|]. split; [congruence|].
      intros f u. rewrite Heff', Hc1. now apply net_effect_ext.
  - intros a d f Ha Hpub. unfold handle_publish_file.
    rewrite parse_pub, Ha. simpl snd. unfold publishes in Hpub.
    unfold publish.
    destruct (files_get f (published_files s)) as [pubs|]; [|discriminate].
    rewrite Hpub. now rewrite with_published_files_same.
  - intros a d f Ha Hpub. unfold handle_unpublish_file.
    rewrite parse_unp, Ha. simpl snd. unfold publishes in Hpub.
    destruct (files_get f (published_files s)) as [pubs|]; [|reflexivity].
    now rewrite Hpub.
Qed.

Lemma publish_unpublish_net_effect_witness :
  exists s' replies,
    handle_requests
      [mkRequest true Examples.bob_addr "notes.txt";
       mkRequest true Examples.bob_addr "notes.txt";
       mkRequest false Examples.bob_addr "document.txt";
       mkRequest false Examples.bob_addr "document.txt"]
      Examples.shared = Returned s' replies
    /\ publishes (published_files s') "notes.txt" "bob" = true
    /\ publishes (published_files s') "document.txt" "bob" = false
    /\ publishes (published_files s') "document.txt" "alice" = true.
Proof.
  assert (publishers_nodup (published_files Examples.shared)) as Hnd.
  { intros f pubs Hin. simpl in Hin.
    destruct Hin as [[= <- <-]|[[= <- <-]|[]]];
      repeat (constructor; [simpl; intuition discriminate|]); constructor. }
  destruct (publish_unpublish_net_effect Examples.shared
              [mkRequest true Examples.bob_addr "notes.txt";
               mkRequest true Examples.bob_addr "notes.txt";
               mkRequest false Examples.bob_addr "document.txt";
               mkRequest false Examples.bob_addr "document.txt"] Hnd)
    as ((s' & replies & Hrun & _ & Hnet) & _ & _).
  exists s', replies. split; [exact Hrun|].
  rewrite !Hnet. repeat split; reflexivity.
Defined.

(** The replies along such a sequence, by evaluation: the second unpublish
    of the same file fails, the second publish is acknowledged again. *)
Example publish_unpublish_replies :
  sent_of
    (handle_requests
       [mkRequest true Examples.bob_addr "notes.txt";
        mkRequest true Examples.bob_addr "notes.txt";
        mkRequest false Examples.bob_addr "document.txt";
        mkRequest false Examples.bob_addr "document.txt"]
       Examples.shared)
  = [(RESP_FILE_PUBLISHED, Examples.bob_addr);
     (RESP_FILE_PUBLISHED, Examples.bob_addr);
     (RESP_FILE_UNPUBLISHED, Examples.bob_addr);
     (RESP_FILE_UNPUB_FAILED, Examples.bob_addr)].
Proof. reflexivity. Qed.

(* ================================================================== *)
(** * What a loop turn can do to the state *)

Lemma state_of_and_then (s : PeerSyncServer) (m : list datagram)
  (k : PeerSyncServer -> outcome) :
  state_of (and_then (Returned s m) k) = state_of (k s).
Proof. simpl. now destruct (k s). Qed.

Lemma sent_of_and_then (s : PeerSyncServer) (m : list datagram)
  (k : PeerSyncServer -> outcome) :
  sent_of (and_then (Returned s m) k) = (m ++ sent_of (k s))%list.
Proof. simpl. now destruct (k s). Qed.

Lemma state_of_try_except (o : outcome) :
  state_of (try_except o) = state_of o.
Proof. now destruct o. Qed.

Lemma sent_of_try_except (o : outcome) : sent_of (try_except o) = sent_of o.
Proof. now destruct o. Qed.

Lemma try_except_returns (o : outcome) :
  try_except o = Returned (state_of o) (sent_of o).
Proof. now destruct o. Qed.

(** The publisher loop of [GET] never raises, leaves the state alone and
    sends exactly one datagram, to the requester. *)
Lemma resolve_publishers_frame (u : string) (a : ClientAddress)
  (publishers : list string) (s : PeerSyncServer) :
  exists reply, resolve_publishers u a publishers s = Returned s [(reply, a)].
Proof.
  induction publishers as [|p rest IH]; simpl; [eauto|].
  destruct (String.eqb p u); trivial.
  destruct (find_peer_address p (active_clients s)) as [pa|] eqn:F; trivial.
  destruct (find_peer_Some _ _ _ F) as [d [Hin _]].
  destruct (keys_get addr_eqb addr_eqb_eq pa (active_clients s)) as [d' ->].
  { unfold dict_keys. change pa with (fst (pa, d)). now apply in_map. }
  destruct (tcp_address d') as [[ip port]|]; eauto.
Qed.

(** Every branch of the dispatch, at a glance: what is sent, and how the two
    dictionaries can have moved. *)
Lemma dispatch_frame (now : Q) (message : string) (a : ClientAddress)
  (s : PeerSyncServer) :
  let o := dispatch now message a s in
  (sent_of o = [] \/ exists reply, sent_of o = [(reply, a)])
  /\ credentials (state_of o) = credentials s
  /\ (published_files (state_of o) = published_files s
      \/ (exists f u,
            published_files (state_of o) = publish f u (published_files s))
      \/ (exists f u pubs,
            files_get f (published_files s) = Some pubs
            /\ published_files (state_of o)
               = unpublish f u pubs (published_files s)))
  /\ (active_clients (state_of o) = active_clients s
      \/ exists d',
           active_clients (state_of o)
           = dict_set addr_eqb a d' (active_clients s)
           /\ ((exists d0, clients_get a (active_clients s) = Some d0
                           /\ username d0 = username d')
               \/ (forall k v, In (k, v) (active_clients s) ->
                               username v <> username d'))).
Proof.
  unfold dispatch. destruct (route message).
  - (* HEARTBEAT *)
    unfold process_heartbeat.
    destruct (clients_get a (active_clients s)) as [d|] eqn:G; simpl;
      [|tauto].
    repeat split; auto. right. eexists. split; [reflexivity|].
    left. exists d. auto.
  - (* PUBLISH *)
    unfold handle_publish_file.
    destruct (clients_get a (active_clients s)); simpl; [|tauto].
    repeat split; eauto 6.
  - (* UNPUBLISH *)
    unfold handle_unpublish_file.
    destruct (clients_get a (active_clients s)) as [d|]; simpl; [|tauto].
    destruct (files_get _ (published_files s)) as [pubs|] eqn:G; simpl;
      [|repeat split; eauto].
    destruct (PyStr.mem (username d) pubs); simpl; repeat split; eauto 8.
  - (* REPORT_DATA_ENDPOINT *)
    unfold process_tcp_address.
    destruct (PyStr.split message) as [|w0 [|w1 [|w2 [|w3 ws]]]]; simpl;
      try tauto.
    destruct (clients_get a (active_clients s)) as [d|] eqn:G; simpl;
      [|tauto].
    repeat split; auto. right. eexists. split; [reflexivity|].
    left. exists d. auto.
  - (* LIST_PEERS *)
    unfold handle_list_active_peers.
    destruct (clients_get a (active_clients s)); simpl; [|tauto].
    repeat split; eauto.
  - (* LIST_FILES *)
    unfold handle_list_published_files.
    destruct (clients_get a (active_clients s)); simpl; [|tauto].
    repeat split; eauto.
  - (* SEARCH *)
    unfold handle_search_files.
    destruct (clients_get a (active_clients s)); simpl; [|tauto].
    repeat split; eauto.
  - (* GET *)
    unfold handle_get_request.
    destruct (clients_get a (active_clients s)) as [d|]; simpl; [|tauto].
    destruct (files_get _ (published_files s)) as [pubs|]; simpl;
      [|repeat split; eauto].
    destruct (resolve_publishers_frame (username d) a pubs s) as [reply ->].
    simpl. repeat split; eauto.
  - (* AUTH *)
    unfold authenticate_client.
    destruct (PyStr.split message) as [|w0 [|user [|password [|w3 ws]]]];
      simpl; try (repeat split; eauto; fail).
    destruct (existsb _ (dict_values (active_clients s))) eqn:Ex; simpl;
      [repeat split; eauto|].
    destruct (dict_get String.eqb user (credentials s)) as [stored|]; simpl;
      [|repeat split; eauto].
    destruct (String.eqb stored password); simpl; [|repeat split; eauto].
    repeat split; eauto. right. eexists. split; [reflexivity|].
    right. intros k v Hin Huser. simpl in Huser.
    assert (existsb (fun data => String.eqb (username data) user)
              (dict_values (active_clients s)) = true) as Ht; [|congruence].
    apply existsb_exists. exists v. split.
    + unfold dict_values. change v with (snd (k, v)). now apply in_map.
    + now apply String.eqb_eq.
  - (* UNKNOWN *)
    simpl. repeat split; eauto.
Qed.

(* ================================================================== *)
(** * Invariants of the loop *)

Lemma fresh_server_inv (table : dict string string) :
  server_inv (mkServer [] [] table).
Proof.
  unfold server_inv, dict_wf, unique_usernames, no_empty_entry,
    publishers_nodup. simpl.
  split; [constructor|]. repeat split; intros; contradiction.
Qed.

Lemma unique_usernames_filter (f : ClientAddress * ClientData -> bool)
  (clients : dict ClientAddress ClientData) :
  unique_usernames clients -> unique_usernames (filter f clients).
Proof.
  intros H a1 d1 a2 d2 H1 H2. apply filter_In in H1, H2.
  apply H; tauto.
Qed.

Lemma unique_usernames_set (a : ClientAddress) (d' : ClientData)
  (clients : dict ClientAddress ClientData) :
  unique_usernames clients ->
  (exists d0, clients_get a clients = Some d0 /\ username d0 = username d')
  \/ (forall k v, In (k, v) clients -> username v <> username d') ->
  unique_usernames (dict_set addr_eqb a d' clients).
Proof.
  intros Hu Hcase a1 d1 a2 d2 H1 H2 Heq.
  apply In_set in H1, H2.
  assert (forall k v, In (k, v) clients -> username v = username d' -> k = a)
    as Hold.
  { intros k v Hin Hv. destruct Hcase as [(d0 & G & Hd0)|Hnone].
    - apply (get_In addr_eqb addr_eqb_eq) in G.
      apply (Hu k v a d0); congruence.
    - exfalso. exact (Hnone k v Hin Hv). }
  destruct H1 as [[= -> ->]|H1], H2 as [[= -> ->]|H2]; trivial.
  - symmetry. apply (Hold a2 d2); congruence.
  - apply (Hold a1 d1); congruence.
  - now apply (Hu a1 d1 a2 d2).
Qed.

Lemma dispatch_inv (now : Q) (message : string) (a : ClientAddress)
  (s : PeerSyncServer) :
  server_inv s -> server_inv (state_of (dispatch now message a s)).
Proof.
  intros (Hwf & Hu & Hne & Hnd).
  destruct (dispatch_frame now message a s) as (_ & _ & Hfiles & Hclients).
  unfold server_inv.
  assert (dict_wf (active_clients (state_of (dispatch now message a s)))
          /\ unique_usernames
               (active_clients (state_of (dispatch now message a s))))
    as [Hwf' Hu'].
  { destruct Hclients as [->|(d' & -> & Hcase)]; [auto|]. split.
    - now apply (set_wf addr_eqb addr_eqb_eq).
    - now apply unique_usernames_set. }
  split; [exact Hwf'|]. split; [exact Hu'|].
  destruct Hfiles as [->|[(f & u & ->)|(f & u & pubs & G & ->)]].
  - auto.
  - split; [now apply publish_no_empty | now apply publish_nodup].
  - split; [now apply unpublish_no_empty | now apply unpublish_nodup].
Qed.

(** On a dictionary of sessions the turn is the sweep followed by the
    guarded dispatch, and it returns. *)
Lemma run_iteration_returns (sweep_time now : Q) (i : inbound)
  (s : PeerSyncServer) :
  dict_wf (active_clients s) ->
  let swept :=
    with_active_clients
      (filter (fun cd => negb (is_inactive sweep_time (snd cd)))
         (active_clients s)) s in
  run_iteration sweep_time now i s
  = Returned (state_of (receive_and_dispatch now i swept))
      (sent_of (receive_and_dispatch now i swept)).
Proof.
  intros Hwf swept. unfold run_iteration.
  rewrite sweep_filter by assumption. fold swept.
  rewrite and_then_returned, try_except_returns. reflexivity.
Qed.

Lemma run_iteration_inv (sweep_time now : Q) (i : inbound)
  (s : PeerSyncServer) :
  server_inv s ->
  exists s' sent,
    run_iteration sweep_time now i s = Returned s' sent /\ server_inv s'.
Proof.
  intros (Hwf & Hu & Hne & Hnd).
  rewrite run_iteration_returns by assumption.
  eexists. eexists. split; [reflexivity|].
  set (swept := with_active_clients _ s).
  assert (server_inv swept) as Hinv.
  { repeat split; simpl; trivial.
    - now apply NoDup_keys_filter.
    - now apply unique_usernames_filter. }
  unfold receive_and_dispatch. destruct (payload i); [|exact Hinv].
  now apply dispatch_inv.
Qed.

(** The loop never stops on an exception, and every state it goes through
    satisfies the invariant. *)
Lemma run_inv (turns : list (Q * Q * inbound)) :
  forall s, server_inv s ->
            exists s' sent, run turns s = Returned s' sent /\ server_inv s'.
Proof.
  induction turns as [|[[sweep_time now] i] rest IH]; intros s Hinv; simpl.
  - exists s, []. auto.
  - destruct (run_iteration_inv sweep_time now i s Hinv)
      as (s1 & m1 & E1 & Hinv1).
    destruct (IH s1 Hinv1) as (s' & m' & E' & Hinv').
    rewrite E1, and_then_returned, E'. eauto.
Qed.

(** The handler of [GET] on its own: with no session for the sender the
    subscript [self.active_clients[client_address]] raises. *)
Lemma get_without_session_raises (client_address : ClientAddress)
  (message : string) (s : PeerSyncServer) :
  clients_get client_address (active_clients s) = None ->
  handle_get_request client_address message s = Raised KeyError s [].
Proof. intros H. unfold handle_get_request. now rewrite H. Qed.

(** C3. Whatever arrives, from whatever address, a turn of the loop
    returns: no exception leaves it.  The turn sends either nothing or one
    datagram, to the sender.  For a [GET] from an address with no session
    the [KeyError] raised in the handler is caught by the loop's
    [except Exception]: nothing is sent and the state is the one the sweep
    left. *)
Theorem every_datagram_is_answered_or_ignored (s : PeerSyncServer) :
  dict_wf (active_clients s) ->
  (forall sweep_time now i,
      exists s' sent,
        run_iteration sweep_time now i s = Returned s' sent
        /\ (sent = [] \/ exists reply, sent = [(reply, sender i)]))
  /\ (forall sweep_time now raw client_address,
        clients_get client_address (active_clients s) = None ->
        PyStr.startswith (PyStr.strip raw) CMD_GET = true ->
        run_iteration sweep_time now (mkInbound (Some raw) client_address) s
        = Returned (state_of (check_for_inactive_clients sweep_time s)) []).
Proof.
  intros Hwf. split.
  - intros sweep_time now i. rewrite run_iteration_returns by assumption.
    eexists. eexists. split; [reflexivity|].
    unfold receive_and_dispatch. destruct (payload i) as [raw|]; [|now left].
    apply dispatch_frame.
  - intros sweep_time now raw a Hnone Hget.
    pose proof (sweep_get_None sweep_time s a Hwf Hnone) as Hn.
    rewrite run_iteration_returns by assumption.
    rewrite sweep_filter in * by assumption. simpl state_of in *.
    unfold receive_and_dispatch. simpl payload. simpl sender.
    unfold dispatch.
    destruct (route_by_prefix (PyStr.strip raw))
      as (_ & _ & _ & _ & _ & _ & _ & Hroute & _).
    rewrite (proj2 Hroute Hget).
    rewrite get_without_session_raises by exact Hn. reflexivity.
Qed.

Lemma every_datagram_is_answered_or_ignored_witness :
  run_iteration 6%Q 6%Q
    (mkInbound (Some "get report.pdf") Examples.carol_addr) Examples.shared
  = Returned
      (state_of (check_for_inactive_clients 6%Q Examples.shared)) []
  /\ handle_get_request Examples.carol_addr "get report.pdf" Examples.shared
     = Raised KeyError Examples.shared [].
Proof.
  assert (dict_wf (active_clients Examples.shared)) as Hwf
    by dict_wf_by_computation.
  destruct (every_datagram_is_answered_or_ignored Examples.shared Hwf)
    as [_ Hget].
  split; [|reflexivity].
  apply (Hget 6%Q 6%Q "get report.pdf" Examples.carol_addr); reflexivity.
Defined.

(** Undecodable bytes and an unknown command, by evaluation: the first is
    dropped, the second is answered with [ERR]. *)
Example malformed_datagrams :
  run_iteration 1%Q 1%Q (mkInbound None Examples.carol_addr) Examples.fresh
  = Returned Examples.fresh []
  /\ run_iteration 1%Q 1%Q (mkInbound (Some "  ") Examples.carol_addr)
       Examples.fresh
     = Returned Examples.fresh [(MSG_ERROR, Examples.carol_addr)]
  /\ run_iteration 1%Q 1%Q (mkInbound (Some "TCP nonsense") Examples.carol_addr)
       Examples.fresh
     = Returned Examples.fresh [].
Proof. repeat split; reflexivity. Qed.

(* ================================================================== *)
(** * No empty entry in the registry *)

Lemma run_iteration_no_empty (sweep_time now : Q) (i : inbound)
  (s : PeerSyncServer) :
  no_empty_entry (published_files s) ->
  no_empty_entry
    (published_files (state_of (run_iteration sweep_time now i s))).
Proof.
  intros Hne. unfold run_iteration.
  destruct (evict_frame
              (map fst (filter (fun cd => is_inactive sweep_time (snd cd))
                          (active_clients s))) s) as (Hfiles & _ & _).
  fold (check_for_inactive_clients sweep_time s) in Hfiles.
  destruct (check_for_inactive_clients sweep_time s) as [s1 m1|e s1 m1];
    simpl in Hfiles.
  - rewrite state_of_and_then, state_of_try_except.
    rewrite <- Hfiles in Hne.
    unfold receive_and_dispatch. destruct (payload i) as [raw|]; [|exact Hne].
    destruct (dispatch_frame now (PyStr.strip raw) (sender i) s1)
      as (_ & _ & [->|[(f & u & ->)|(f & u & pubs & _ & ->)]] & _).
    + exact Hne.
    + now apply publish_no_empty.
    + now apply unpublish_no_empty.
  - simpl. now rewrite Hfiles.
Qed.

Lemma sole_publisher (u : string) (l : list string) :
  NoDup l -> (forall v, In v l -> v = u) -> l = [] \/ l = [u].
Proof.
  intros Hnd Hall. destruct l as [|a [|b t]]; [now left| |].
  - right. f_equal. apply Hall. now left.
  - exfalso. inversion Hnd as [|? ? Hnot _]; subst. apply Hnot.
    rewrite (Hall a), (Hall b); simpl; auto.
Qed.

(** After its sole possible publisher has published a file, the entry of
    the file lists that publisher and nobody else. *)
Lemma publish_sole (files : dict string (list string)) (f u : string) :
  publishers_nodup files ->
  (forall v, publishes files f v = true -> v = u) ->
  files_get f (publish f u files) = Some [u].
Proof.
  intros Hnd Hall. unfold publish. unfold publishes in Hall.
  destruct (files_get f files) as [pubs|] eqn:G.
  - assert (pubs = [] \/ pubs = [u]) as [->| ->].
    { apply sole_publisher.
      - apply (Hnd f). now apply (get_In String.eqb str_eqb_eq).
      - intros v Hv. apply Hall. now apply mem_In. }
    + simpl. apply (get_set_eq String.eqb str_eqb_eq).
    + unfold PyStr.mem. simpl. rewrite String.eqb_refl. simpl. exact G.
  - apply (get_set_eq String.eqb str_eqb_eq).
Qed.

(** C6, as the code has it.  Every turn of the loop, whatever the datagram,
    keeps the registry free of entries with no publisher.  After a peer
    publishes a file and immediately unpublishes it, the filename is absent
    from the published filenames provided no other username publishes the
    file; a file that somebody else publishes too stays registered. *)
Theorem registry_has_no_empty_entry :
  (forall s sweep_time now i,
      no_empty_entry (published_files s) ->
      no_empty_entry
        (published_files (state_of (run_iteration sweep_time now i s))))
  /\ (forall s client_address data filename,
        clients_get client_address (active_clients s) = Some data ->
        publishers_nodup (published_files s) ->
        (forall v, publishes (published_files s) filename v = true ->
                   v = username data) ->
        exists s1 s2,
          handle_publish_file client_address
            (CMD_PUBLISH ++ " " ++ filename) s
          = Returned s1 [(RESP_FILE_PUBLISHED, client_address)]
          /\ handle_unpublish_file client_address
               (CMD_UNPUBLISH ++ " " ++ filename) s1
             = Returned s2 [(RESP_FILE_UNPUBLISHED, client_address)]
          /\ ~ In filename (dict_keys (published_files s2))).
Proof.
  split.
  - intros s sweep_time now i. apply run_iteration_no_empty.
  - intros s a d f Ha Hnd Hall.
    unfold handle_publish_file. rewrite parse_pub, Ha. simpl snd.
    eexists. eexists. split; [reflexivity|].
    unfold handle_unpublish_file. rewrite parse_unp. simpl snd.
    simpl active_clients. rewrite Ha. simpl published_files.
    rewrite (publish_sole _ f (username d) Hnd Hall).
    unfold PyStr.mem. simpl existsb. rewrite String.eqb_refl. simpl orb.
    cbv iota. split; [reflexivity|].
    unfold unpublish. simpl PyStr.remove_first. rewrite String.eqb_refl.
    simpl published_files. intros Hin.
    apply (keys_del String.eqb str_eqb_eq) in Hin. tauto.
Qed.

Lemma registry_has_no_empty_entry_witness :
  exists s1 s2,
    handle_publish_file Examples.bob_addr "pub notes.txt" Examples.shared
    = Returned s1 [(RESP_FILE_PUBLISHED, Examples.bob_addr)]
    /\ handle_unpublish_file Examples.bob_addr "unp notes.txt" s1
       = Returned s2 [(RESP_FILE_UNPUBLISHED, Examples.bob_addr)]
    /\ ~ In "notes.txt" (dict_keys (published_files s2)).
Proof.
  destruct registry_has_no_empty_entry as [_ H].
  apply (H Examples.shared Examples.bob_addr Examples.bob "notes.txt").
  - reflexivity.
  - intros f pubs Hin. simpl in Hin.
    destruct Hin as [[= <- <-]|[[= <- <-]|[]]];
      repeat (constructor; [simpl; intuition discriminate|]); constructor.
  - intros v Hv. vm_compute in Hv. discriminate Hv.
Defined.

(** C6 as stated fails for a file that has another publisher: Bob
    publishes [report.pdf], which Alice publishes already, and unpublishes
    it at once; the file is still registered, for Alice. *)
Lemma publish_then_unpublish_keeps_other_publishers :
  exists s1 s2,
    handle_publish_file Examples.bob_addr "pub report.pdf" Examples.shared
    = Returned s1 [(RESP_FILE_PUBLISHED, Examples.bob_addr)]
    /\ handle_unpublish_file Examples.bob_addr "unp report.pdf" s1
       = Returned s2 [(RESP_FILE_UNPUBLISHED, Examples.bob_addr)]
    /\ In "report.pdf" (dict_keys (published_files s2))
    /\ files_get "report.pdf" (published_files s2) = Some ["alice"].
Proof.
  eexists. eexists. split; [reflexivity|]. split; [reflexivity|].
  split; [simpl; tauto | reflexivity].
Qed.

(* ================================================================== *)
(** * Words, splitting and stripping *)

Section TextFacts.

Implicit Types (s w a rest : string) (c : ascii).

Lemma str_app_assoc s1 s2 s3 : (s1 ++ s2) ++ s3 = s1 ++ (s2 ++ s3).
Proof. induction s1 as [|c s1 IH]; simpl; congruence. Qed.

Lemma str_app_nil_r s : s ++ EmptyString = s.
Proof. induction s as [|c s IH]; simpl; congruence. Qed.

Lemma no_space_app s1 s2 :
  PyText.no_space (s1 ++ s2) = PyText.no_space s1 && PyText.no_space s2.
Proof.
  induction s1 as [|c s1 IH]; simpl; trivial.
  rewrite IH. now rewrite andb_assoc.
Qed.

Lemma is_word_no_space w : PyText.is_word w = true -> PyText.no_space w = true.
Proof. unfold PyText.is_word. now intros [_ H]%andb_true_iff. Qed.

Lemma is_word_cons c w :
  PyText.is_word (String c w) = true
  <-> PyStr.is_space c = false /\ PyText.no_space w = true.
Proof.
  unfold PyText.is_word. simpl.
  rewrite andb_true_iff, negb_true_iff. tauto.
Qed.

Lemma is_word_snoc w c :
  PyText.no_space w = true -> PyStr.is_space c = false ->
  PyText.is_word (w ++ String c EmptyString) = true.
Proof.
  intros Hw Hc. unfold PyText.is_word. rewrite no_space_app, Hw. simpl.
  rewrite Hc. destruct w; reflexivity.
Qed.

(** Every piece [str.split()] returns is a word. *)
Lemma split_from_words s :
  forall cur,
    (forall w, cur = Some w -> PyText.is_word w = true) ->
    Forall (fun w => PyText.is_word w = true) (PyStr.split_from cur s).
Proof.
  induction s as [|c s IH]; intros cur Hcur; simpl.
  - destruct cur as [w|]; [|constructor].
    constructor; [now apply Hcur | constructor].
  - destruct (PyStr.is_space c) eqn:Ec.
    + destruct cur as [w|].
      * constructor; [now apply Hcur|]. apply IH. discriminate.
      * apply IH. discriminate.
    + destruct cur as [w|]; apply IH; intros w' [= <-].
      * apply is_word_snoc; trivial. apply is_word_no_space. now apply Hcur.
      * apply is_word_cons. auto.
Qed.

Lemma split_words s :
  Forall (fun w => PyText.is_word w = true) (PyStr.split s).
Proof. apply split_from_words. discriminate. Qed.

Lemma split_from_some_app w :
  forall a rest,
    PyText.no_space w = true ->
    PyStr.split_from (Some a) (w ++ rest)
    = PyStr.split_from (Some (a ++ w)) rest.
Proof.
  induction w as [|c w IH]; intros a rest Hw; simpl.
  - now rewrite str_app_nil_r.
  - simpl in Hw. apply andb_true_iff in Hw. destruct Hw as [Hc Hw].
    apply negb_true_iff in Hc. rewrite Hc.
    rewrite IH by assumption. now rewrite str_app_assoc.
Qed.

Lemma split_from_none_app w rest :
  PyText.is_word w = true ->
  PyStr.split_from None (w ++ rest) = PyStr.split_from (Some w) rest.
Proof.
  destruct w as [|c w]; [discriminate|].
  intros [Hc Hw]%is_word_cons. simpl. rewrite Hc.
  now rewrite split_from_some_app.
Qed.

Lemma split_word_then_space w rest :
  PyText.is_word w = true ->
  PyStr.split (w ++ " " ++ rest) = w :: PyStr.split rest.
Proof.
  intros Hw. unfold PyStr.split. now rewrite split_from_none_app.
Qed.

Lemma split_word w : PyText.is_word w = true -> PyStr.split w = [w].
Proof.
  intros Hw. unfold PyStr.split.
  rewrite <- (str_app_nil_r w) at 1. now rewrite split_from_none_app.
Qed.

(** Three words joined by single spaces split back into the three. *)
Lemma split_three w1 w2 w3 :
  PyText.is_word w1 = true -> PyText.is_word w2 = true ->
  PyText.is_word w3 = true ->
  PyStr.split (w1 ++ " " ++ w2 ++ " " ++ w3) = [w1; w2; w3].
Proof.
  intros H1 H2 H3.
  rewrite split_word_then_space by assumption.
  rewrite split_word_then_space by assumption.
  now rewrite split_word.
Qed.

Lemma rstrip_no_space w : PyText.no_space w = true -> PyStr.rstrip w = w.
Proof.
  induction w as [|c w IH]; simpl; trivial.
  intros [Hc Hw]%andb_true_iff. apply negb_true_iff in Hc.
  rewrite Hc, IH by assumption. reflexivity.
Qed.

Lemma rstrip_app_word a w :
  PyText.is_word w = true -> PyStr.rstrip (a ++ w) = a ++ w.
Proof.
  intros Hw. induction a as [|c a IH]; simpl.
  - apply rstrip_no_space. now apply is_word_no_space.
  - rewrite IH. destruct (a ++ w) eqn:E; [|now rewrite andb_false_r].
    destruct a, w; discriminate.
Qed.

(** What [rstrip] returns does not end with whitespace. *)
Lemma rstrip_no_trailing_space s :
  forall a c, PyStr.is_space c = true ->
              PyStr.rstrip s <> a ++ String c EmptyString.
Proof.
  induction s as [|x s IH]; intros a c Hc; simpl.
  - destruct a; discriminate.
  - destruct (PyStr.is_space x && PyStr.is_empty (PyStr.rstrip s)) eqn:E.
    + destruct a; discriminate.
    + destruct a as [|y a]; simpl.
      * intros [= -> Hr]. rewrite Hr, Hc in E. discriminate.
      * intros [= -> Hr]. exact (IH a c Hc Hr).
Qed.

(** What [lstrip] returns does not start with whitespace. *)
Lemma lstrip_head s c r :
  PyStr.lstrip s = String c r -> PyStr.is_space c = false.
Proof.
  induction s as [|x s IH]; simpl; [discriminate|].
  destruct (PyStr.is_space x) eqn:E; [exact IH|].
  now intros [= <- _].
Qed.

Lemma rstrip_head s c r :
  PyStr.rstrip s = String c r -> exists r', s = String c r'.
Proof.
  destruct s as [|x s]; simpl; [discriminate|].
  destruct (PyStr.is_space x && PyStr.is_empty (PyStr.rstrip s));
    [discriminate|].
  intros [= <- _]. eauto.
Qed.

Lemma strip_head s c r :
  PyStr.strip s = String c r -> PyStr.is_space c = false.
Proof.
  unfold PyStr.strip. intros H.
  destruct (rstrip_head _ _ _ H) as [r' Hr']. exact (lstrip_head _ _ _ Hr').
Qed.

Lemma lstrip_fixed s :
  (forall c r, s = String c r -> PyStr.is_space c = false) ->
  PyStr.lstrip s = s.
Proof.
  destruct s as [|c r]; trivial. intros H. simpl.
  now rewrite (H c r eq_refl).
Qed.

Lemma rstrip_idempotent s : PyStr.rstrip (PyStr.rstrip s) = PyStr.rstrip s.
Proof.
  induction s as [|c s IH]; simpl; trivial.
  destruct (PyStr.is_space c && PyStr.is_empty (PyStr.rstrip s)) eqn:E;
    trivial.
  simpl. now rewrite IH, E.
Qed.

(** Stripping twice is stripping once: what the client has stripped, the
    server receives as it is. *)
Lemma strip_idempotent s : PyStr.strip (PyStr.strip s) = PyStr.strip s.
Proof.
  unfold PyStr.strip at 1.
  rewrite (lstrip_fixed (PyStr.strip s)).
  - apply rstrip_idempotent.
  - intros c r H. exact (strip_head _ _ _ H).
Qed.

(** A string that starts with a non-blank character and ends with a word
    is left alone by [strip]. *)
Lemma strip_fixed c a w :
  PyStr.is_space c = false -> PyText.is_word w = true ->
  PyStr.strip (String c (a ++ w)) = String c (a ++ w).
Proof.
  intros Hc Hw. unfold PyStr.strip. simpl PyStr.lstrip. rewrite Hc.
  change (String c (a ++ w)) with (String c a ++ w).
  now apply rstrip_app_word.
Qed.

End TextFacts.

(* ================================================================== *)
(** * Sessions: authentication, heartbeat, endpoint report *)

(** X1. [authenticate_client] always sends exactly one datagram back.  It
    is [OK], with a new session for the sender that carries the username,
    the clock reading and no endpoint, when the message has three words, no
    session has the username and the credential table maps the username to
    the password; in every other case it is [ERR] and the state is
    unchanged. *)
Theorem auth_accepts_exactly_free_valid_credentials
  (s : PeerSyncServer) (now : Q) (client_address : ClientAddress)
  (message : string) :
  let accepted word user password :=
    PyStr.split message = [word; user; password]
    /\ (forall a d, In (a, d) (active_clients s) -> username d <> user)
    /\ dict_get String.eqb user (credentials s) = Some password in
  (forall word user password,
      accepted word user password ->
      authenticate_client now client_address message s
      = Returned
          (with_active_clients
             (dict_set addr_eqb client_address
                (mkClientData user now None) (active_clients s)) s)
          [(MSG_OK, client_address)]
      /\ clients_get client_address
           (dict_set addr_eqb client_address
              (mkClientData user now None) (active_clients s))
         = Some (mkClientData user now None))
  /\ ((exists word user password, accepted word user password)
      \/ authenticate_client now client_address message s
         = Returned s [(MSG_ERROR, client_address)]).
Proof.
  intros accepted. unfold authenticate_client.
  assert (forall user,
             existsb (fun data => String.eqb (username data) user)
               (dict_values (active_clients s)) = false
             <-> forall a d, In (a, d) (active_clients s) ->
                             username d <> user) as Hfree.
  { intros user. split.
    - intros Hex a d Hin Heq.
      assert (existsb (fun data => String.eqb (username data) user)
                (dict_values (active_clients s)) = true) as Ht;
        [|congruence].
      apply existsb_exists. exists d. split; [|now apply String.eqb_eq].
      unfold dict_values. change d with (snd (a, d)). now apply in_map.
    - intros Hall.
      destruct (existsb _ (dict_values (active_clients s))) eqn:Ex; trivial.
      apply existsb_exists in Ex. destruct Ex as [d [Hd Heq]].
      apply String.eqb_eq in Heq. unfold dict_values in Hd.
      apply in_map_iff in Hd. destruct Hd as [[a d'] [<- Hin]].
      exfalso. exact (Hall a d' Hin Heq). }
  split.
  - intros word user password (Hsplit & Hnone & Hcred).
    rewrite Hsplit. apply Hfree in Hnone. rewrite Hnone, Hcred.
    rewrite String.eqb_refl. split; [reflexivity|].
    apply (get_set_eq addr_eqb addr_eqb_eq).
  - destruct (PyStr.split message) as [|w0 [|user [|password [|w3 ws]]]];
      try (now right).
    destruct (existsb _ (dict_values (active_clients s))) eqn:Ex;
      [now right|].
    destruct (dict_get String.eqb user (credentials s)) as [stored|] eqn:G;
      [|now right].
    destruct (String.eqb stored password) eqn:Ep; [|now right].
    apply String.eqb_eq in Ep. subst stored.
    left. exists w0, user, password. split; [reflexivity|].
    split; [now apply Hfree | assumption].
Qed.

Lemma auth_accepts_exactly_free_valid_credentials_witness :
  authenticate_client 6%Q Examples.carol_addr "auth carol pw" Examples.shared
  = Returned
      (with_active_clients
         (dict_set addr_eqb Examples.carol_addr
            (mkClientData "carol" 6%Q None)
            (active_clients Examples.shared)) Examples.shared)
      [(MSG_OK, Examples.carol_addr)].
Proof.
  destruct (auth_accepts_exactly_free_valid_credentials Examples.shared 6%Q
              Examples.carol_addr "auth carol pw") as [Hok _].
  apply (Hok "auth" "carol" "pw"). split; [reflexivity|]. split.
  - intros a d Hin. simpl in Hin.
    destruct Hin as [[= <- <-]|[[= <- <-]|[]]]; discriminate.
  - reflexivity.
Defined.

(** X2. A heartbeat from an address with a session sets the session's
    clock reading, keeps its username and endpoint, leaves every other
    session and the registry alone and sends nothing; the session then
    survives every sweep made within the timeout of that heartbeat, however
    stale it was before.  From an address with no session the heartbeat
    does nothing at all. *)
Theorem heartbeat_refreshes_the_session
  (s : PeerSyncServer) (now : Q) (client_address : ClientAddress) :
  (clients_get client_address (active_clients s) = None ->
   process_heartbeat now client_address s = Returned s [])
  /\ (forall d,
        dict_wf (active_clients s) ->
        clients_get client_address (active_clients s) = Some d ->
        let d' := mkClientData (username d) now (tcp_address d) in
        exists s',
          process_heartbeat now client_address s = Returned s' []
          /\ clients_get client_address (active_clients s') = Some d'
          /\ (forall other, other <> client_address ->
                clients_get other (active_clients s')
                = clients_get other (active_clients s))
          /\ published_files s' = published_files s
          /\ forall times,
               (forall t, In t times -> (t - now <= HEARTBEAT_TIMEOUT)%Q) ->
               exists s'',
                 sweep_many times s' = Returned s'' []
                 /\ clients_get client_address (active_clients s'')
                    = Some d').
Proof.
  unfold process_heartbeat. split.
  - intros ->. reflexivity.
  - intros d Hwf Hget. rewrite Hget.
    set (d' := mkClientData (username d) now (tcp_address d)).
    eexists. split; [reflexivity|]. simpl.
    assert (clients_get client_address
              (dict_set addr_eqb client_address d' (active_clients s))
            = Some d') as Hnew
      by apply (get_set_eq addr_eqb addr_eqb_eq).
    split; [exact Hnew|]. split; [|split; [reflexivity|]].
    + intros other Hne. now apply (get_set_ne addr_eqb addr_eqb_eq).
    + intros times Hle.
      destruct (sweep_many_keeps times
                  (with_active_clients
                     (dict_set addr_eqb client_address d' (active_clients s))
                     s) client_address d') as (s'' & E & _ & G); trivial.
      * simpl. now apply (set_wf addr_eqb addr_eqb_eq).
      * intros t Ht. apply is_inactive_keep. exact (Hle t Ht).
      * eauto.
Qed.

Lemma heartbeat_refreshes_the_session_witness :
  exists s',
    process_heartbeat 10%Q Examples.alice_addr Examples.shared
    = Returned s' []
    /\ exists s'',
         sweep_many [11%Q; 12%Q; 13%Q] s' = Returned s'' []
         /\ clients_get Examples.alice_addr (active_clients s'')
            = Some (mkClientData "alice" 10%Q (Some ("127.0.0.1", "9001"))).
Proof.
  destruct (heartbeat_refreshes_the_session Examples.shared 10%Q
              Examples.alice_addr) as [_ H].
  destruct (H Examples.alice ltac:(dict_wf_by_computation) eq_refl)
    as (s' & E & _ & _ & _ & Hsweeps).
  exists s'. split; [exact E|].
  apply Hsweeps. intros t Ht. simpl in Ht.
  destruct Ht as [<-|[<-|[<-|[]]]]; vm_compute; discriminate.
Defined.

(** X3. An endpoint report never gets a reply.  With three words and a
    session for the sender it stores the second and third word as the
    session's endpoint and keeps username and clock reading; with another
    number of words, or with no session, it changes nothing. *)
Theorem endpoint_report_stores_host_and_port
  (s : PeerSyncServer) (client_address : ClientAddress) (message : string) :
  sent_of (process_tcp_address client_address message s) = []
  /\ (forall word host port d,
        PyStr.split message = [word; host; port] ->
        clients_get client_address (active_clients s) = Some d ->
        process_tcp_address client_address message s
        = Returned
            (with_active_clients
               (dict_set addr_eqb client_address
                  (mkClientData (username d) (last_heartbeat d)
                     (Some (host, port)))
                  (active_clients s)) s) [])
  /\ (List.length (PyStr.split message) <> 3%nat
      \/ clients_get client_address (active_clients s) = None ->
      process_tcp_address client_address message s = Returned s []).
Proof.
  unfold process_tcp_address. split; [|split].
  - destruct (PyStr.split message) as [|w0 [|w1 [|w2 [|w3 ws]]]]; trivial.
    destruct (clients_get client_address (active_clients s)); trivial.
  - intros word host port d -> ->. reflexivity.
  - intros [Hlen|Hnone].
    + destruct (PyStr.split message) as [|w0 [|w1 [|w2 [|w3 ws]]]]; trivial.
      simpl in Hlen. congruence.
    + rewrite Hnone.
      destruct (PyStr.split message) as [|w0 [|w1 [|w2 [|w3 ws]]]]; trivial.
Qed.

Lemma endpoint_report_stores_host_and_port_witness :
  process_tcp_address Examples.bob_addr "TCP 127.0.0.1 9002" Examples.shared
  = Returned
      (with_active_clients
         (dict_set addr_eqb Examples.bob_addr
            (mkClientData "bob" 5%Q (Some ("127.0.0.1", "9002")))
            (active_clients Examples.shared)) Examples.shared) []
  /\ process_tcp_address Examples.bob_addr "TCP 9002" Examples.shared
     = Returned Examples.shared [].
Proof.
  destruct (endpoint_report_stores_host_and_port Examples.shared
              Examples.bob_addr "TCP 127.0.0.1 9002") as (_ & Hok & _).
  destruct (endpoint_report_stores_host_and_port Examples.shared
              Examples.bob_addr "TCP 9002") as (_ & _ & Hbad).
  split.
  - apply (Hok "TCP" "127.0.0.1" "9002" Examples.bob); reflexivity.
  - apply Hbad. left. vm_compute. discriminate.
Defined.

(* ================================================================== *)
(** * Who can change what *)

(** X4. From an address with no session, only an [AUTH] request can change
    the server state, and only an [AUTH] request or an unknown command gets
    a datagram back: a heartbeat, an endpoint report, a publish, unpublish,
    search, listing or get request from such an address leaves the state
    as it is and is not answered. *)
Theorem without_session_only_auth_has_an_effect
  (s : PeerSyncServer) (now : Q) (client_address : ClientAddress)
  (message : string) :
  clients_get client_address (active_clients s) = None ->
  route message <> AUTH ->
  state_of (dispatch now message client_address s) = s
  /\ (route message <> UNKNOWN ->
      sent_of (dispatch now message client_address s) = []).
Proof.
  intros Hnone Hauth. unfold dispatch.
  destruct (route message); try congruence;
    unfold process_heartbeat, handle_publish_file, handle_unpublish_file,
      process_tcp_address, handle_list_active_peers,
      handle_list_published_files, handle_search_files, handle_get_request;
    rewrite ?Hnone; simpl; auto.
  - destruct (PyStr.split message) as [|w0 [|w1 [|w2 [|w3 ws]]]]; auto.
  - split; [reflexivity | congruence].
Qed.

Lemma without_session_only_auth_has_an_effect_witness :
  state_of (dispatch 6%Q "pub notes.txt" Examples.carol_addr Examples.shared)
  = Examples.shared
  /\ sent_of (dispatch 6%Q "pub notes.txt" Examples.carol_addr
                Examples.shared) = [].
Proof.
  destruct (without_session_only_auth_has_an_effect Examples.shared 6%Q
              Examples.carol_addr "pub notes.txt" eq_refl) as [H1 H2].
  - discriminate.
  - split; [exact H1|]. apply H2. discriminate.
Defined.

(** X5. No datagram changes the credential table.  Only a datagram routed
    to PUBLISH or UNPUBLISH can change the Publication Registry, and only
    one routed to AUTH, HEARTBEAT or REPORT_DATA_ENDPOINT can change the
    Session Directory; the listing, search and get handlers and the reply
    to an unknown command leave the whole state as it was, the get handler
    even when it raises. *)
Theorem each_command_changes_only_its_table
  (s : PeerSyncServer) (now : Q) (client_address : ClientAddress)
  (message : string) :
  let s' := state_of (dispatch now message client_address s) in
  credentials s' = credentials s
  /\ (published_files s' <> published_files s ->
      route message = PUBLISH \/ route message = UNPUBLISH)
  /\ (active_clients s' <> active_clients s ->
      route message = AUTH \/ route message = HEARTBEAT
      \/ route message = REPORT_DATA_ENDPOINT)
  /\ (route message = LIST_PEERS \/ route message = LIST_FILES
      \/ route message = SEARCH \/ route message = GET
      \/ route message = UNKNOWN -> s' = s).
Proof.
  assert (state_of (handle_get_request client_address message s) = s)
    as Hget.
  { unfold handle_get_request.
    destruct (clients_get client_address (active_clients s)) as [d|];
      [|reflexivity].
    destruct (files_get _ (published_files s)) as [pubs|]; [|reflexivity].
    destruct (resolve_publishers_frame (username d) client_address pubs s)
      as [reply ->]. reflexivity. }
  unfold dispatch.
  destruct (route message) eqn:R; simpl;
    unfold process_heartbeat, handle_publish_file, handle_unpublish_file,
      process_tcp_address, handle_list_active_peers,
      handle_list_published_files, handle_search_files,
      authenticate_client;
    rewrite ?Hget;
    repeat match goal with
      | |- context [match clients_get ?a ?c with _ => _ end] =>
          destruct (clients_get a c)
      | |- context [match files_get ?f ?c with _ => _ end] =>
          destruct (files_get f c)
      | |- context [match PyStr.split ?m with _ => _ end] =>
          destruct (PyStr.split m) as [|? [|? [|? [|? ?]]]]
      | |- context [match dict_get String.eqb ?u (credentials ?c) with
                    | _ => _ end] =>
          destruct (dict_get String.eqb u (credentials c))
      | |- context [if ?b then _ else _] =>
          match type of b with bool => destruct b end
      end;
    simpl; repeat split; intros; auto 6; try congruence;
    try (intuition discriminate).
Qed.

Lemma each_command_changes_only_its_table_witness :
  state_of (dispatch 6%Q "sch doc" Examples.bob_addr Examples.shared)
  = Examples.shared.
Proof.
  destruct (each_command_changes_only_its_table Examples.shared 6%Q
              Examples.bob_addr "sch doc") as (_ & _ & _ & H).
  apply H. right. right. left. reflexivity.
Defined.

(* ================================================================== *)
(** * What the reachable states look like *)

Lemma split_three_words (message w0 w1 w2 : string) :
  PyStr.split message = [w0; w1; w2] ->
  PyText.is_word w1 = true /\ PyText.is_word w2 = true.
Proof.
  intros E. pose proof (split_words message) as H. rewrite E in H.
  inversion H as [|? ? _ H1]; subst. inversion H1 as [|? ? Hw1 H2]; subst.
  inversion H2 as [|? ? Hw2 _]; subst. auto.
Qed.

Lemma stores_words_clients_set (s : PeerSyncServer) (a : ClientAddress)
  (d : ClientData) :
  stores_words s ->
  PyText.is_word (username d) = true ->
  (forall host port, tcp_address d = Some (host, port) ->
                     PyText.is_word host = true
                     /\ PyText.is_word port = true) ->
  stores_words
    (with_active_clients (dict_set addr_eqb a d (active_clients s)) s).
Proof.
  intros [Hc Hf] Hu Ht. split; [|exact Hf].
  intros a' d' Hin. simpl in Hin. apply In_set in Hin.
  destruct Hin as [[= -> ->]|Hin]; [auto | now apply (Hc a')].
Qed.

Lemma dispatch_stores_words (now : Q) (message : string) (a : ClientAddress)
  (s : PeerSyncServer) :
  stores_words s -> stores_words (state_of (dispatch now message a s)).
Proof.
  intros Hs. pose proof Hs as [Hc Hf]. unfold dispatch.
  destruct (route message).
  - unfold process_heartbeat.
    destruct (clients_get a (active_clients s)) as [d|] eqn:G; trivial.
    apply (get_In addr_eqb addr_eqb_eq) in G. destruct (Hc a d G).
    now apply stores_words_clients_set.
  - unfold handle_publish_file.
    destruct (clients_get a (active_clients s)) as [d|] eqn:G; trivial.
    apply (get_In addr_eqb addr_eqb_eq) in G. destruct (Hc a d G) as [Hu _].
    split; [exact Hc|]. simpl. intros f pubs u Hin Hu'.
    unfold publish in Hin.
    destruct (files_get _ (published_files s)) as [old|] eqn:F.
    + destruct (PyStr.mem (username d) old); [now apply (Hf f pubs)|].
      apply In_set in Hin. destruct Hin as [[= -> ->]|Hin];
        [|now apply (Hf f pubs)].
      apply in_app_or in Hu'. destruct Hu' as [Hu'|[<-|[]]]; trivial.
      apply (get_In String.eqb str_eqb_eq) in F. eapply Hf; eauto.
    + apply In_set in Hin. destruct Hin as [[= -> ->]|Hin];
        [|now apply (Hf f pubs)].
      destruct Hu' as [<-|[]]. exact Hu.
  - unfold handle_unpublish_file.
    destruct (clients_get a (active_clients s)) as [d|]; trivial.
    destruct (files_get _ (published_files s)) as [old|] eqn:F; trivial.
    destruct (PyStr.mem (username d) old); trivial.
    split; [exact Hc|]. simpl. intros f pubs u Hin Hu'.
    assert (In (f, pubs)
              (dict_set String.eqb (snd (parse_command message))
                 (PyStr.remove_first (username d) old) (published_files s)))
      as Hin'.
    { unfold unpublish in Hin.
      destruct (PyStr.remove_first (username d) old); trivial.
      now apply (In_del String.eqb str_eqb_eq) in Hin. }
    apply In_set in Hin'. destruct Hin' as [[= -> ->]|Hin'];
      [|now apply (Hf f pubs)].
    apply remove_first_In in Hu'.
    apply (get_In String.eqb str_eqb_eq) in F. eapply Hf; eauto.
  - unfold process_tcp_address.
    destruct (PyStr.split message) as [|w0 [|w1 [|w2 [|w3 ws]]]] eqn:E;
      trivial.
    destruct (clients_get a (active_clients s)) as [d|] eqn:G; trivial.
    apply (get_In addr_eqb addr_eqb_eq) in G. destruct (Hc a d G) as [Hu _].
    apply stores_words_clients_set; trivial.
    simpl. intros host port [= <- <-]. exact (split_three_words _ _ _ _ E).
  - unfold handle_list_active_peers.
    destruct (clients_get a (active_clients s)); trivial.
  - unfold handle_list_published_files.
    destruct (clients_get a (active_clients s)); trivial.
  - unfold handle_search_files.
    destruct (clients_get a (active_clients s)); trivial.
  - unfold handle_get_request.
    destruct (clients_get a (active_clients s)) as [d|]; trivial.
    destruct (files_get _ (published_files s)) as [pubs|]; trivial.
    destruct (resolve_publishers_frame (username d) a pubs s) as [r ->].
    trivial.
  - unfold authenticate_client.
    destruct (PyStr.split message) as [|w0 [|user [|password [|w3 ws]]]]
      eqn:E; trivial.
    destruct (existsb _ (dict_values (active_clients s))); trivial.
    destruct (dict_get String.eqb user (credentials s)) as [stored|]; trivial.
    destruct (String.eqb stored password); trivial.
    apply stores_words_clients_set; trivial.
    + simpl. exact (proj1 (split_three_words _ _ _ _ E)).
    + simpl. discriminate.
  - trivial.
Qed.

Lemma run_iteration_reachable (sweep_time now : Q) (i : inbound)
  (s : PeerSyncServer) :
  server_inv s -> stores_words s ->
  exists s' sent,
    run_iteration sweep_time now i s = Returned s' sent
    /\ server_inv s' /\ stores_words s'
    /\ credentials s' = credentials s.
Proof.
  intros Hinv Hw. pose proof Hinv as (Hwf & Hu & Hne & Hnd).
  rewrite run_iteration_returns by assumption.
  eexists. eexists. split; [reflexivity|].
  set (swept := with_active_clients _ s).
  assert (server_inv swept) as Hinv'.
  { repeat split; simpl; trivial.
    - now apply NoDup_keys_filter.
    - now apply unique_usernames_filter. }
  assert (stores_words swept) as Hw'.
  { destruct Hw as [Hc Hf]. split; [|exact Hf].
    intros a d Hin. simpl in Hin. apply filter_In in Hin.
    apply (Hc a d). tauto. }
  unfold receive_and_dispatch. destruct (payload i) as [raw|]; [|auto].
  split; [now apply dispatch_inv|]. split; [now apply dispatch_stores_words|].
  now destruct (dispatch_frame now (PyStr.strip raw) (sender i) swept)
    as (_ & -> & _).
Qed.

(** X6. Started with no session and nothing published, the loop never
    stops on an exception, whatever datagrams arrive and whenever; and in
    every state it reaches, session addresses are distinct, no two sessions
    have the same username, no registry entry is empty or names a username
    twice, every stored username, host and port is a whitespace-free,
    non-empty word, and the credential table is the one loaded at start. *)
Theorem loop_keeps_the_server_consistent
  (table : dict string string) (turns : list (Q * Q * inbound)) :
  exists s sent,
    run turns (mkServer [] [] table) = Returned s sent
    /\ dict_wf (active_clients s)
    /\ unique_usernames (active_clients s)
    /\ no_empty_entry (published_files s)
    /\ publishers_nodup (published_files s)
    /\ stores_words s
    /\ credentials s = table.
Proof.
  assert (forall ts s0,
             server_inv s0 -> stores_words s0 ->
             exists s sent,
               run ts s0 = Returned s sent
               /\ server_inv s /\ stores_words s
               /\ credentials s = credentials s0) as Hrun.
  { induction ts as [|[[sweep_time now] i] rest IH]; intros s0 Hinv Hw.
    - exists s0, []. auto.
    - destruct (run_iteration_reachable sweep_time now i s0 Hinv Hw)
        as (s1 & m1 & E1 & Hinv1 & Hw1 & Hc1).
      destruct (IH s1 Hinv1 Hw1) as (s & m & E & Hinv' & Hw' & Hc').
      simpl. rewrite E1, and_then_returned, E.
      exists s, (m1 ++ m)%list.
      split; [reflexivity|]. split; [exact Hinv'|]. split; [exact Hw'|].
      congruence. }
  destruct (Hrun turns (mkServer [] [] table) (fresh_server_inv table))
    as (s & sent & E & (H1 & H2 & H3 & H4) & Hw & Hc).
  { split; simpl; intros; contradiction. }
  exists s, sent. simpl in Hc. auto 10.
Qed.

(* ================================================================== *)
(** * Replies as the client reads them *)

Lemma split_comma_space_step (c c' : ascii) (r : string) :
  PyText.split_comma_space (String c (String c' r))
  = if Ascii.eqb c "," && Ascii.eqb c' " "
    then EmptyString :: PyText.split_comma_space r
    else match PyText.split_comma_space (String c' r) with
         | h :: t => String c h :: t
         | [] => [String c EmptyString]
         end.
Proof. reflexivity. Qed.

Lemma not_space_neq_blank (c : ascii) :
  PyStr.is_space c = false -> Ascii.eqb c " " = false.
Proof.
  intros H. destruct (Ascii.eqb c " ") eqn:E; trivial.
  apply Ascii.eqb_eq in E. subst c. discriminate H.
Qed.

Lemma split_comma_space_word_sep (w rest : string) :
  PyText.no_space w = true ->
  PyText.split_comma_space (w ++ ", " ++ rest)
  = w :: PyText.split_comma_space rest.
Proof.
  induction w as [|c w IH]; intros Hw; [reflexivity|].
  simpl in Hw. apply andb_true_iff in Hw. destruct Hw as [Hc Hw].
  apply negb_true_iff in Hc. specialize (IH Hw).
  destruct w as [|x w].
  - change (String c "" ++ ", " ++ rest)
      with (String c (String "," (String " " rest))).
    rewrite split_comma_space_step.
    change (Ascii.eqb "," " ") with false. rewrite andb_false_r.
    change (String "," (String " " rest)) with ("" ++ ", " ++ rest).
    now rewrite IH.
  - change (String c (String x w) ++ ", " ++ rest)
      with (String c (String x (w ++ ", " ++ rest))).
    rewrite split_comma_space_step.
    simpl in Hw. apply andb_true_iff in Hw. destruct Hw as [Hx _].
    apply negb_true_iff in Hx. rewrite (not_space_neq_blank _ Hx).
    rewrite andb_false_r.
    change (String x (w ++ ", " ++ rest))
      with (String x w ++ ", " ++ rest).
    now rewrite IH.
Qed.

Lemma split_comma_space_word (w : string) :
  PyText.no_space w = true -> PyText.split_comma_space w = [w].
Proof.
  induction w as [|c w IH]; intros Hw; [reflexivity|].
  simpl in Hw. apply andb_true_iff in Hw. destruct Hw as [_ Hw].
  specialize (IH Hw). destruct w as [|x w]; [reflexivity|].
  rewrite split_comma_space_step.
  simpl in Hw. apply andb_true_iff in Hw. destruct Hw as [Hx _].
  apply negb_true_iff in Hx. rewrite (not_space_neq_blank _ Hx).
  rewrite andb_false_r. now rewrite IH.
Qed.

(** Joining words with ', ' and cutting at ', ' gives the words back. *)
Lemma split_comma_space_join (ws : list string) :
  Forall (fun w => PyText.no_space w = true) ws -> ws <> [] ->
  PyText.split_comma_space (PyStr.join ", " ws) = ws.
Proof.
  induction 1 as [|w ws Hw Hws IH]; intros Hne; [congruence|].
  destruct ws as [|w' ws].
  - simpl. now apply split_comma_space_word.
  - change (PyStr.join ", " (w :: w' :: ws))
      with (w ++ ", " ++ PyStr.join ", " (w' :: ws)).
    rewrite split_comma_space_word_sep by assumption.
    rewrite IH; [reflexivity | discriminate].
Qed.

(** X7. For a requester with a session, the peer listing names exactly the
    usernames of the sessions at other addresses, in directory order; the
    requester's own username is not among them when usernames are unique.
    The reply is 'No active peers' when there is none, else the names
    joined by ', ', and the state is unchanged.  When the stored usernames
    are words and the reply fits the client's receive buffer of
    [BUFFER_SIZE] bytes, the client's [split(", ")] of what it received
    recovers exactly those names, so the number of peers it announces is
    the number of other sessions. *)
Theorem peer_listing_names_the_other_sessions
  (s : PeerSyncServer) (client_address : ClientAddress)
  (requester : ClientData) :
  clients_get client_address (active_clients s) = Some requester ->
  exists peers,
    (forall u, In u peers
               <-> exists b d, In (b, d) (active_clients s)
                               /\ b <> client_address /\ username d = u)
    /\ (unique_usernames (active_clients s) ->
        ~ In (username requester) peers)
    /\ (peers = [] ->
        handle_list_active_peers client_address s
        = Returned s [(RESP_NO_ACTIVE_PEERS, client_address)])
    /\ (peers <> [] ->
        handle_list_active_peers client_address s
        = Returned s [(PyStr.join ", " peers, client_address)])
    /\ (stores_words s -> peers <> [] ->
        (Wire.utf8_length (PyStr.join ", " peers) <= BUFFER_SIZE)%nat ->
        Client.read_peer_list (PyStr.join ", " peers)
        = Client.Peers peers).
Proof.
  intros Hreq. unfold handle_list_active_peers. rewrite Hreq.
  set (peers :=
         map (fun ad : ClientAddress * ClientData => username (snd ad))
           (filter (fun ad => negb (addr_eqb (fst ad) client_address))
              (active_clients s))).
  assert (forall u, In u peers
                    <-> exists b d, In (b, d) (active_clients s)
                                    /\ b <> client_address
                                    /\ username d = u) as Hchar.
  { intros u. unfold peers. rewrite in_map_iff. split.
    - intros [[b d] [Hu Hin]]. apply filter_In in Hin.
      destruct Hin as [Hin Hne]. simpl in *.
      apply negb_true_iff in Hne. exists b, d. repeat split; trivial.
      intros ->. rewrite (proj2 (addr_eqb_eq _ _) eq_refl) in Hne.
      discriminate.
    - intros (b & d & Hin & Hne & Hu). exists (b, d). split; trivial.
      apply filter_In. split; trivial. simpl. apply negb_true_iff.
      destruct (addr_eqb b client_address) eqn:E; trivial.
      apply addr_eqb_eq in E. contradiction. }
  exists peers. split; [exact Hchar|]. split; [|split; [|split]].
  - intros Huniq Hin. apply Hchar in Hin.
    destruct Hin as (b & d & Hin & Hne & Hu).
    apply (get_In addr_eqb addr_eqb_eq) in Hreq.
    apply Hne. now apply (Huniq b d client_address requester).
  - intros ->. reflexivity.
  - destruct peers; [congruence | reflexivity].
  - intros [Hc _] Hne Hfit.
    assert (Forall (fun w => PyText.is_word w = true) peers) as Hwords.
    { apply Forall_forall. intros u Hu. apply Hchar in Hu.
      destruct Hu as (b & d & Hin & _ & <-). now apply (Hc b d). }
    assert (PyText.split_comma_space (PyStr.join ", " peers) = peers)
      as Hsplit.
    { apply split_comma_space_join; trivial.
      eapply Forall_impl; [|exact Hwords].
      intros w. apply is_word_no_space. }
    unfold Client.read_peer_list. rewrite recv_decode_whole by exact Hfit.
    destruct (String.eqb (PyStr.join ", " peers) RESP_NO_ACTIVE_PEERS)
      eqn:E; [|now rewrite Hsplit].
    apply String.eqb_eq in E. rewrite E in Hsplit.
    rewrite <- Hsplit in Hwords. inversion Hwords as [|? ? Hw _].
    discriminate Hw.
Qed.

Lemma peer_listing_names_the_other_sessions_witness :
  exists peers,
    In "alice" peers /\ ~ In "bob" peers
    /\ handle_list_active_peers Examples.bob_addr Examples.shared
       = Returned Examples.shared
           [(PyStr.join ", " peers, Examples.bob_addr)]
    /\ (Wire.utf8_length (PyStr.join ", " peers) <= BUFFER_SIZE)%nat
    /\ Client.read_peer_list (PyStr.join ", " peers) = Client.Peers peers.
Proof.
  destruct (peer_listing_names_the_other_sessions Examples.shared
              Examples.bob_addr Examples.bob eq_refl)
    as (peers & Hchar & Hself & _ & Hsome & Hread).
  assert (In "alice" peers) as Hin.
  { apply Hchar. exists Examples.alice_addr, Examples.alice.
    split; [simpl; tauto|]. split; [discriminate | reflexivity]. }
  assert (peers <> []) as Hne by (intros ->; exact Hin).
  assert (PyStr.join ", " peers = "alice") as Hjoin.
  { specialize (Hsome Hne).
    change (handle_list_active_peers Examples.bob_addr Examples.shared)
      with (Returned Examples.shared [("alice", Examples.bob_addr)])
      in Hsome.
    now injection Hsome as <-. }
  assert (Wire.utf8_length (PyStr.join ", " peers) <= BUFFER_SIZE)%nat
    as Hfit by (rewrite Hjoin; apply Nat.leb_le; reflexivity).
  exists peers. split; [exact Hin|]. split; [|split; [|split]].
  - apply Hself. intros a1 d1 a2 d2 H1 H2. simpl in H1, H2.
    destruct H1 as [[= <- <-]|[[= <- <-]|[]]];
      destruct H2 as [[= <- <-]|[[= <- <-]|[]]];
      simpl; intros; congruence.
  - exact (Hsome Hne).
  - exact Hfit.
  - apply Hread; trivial. split.
    + intros a d H. simpl in H.
      destruct H as [[= <- <-]|[[= <- <-]|[]]]; split; try reflexivity;
        intros host port [= <- <-]; split; reflexivity.
    + intros f pubs u H Hu. simpl in H.
      destruct H as [[= <- <-]|[[= <- <-]|[]]]; simpl in Hu;
        intuition (subst; reflexivity).
Defined.

(** What the publisher loop of [GET] can reply: the sentinel, or the name
    and endpoint of a publisher it found a session for. *)
Lemma resolve_reply_cases (u : string) (a : ClientAddress)
  (publishers : list string) (s : PeerSyncServer) :
  exists reply,
    resolve_publishers u a publishers s = Returned s [(reply, a)]
    /\ (reply = RESP_NO_ACTIVE_PEER_HAS_FILE
        \/ exists p pa peer host port,
             In p publishers /\ p <> u
             /\ find_peer_address p (active_clients s) = Some pa
             /\ clients_get pa (active_clients s) = Some peer
             /\ tcp_address peer = Some (host, port)
             /\ reply = p ++ " " ++ host ++ " " ++ port).
Proof.
  induction publishers as [|p rest (reply & E & Hcases)]; simpl.
  - eexists. split; [reflexivity | now left].
  - assert (exists reply0,
               resolve_publishers u a rest s = Returned s [(reply0, a)]
               /\ (reply0 = RESP_NO_ACTIVE_PEER_HAS_FILE
                   \/ exists p0 pa peer host port,
                        (p = p0 \/ In p0 rest) /\ p0 <> u
                        /\ find_peer_address p0 (active_clients s) = Some pa
                        /\ clients_get pa (active_clients s) = Some peer
                        /\ tcp_address peer = Some (host, port)
                        /\ reply0 = p0 ++ " " ++ host ++ " " ++ port))
      as Hrest.
    { exists reply. split; [exact E|].
      destruct Hcases as [->|(p0 & pa & peer & host & port & Hin & H)];
        [now left|].
      right. exists p0, pa, peer, host, port. tauto. }
    destruct (String.eqb p u) eqn:Ep; [exact Hrest|].
    apply String.eqb_neq in Ep.
    destruct (find_peer_address p (active_clients s)) as [pa|] eqn:F;
      [|exact Hrest].
    destruct (find_peer_Some _ _ _ F) as [d [Hin _]].
    destruct (keys_get addr_eqb addr_eqb_eq pa (active_clients s))
      as [peer G].
    { unfold dict_keys. change pa with (fst (pa, d)). now apply in_map. }
    rewrite G. destruct (tcp_address peer) as [[host port]|] eqn:T;
      [|exact Hrest].
    eexists. split; [reflexivity|]. right.
    exists p, pa, peer, host, port. auto 10.
Qed.

(** X8. Every reply to a [GET] from a requester with a session that fits
    the client's receive buffer of [BUFFER_SIZE] bytes can be read by the
    client: it decodes, and it is one of the two sentinels or has exactly
    three words, so the client's three-way unpacking does not fail.
    Whenever the client reads a peer out of such a reply, that peer
    publishes the requested file, is another user than the requester and
    has a session in the directory whose endpoint is the host and port
    given: no address of a peer without a session is handed out.  The
    state is unchanged. *)
Theorem get_reply_is_readable_and_names_a_live_publisher
  (s : PeerSyncServer) (client_address : ClientAddress)
  (requester : ClientData) (message : string) :
  dict_wf (active_clients s) ->
  stores_words s ->
  clients_get client_address (active_clients s) = Some requester ->
  exists reply,
    handle_get_request client_address message s
    = Returned s [(reply, client_address)]
    /\ ((Wire.utf8_length reply <= BUFFER_SIZE)%nat ->
        Client.read_get_reply reply <> Client.Undecodable
        /\ Client.read_get_reply reply <> Client.Unreadable
        /\ forall p host port,
             Client.read_get_reply reply = Client.Peer p host port ->
             p <> username requester
             /\ (exists publishers,
                   files_get (snd (parse_command message))
                     (published_files s)
                   = Some publishers /\ In p publishers)
             /\ exists pa peer,
                  In (pa, peer) (active_clients s)
                  /\ username peer = p
                  /\ tcp_address peer = Some (host, port)).
Proof.
  intros Hwf [Hc Hf] Hreq. unfold handle_get_request. rewrite Hreq.
  destruct (files_get (snd (parse_command message)) (published_files s))
    as [pubs|] eqn:F.
  - destruct (resolve_reply_cases (username requester) client_address pubs s)
      as (reply & -> & Hcases).
    exists reply. split; [reflexivity|].
    destruct Hcases
      as [->|(p & pa & peer & host & port & Hin & Hne & Hfind & Hget
              & Htcp & ->)].
    + intros _. split; [discriminate|]. split; [discriminate|].
      intros p host port H. discriminate H.
    + intros Hfit.
      pose proof (get_In String.eqb str_eqb_eq _ _ _ F) as Hentry.
      pose proof (Hf _ _ p Hentry Hin) as Hp.
      pose proof (get_In addr_eqb addr_eqb_eq _ _ _ Hget) as Hpeer.
      destruct (Hc pa peer Hpeer) as [_ Hendpoint].
      destruct (Hendpoint host port Htcp) as [Hhost Hport].
      assert (username peer = p) as Hname.
      { destruct (find_peer_Some _ _ _ Hfind) as [d [Hd <-]].
        f_equal. eapply wf_functional; eauto. }
      unfold Client.read_get_reply.
      rewrite recv_decode_whole by exact Hfit.
      destruct (String.eqb _ RESP_NO_ACTIVE_PEER_HAS_FILE);
        [split; [discriminate|];
         split; [discriminate | intros ? ? ? H; discriminate H]|].
      destruct (String.eqb _ RESP_FILE_NOT_FOUND);
        [split; [discriminate|];
         split; [discriminate | intros ? ? ? H; discriminate H]|].
      rewrite (split_three p host port Hp Hhost Hport).
      split; [discriminate|]. split; [discriminate|].
      intros p' host' port' [= <- <- <-].
      split; [exact Hne|]. split; [exists pubs; auto|].
      exists pa, peer. auto.
  - eexists. split; [reflexivity|]. intros _.
    split; [discriminate|]. split; [discriminate|].
    intros p host port H. discriminate H.
Qed.

Lemma get_reply_is_readable_and_names_a_live_publisher_witness :
  exists reply,
    handle_get_request Examples.bob_addr "get report.pdf" Examples.shared
    = Returned Examples.shared [(reply, Examples.bob_addr)]
    /\ (Wire.utf8_length reply <= BUFFER_SIZE)%nat
    /\ Client.read_get_reply reply <> Client.Unreadable
    /\ Client.read_get_reply reply = Client.Peer "alice" "127.0.0.1" "9001".
Proof.
  destruct (get_reply_is_readable_and_names_a_live_publisher
              Examples.shared Examples.bob_addr Examples.bob
              "get report.pdf") as (reply & E & Hread).
  - dict_wf_by_computation.
  - split.
    + intros a d Hin. simpl in Hin.
      destruct Hin as [[= <- <-]|[[= <- <-]|[]]]; split; try reflexivity;
        intros host port [= <- <-]; split; reflexivity.
    + intros f pubs u Hin Hu. simpl in Hin.
      destruct Hin as [[= <- <-]|[[= <- <-]|[]]]; simpl in Hu;
        intuition (subst; reflexivity).
  - reflexivity.
  - assert (reply = "alice 127.0.0.1 9001") as Hreply.
    { change (handle_get_request Examples.bob_addr "get report.pdf"
                Examples.shared)
        with (Returned Examples.shared
                [("alice 127.0.0.1 9001", Examples.bob_addr)]) in E.
      now injection E as <-. }
    assert (Wire.utf8_length reply <= BUFFER_SIZE)%nat as Hfit
      by (rewrite Hreply; apply Nat.leb_le; reflexivity).
    exists reply. split; [exact E|]. split; [exact Hfit|].
    split; [exact (proj1 (proj2 (Hread Hfit)))|].
    rewrite Hreply. reflexivity.
Defined.

(** A reply longer than the buffer is cut before it is read: with a
    username of 1100 letters the client unpacks one word, not three. *)
Example get_reply_cut_by_the_buffer :
  Client.read_get_reply (Examples.letters 1100 ++ " 127.0.0.1 9001")
  = Client.Unreadable.
Proof. vm_compute. reflexivity. Qed.

(** The words of a success reply can spell a sentinel: a user called
    'File' whose endpoint is 'not found' is handed out as 'File not found',
    which the client takes for a missing file. *)
Example get_reply_can_spell_a_sentinel :
  let s := mkServer
             [(Examples.alice_addr,
               mkClientData "File" 0%Q (Some ("not", "found")));
              (Examples.bob_addr, Examples.bob)]
             [("notes.txt", ["File"])] Examples.table in
  handle_get_request Examples.bob_addr "get notes.txt" s
  = Returned s [(RESP_FILE_NOT_FOUND, Examples.bob_addr)].
Proof. reflexivity. Qed.

(* ================================================================== *)
(** * [utils.py] *)

Lemma split_space1_cases (s : string) :
  (PyText.has_char " " s = false /\ PyStr.split_space1 s = [s])
  \/ (exists command argument,
        PyText.has_char " " s = true
        /\ PyStr.split_space1 s = [command; argument]
        /\ s = command ++ " " ++ argument
        /\ PyText.has_char " " command = false).
Proof.
  induction s as [|c s IH]; [now left|]. simpl.
  destruct (Ascii.eqb c " ") eqn:E.
  - apply Ascii.eqb_eq in E. subst c. right.
    exists EmptyString, s. auto.
  - destruct IH as [[Hno Hsplit]|(command & argument & Hyes & Hsplit & Hs
                                  & Hc)]; rewrite Hsplit.
    + left. auto.
    + right. exists (String c command), argument.
      split; [exact Hyes|]. split; [reflexivity|].
      split; [simpl; now f_equal|]. simpl. now rewrite E.
Qed.

(** X9. [parse_command] cuts the message at its first space: the command
    word never contains a space; a message without a space is the command
    and the argument is empty; a message with a space is the command, one
    space and the argument, so nothing of the message is lost. *)
Theorem parse_command_cuts_at_the_first_space (message : string) :
  PyText.has_char " " (fst (parse_command message)) = false
  /\ (PyText.has_char " " message = false ->
      parse_command message = (message, EmptyString))
  /\ (PyText.has_char " " message = true ->
      message
      = fst (parse_command message) ++ " " ++ snd (parse_command message)).
Proof.
  unfold parse_command.
  destruct (split_space1_cases message)
    as [[Hno ->]|(command & argument & Hyes & -> & Hs & Hc)]; simpl.
  - repeat split; trivial. congruence.
  - repeat split; trivial. congruence.
Qed.

Lemma parse_command_cuts_at_the_first_space_witness :
  parse_command "lap" = ("lap", EmptyString)
  /\ "get my file.txt"
     = fst (parse_command "get my file.txt") ++ " "
       ++ snd (parse_command "get my file.txt").
Proof.
  destruct (parse_command_cuts_at_the_first_space "lap") as (_ & H1 & _).
  destruct (parse_command_cuts_at_the_first_space "get my file.txt")
    as (_ & _ & H2).
  split; [apply H1 | apply H2]; reflexivity.
Defined.

Lemma contains_char (ch : ascii) (s : string) :
  PyStr.contains (String ch EmptyString) s = PyText.has_char ch s.
Proof.
  induction s as [|c s IH]; [reflexivity|].
  change (PyStr.contains (String ch "") (String c s))
    with (String.prefix (String ch "") (String c s)
          || PyStr.contains (String ch "") s).
  rewrite IH. simpl. rewrite Ascii.eqb_sym.
  destruct (ascii_dec ch c) as [->|Hne].
  - rewrite Ascii.eqb_refl. now destruct s.
  - apply Ascii.eqb_neq in Hne. now rewrite Hne.
Qed.

(** X10. [is_valid_filename] accepts exactly the names that are not empty,
    are not longer than [max_length], and contain no slash, backslash, NUL,
    line feed or carriage return. *)
Theorem valid_filenames_are_short_and_free_of_separators
  (filename : string) (max_length : Z) :
  is_valid_filename filename max_length = true
  <-> filename <> EmptyString
      /\ (Z.of_nat (String.length filename) <= max_length)%Z
      /\ PyText.has_char "/" filename = false
      /\ PyText.has_char (ascii_of_nat 92) filename = false
      /\ PyText.has_char (ascii_of_nat 0) filename = false
      /\ PyText.has_char (ascii_of_nat 10) filename = false
      /\ PyText.has_char (ascii_of_nat 13) filename = false.
Proof.
  unfold is_valid_filename.
  assert (PyStr.is_empty filename = false <-> filename <> EmptyString)
    as Hempty by (destruct filename; simpl; split; congruence).
  destruct (PyStr.is_empty filename) eqn:E; simpl.
  - split; [discriminate|]. intros [H _]. apply Hempty in H. discriminate.
  - destruct (max_length <? Z.of_nat (String.length filename))%Z eqn:L.
    + apply Z.ltb_lt in L. split; [discriminate|]. intros (_ & H & _). lia.
    + apply Z.ltb_ge in L. rewrite !contains_char, orb_false_r.
      rewrite negb_true_iff, !orb_false_iff. split.
      * intros (H1 & H2 & H3 & H4 & H5). repeat split; trivial.
        now apply Hempty.
      * intros (_ & _ & H1 & H2 & H3 & H4 & H5). auto.
Qed.

Lemma valid_filenames_are_short_and_free_of_separators_witness :
  is_valid_filename "report.pdf" 255 = true
  /\ PyText.has_char "/" "report.pdf" = false.
Proof.
  split; [reflexivity|].
  destruct (valid_filenames_are_short_and_free_of_separators
              "report.pdf" 255) as [H _].
  destruct (H eq_refl) as (_ & _ & Hslash & _). exact Hslash.
Defined.

(* ------------------------------------------------------------------ *)
(** ** The credential file *)

Lemma split_on_length (sep : ascii) (s : string) :
  List.length (PyText.split_on sep s) = S (PyText.count_char sep s).
Proof.
  induction s as [|c s IH]; [reflexivity|]. simpl.
  destruct (Ascii.eqb c sep); simpl; [now rewrite IH|].
  destruct (PyText.split_on sep s); simpl in *; congruence.
Qed.

Lemma split_on_one (sep : ascii) (s b : string) :
  PyText.split_on sep s = [b] -> s = b /\ PyText.has_char sep s = false.
Proof.
  revert b. induction s as [|c s IH]; intros b; simpl.
  - intros [= <-]. auto.
  - destruct (Ascii.eqb c sep) eqn:E.
    + intros H. pose proof (split_on_length sep s) as Hlen.
      destruct (PyText.split_on sep s); simpl in *; discriminate.
    + destruct (PyText.split_on sep s) as [|h [|h' t]] eqn:Hs;
        try discriminate.
      * pose proof (split_on_length sep s) as Hlen. rewrite Hs in Hlen.
        discriminate.
      * intros [= <-]. destruct (IH h eq_refl) as [-> Hh]. auto.
Qed.

Lemma split_on_two (sep : ascii) (s a b : string) :
  PyText.split_on sep s = [a; b] ->
  s = a ++ String sep b
  /\ PyText.has_char sep a = false /\ PyText.has_char sep b = false.
Proof.
  revert a b. induction s as [|c s IH]; intros a b; simpl; [discriminate|].
  destruct (Ascii.eqb c sep) eqn:E.
  - apply Ascii.eqb_eq in E. subst c. intros [= <- Hb].
    destruct (split_on_one _ _ _ Hb) as [-> Hs]. simpl. auto.
  - destruct (PyText.split_on sep s) as [|h [|h' [|h'' t]]] eqn:Hs;
      try discriminate.
    intros [= <- <-]. destruct (IH h h' eq_refl) as (-> & Ha & Hb).
    simpl. rewrite E. auto.
Qed.

Lemma split_on_pair (sep : ascii) (a b : string) :
  PyText.has_char sep a = false -> PyText.has_char sep b = false ->
  PyText.split_on sep (a ++ String sep b) = [a; b].
Proof.
  intros Ha Hb. induction a as [|c a IH]; simpl.
  - rewrite Ascii.eqb_refl. f_equal.
    induction b as [|x b IHb]; [reflexivity|]. simpl in *.
    apply orb_false_iff in Hb. destruct Hb as [Hx Hb].
    rewrite Hx, (IHb Hb). reflexivity.
  - simpl in Ha. apply orb_false_iff in Ha. destruct Ha as [Hc Ha].
    rewrite Hc, (IH Ha). reflexivity.
Qed.

Lemma has_char_blank_no_space (s : string) :
  PyText.no_space s = true -> PyText.has_char " " s = false.
Proof.
  induction s as [|c s IH]; [reflexivity|]. simpl.
  intros [Hc Hs]%andb_true_iff. apply negb_true_iff in Hc.
  now rewrite (not_space_neq_blank _ Hc), IH.
Qed.

(** A stripped line that is cut in two at its only space has a name and a
    password that are not empty. *)
Lemma stripped_pair_not_empty (raw u p : string) :
  PyStr.strip raw = u ++ String " " p -> u <> EmptyString /\ p <> EmptyString.
Proof.
  intros H. split; intros ->.
  - simpl in H. apply strip_head in H. discriminate H.
  - unfold PyStr.strip in H.
    exact (rstrip_no_trailing_space (PyStr.lstrip raw) u " " eq_refl H).
Qed.

Lemma startswith_hash_app (u rest : string) :
  u <> EmptyString ->
  PyStr.startswith (u ++ rest) "#" = PyStr.startswith u "#".
Proof.
  destruct u as [|c u]; [congruence|]. intros _.
  apply Bool.eq_iff_eq_true. rewrite !startswith_app.
  split; intros [r Hr]; simpl in Hr; injection Hr as -> _.
  - now exists u.
  - now exists (u ++ rest).
Qed.

(** X11. When [load_credentials] returns a table, its usernames are
    pairwise distinct, and every entry comes from a line of the file whose
    stripped text is the username, one space and the password; neither is
    empty or contains a space, and the username does not start with '#'. *)
Theorem loaded_credentials_come_from_lines
  (lines : list string) (table : dict string string) :
  load_credentials lines = Loaded table ->
  dict_wf table
  /\ forall user password,
       dict_get String.eqb user table = Some password ->
       user <> EmptyString /\ password <> EmptyString
       /\ PyText.has_char " " user = false
       /\ PyText.has_char " " password = false
       /\ PyStr.startswith user "#" = false
       /\ exists raw, In raw lines
                      /\ PyStr.strip raw = user ++ " " ++ password.
Proof.
  set (good := fun (t : dict string string) =>
         dict_wf t
         /\ forall user password,
              In (user, password) t ->
              user <> EmptyString /\ password <> EmptyString
              /\ PyText.has_char " " user = false
              /\ PyText.has_char " " password = false
              /\ PyStr.startswith user "#" = false
              /\ exists raw, In raw lines
                             /\ PyStr.strip raw = user ++ " " ++ password).
  assert (forall ls n acc,
             (forall raw, In raw ls -> In raw lines) -> good acc ->
             load_lines n ls acc = Loaded table -> good table) as Hloop.
  { induction ls as [|raw ls IH]; intros n acc Hsub Hacc; simpl.
    - now intros [= <-].
    - assert (forall r, In r ls -> In r lines) as Hsub'
        by (intros r Hr; apply Hsub; now right).
      destruct (PyStr.is_empty (PyStr.strip raw)
                || PyStr.startswith (PyStr.strip raw) "#") eqn:Skip;
        [now apply IH|].
      apply orb_false_iff in Skip. destruct Skip as [_ Hhash].
      destruct (PyText.split_on " " (PyStr.strip raw))
        as [|u [|p [|x t]]] eqn:Hsplit; try discriminate.
      apply IH; trivial. destruct Hacc as [Hwf Hentries]. split.
      + now apply (set_wf String.eqb str_eqb_eq).
      + intros user password Hin. apply In_set in Hin.
        destruct Hin as [[= -> ->]|Hin]; [|now apply Hentries].
        destruct (split_on_two _ _ _ _ Hsplit) as (Hline & Hu & Hp).
        destruct (stripped_pair_not_empty _ _ _ Hline) as [Hune Hpne].
        repeat split; trivial.
        * rewrite Hline, startswith_hash_app in Hhash; trivial.
        * exists raw. split; [apply Hsub; now left | exact Hline]. }
  intros Hload.
  destruct (Hloop lines 1%nat [] (fun _ H => H)) as [Hwf Hentries]; trivial.
  { split; [constructor | intros ? ? []]. }
  split; [exact Hwf|]. intros user password Hget.
  apply Hentries. now apply (get_In String.eqb str_eqb_eq).
Qed.

Lemma loaded_credentials_come_from_lines_witness :
  dict_wf [("alice", "password123"); ("bob", "secret")]
  /\ PyText.has_char " " "secret" = false.
Proof.
  destruct (loaded_credentials_come_from_lines
              ["# users"; "alice password123"; ""; "bob secret"]
              [("alice", "password123"); ("bob", "secret")] eq_refl)
    as [Hwf Hentries].
  split; [exact Hwf|].
  destruct (Hentries "bob" "secret" eq_refl) as (_ & _ & _ & H & _).
  exact H.
Defined.

(** A line counts when, stripped, it is neither empty nor a comment; it is
    malformed when it counts and does not hold exactly one space. *)
Lemma load_lines_step (n : nat) (raw : string) (rest : list string)
  (acc : dict string string) :
  let line := PyStr.strip raw in
  let counts := negb (PyStr.is_empty line)
                && negb (PyStr.startswith line "#") in
  (counts = false -> load_lines n (raw :: rest) acc
                     = load_lines (S n) rest acc)
  /\ (counts = true -> PyText.count_char " " line <> 1%nat ->
      load_lines n (raw :: rest) acc = InvalidFormat n)
  /\ (counts = true -> PyText.count_char " " line = 1%nat ->
      exists user password,
        line = user ++ " " ++ password
        /\ load_lines n (raw :: rest) acc
           = load_lines (S n) rest
               (dict_set String.eqb user password acc)).
Proof.
  intros line counts. subst counts. simpl. fold line.
  pose proof (split_on_length " " line) as Hlen.
  destruct (PyStr.is_empty line); simpl.
  { repeat split; trivial; discriminate. }
  destruct (PyStr.startswith line "#"); simpl.
  { repeat split; trivial; discriminate. }
  split; [discriminate|].
  destruct (PyText.split_on " " line) as [|u [|p [|x t]]] eqn:Hs;
    simpl in Hlen; split; intros _ Hcount; try congruence; try lia.
  exists u, p. split; [|reflexivity].
  now destruct (split_on_two _ _ _ _ Hs) as [-> _].
Qed.

(** X12. [load_credentials] raises its [ValueError] exactly at the first
    line that, once stripped, is neither empty nor a comment and does not
    contain exactly one space; the error carries that line's number,
    counted from 1.  It returns a table exactly when there is no such
    line. *)
Theorem credential_file_error_names_first_malformed_line
  (lines : list string) :
  let malformed raw :=
    let line := PyStr.strip raw in
    negb (PyStr.is_empty line) && negb (PyStr.startswith line "#")
    && negb (Nat.eqb (PyText.count_char " " line) 1) in
  (forall n,
      load_credentials lines = InvalidFormat n
      <-> exists before raw after,
            lines = (before ++ raw :: after)%list
            /\ n = S (List.length before)
            /\ malformed raw = true
            /\ forallb (fun r => negb (malformed r)) before = true)
  /\ ((exists table, load_credentials lines = Loaded table)
      <-> forallb (fun r => negb (malformed r)) lines = true).
Proof.
  intros malformed. unfold load_credentials.
  assert (forall ls k acc,
             (forall n,
                 load_lines k ls acc = InvalidFormat n
                 <-> exists before raw after,
                       ls = (before ++ raw :: after)%list
                       /\ n = (k + List.length before)%nat
                       /\ malformed raw = true
                       /\ forallb (fun r => negb (malformed r)) before
                          = true)
             /\ ((exists table, load_lines k ls acc = Loaded table)
                 <-> forallb (fun r => negb (malformed r)) ls = true))
    as Hloop.
  { induction ls as [|raw ls IH]; intros k acc.
    - simpl. split.
      + intros n. split; [discriminate|].
        intros (before & r & after & H & _). destruct before; discriminate.
      + split; eauto.
    - destruct (load_lines_step k raw ls acc) as (Hskip & Hbad & Hentry).
      assert (malformed raw = false ->
              exists acc', load_lines k (raw :: ls) acc
                           = load_lines (S k) ls acc') as Hok.
      { unfold malformed. intros Hm.
        destruct (negb (PyStr.is_empty (PyStr.strip raw))
                  && negb (PyStr.startswith (PyStr.strip raw) "#")) eqn:C.
        - simpl in Hm. apply negb_false_iff, Nat.eqb_eq in Hm.
          destruct (Hentry eq_refl Hm) as (u & p & _ & E). eauto.
        - exists acc. now apply Hskip. }
      assert (malformed raw = true ->
              load_lines k (raw :: ls) acc = InvalidFormat k) as Hko.
      { unfold malformed. intros Hm.
        apply andb_true_iff in Hm. destruct Hm as [C Hm].
        apply negb_true_iff, Nat.eqb_neq in Hm. now apply Hbad. }
      destruct (malformed raw) eqn:M.
      + rewrite (Hko eq_refl). split.
        * intros n. split.
          -- intros [= <-]. exists [], raw, ls. simpl.
             rewrite Nat.add_0_r. auto.
          -- intros (before & r & after & Hl & -> & Hr & Hbefore).
             destruct before as [|b before].
             ++ simpl. now rewrite Nat.add_0_r.
             ++ simpl in Hl, Hbefore. injection Hl as <- _.
                rewrite M in Hbefore. discriminate.
        * simpl. rewrite M. simpl. split; [intros [t H]|]; discriminate.
      + destruct (Hok eq_refl) as [acc' ->].
        destruct (IH (S k) acc') as [IHbad IHok]. split.
        * intros n. rewrite IHbad. split.
          -- intros (before & r & after & -> & -> & Hr & Hbefore).
             exists (raw :: before), r, after. simpl. rewrite M, Hbefore.
             repeat split; trivial; lia.
          -- intros (before & r & after & Hl & -> & Hr & Hbefore).
             destruct before as [|b before].
             ++ simpl in Hl. injection Hl as <- _. congruence.
             ++ simpl in Hl, Hbefore. injection Hl as <- ->.
                apply andb_true_iff in Hbefore. destruct Hbefore as [_ Hb].
                exists before, r, after. simpl. repeat split; trivial; lia.
        * rewrite IHok. simpl. rewrite M. reflexivity. }
  destruct (Hloop lines 1%nat []) as [Hbad Hok]. split; [|exact Hok].
  intros n. rewrite Hbad. reflexivity.
Qed.

Lemma credential_file_error_names_first_malformed_line_witness :
  load_credentials ["# users"; "alice password123"; "bob"; "carol"]
  = InvalidFormat 3.
Proof.
  destruct (credential_file_error_names_first_malformed_line
              ["# users"; "alice password123"; "bob"; "carol"])
    as [Hbad _].
  apply Hbad. exists ["# users"; "alice password123"], "bob", ["carol"].
  repeat split; reflexivity.
Defined.

Lemma load_lines_keeps (user password : string) (after : list string) :
  forall n acc table,
    load_lines n after acc = Loaded table ->
    dict_get String.eqb user acc = Some password ->
    (forall raw p, In raw after -> PyStr.strip raw <> user ++ " " ++ p) ->
    dict_get String.eqb user table = Some password.
Proof.
  induction after as [|raw after IH]; intros n acc table Hload Hacc Hnone.
  - simpl in Hload. congruence.
  - destruct (load_lines_step n raw after acc) as (Hskip & Hbad & Hentry).
    assert (forall r p, In r after -> PyStr.strip r <> user ++ " " ++ p)
      as Hnone' by (intros r p Hr; apply Hnone; now right).
    destruct (negb (PyStr.is_empty (PyStr.strip raw))
              && negb (PyStr.startswith (PyStr.strip raw) "#")) eqn:C.
    + destruct (Nat.eq_dec (PyText.count_char " " (PyStr.strip raw)) 1)
        as [Hone|Hmany].
      * destruct (Hentry eq_refl Hone) as (u & p & Hline & E).
        rewrite E in Hload. apply (IH _ _ _ Hload); trivial.
        rewrite (get_set_ne String.eqb str_eqb_eq); trivial.
        intros ->. apply (Hnone raw p); [now left | exact Hline].
      * rewrite (Hbad eq_refl Hmany) in Hload. discriminate.
    + rewrite (Hskip eq_refl) in Hload. now apply (IH _ _ _ Hload).
Qed.

Lemma load_lines_prefix (before rest : list string) :
  forall n acc table,
    load_lines n (before ++ rest)%list acc = Loaded table ->
    exists n' acc', load_lines n' rest acc' = Loaded table.
Proof.
  induction before as [|raw before IH]; intros n acc table Hload; [eauto|].
  change ((raw :: before) ++ rest)%list with (raw :: (before ++ rest))%list
    in Hload.
  destruct (load_lines_step n raw (before ++ rest)%list acc)
    as (Hskip & Hbad & Hentry).
  destruct (negb (PyStr.is_empty (PyStr.strip raw))
            && negb (PyStr.startswith (PyStr.strip raw) "#")) eqn:C.
  - destruct (Nat.eq_dec (PyText.count_char " " (PyStr.strip raw)) 1)
      as [Hone|Hmany].
    + destruct (Hentry eq_refl Hone) as (u & p & _ & E).
      rewrite E in Hload. eauto.
    + rewrite (Hbad eq_refl Hmany) in Hload. discriminate.
  - rewrite (Hskip eq_refl) in Hload. eauto.
Qed.

(** X13. In a credential file that loads, the last line for a username
    decides: if a line reads, once stripped, as a username that does not
    start with '#', one space and a password, neither holding a space, and
    no later line is for the same username, then the table maps the
    username to that password. *)
Theorem last_credential_line_wins
  (before after : list string) (raw user password : string)
  (table : dict string string) :
  load_credentials (before ++ raw :: after)%list = Loaded table ->
  PyStr.strip raw = user ++ " " ++ password ->
  PyText.has_char " " user = false ->
  PyText.has_char " " password = false ->
  PyStr.startswith user "#" = false ->
  (forall later p, In later after ->
                   PyStr.strip later <> user ++ " " ++ p) ->
  dict_get String.eqb user table = Some password.
Proof.
  intros Hload Hline Hu Hp Hhash Hlater.
  destruct (load_lines_prefix _ _ _ _ _ Hload) as (n & acc & Hrest).
  destruct (stripped_pair_not_empty _ _ _ Hline) as [Hune _].
  cbn [load_lines] in Hrest. rewrite Hline in Hrest.
  change (user ++ " " ++ password) with (user ++ String " " password)
    in Hrest.
  rewrite startswith_hash_app, Hhash in Hrest by assumption.
  replace (PyStr.is_empty (user ++ String " " password)) with false in Hrest
    by (destruct user; [congruence | reflexivity]).
  simpl orb in Hrest. cbv iota in Hrest.
  rewrite split_on_pair in Hrest by assumption.
  apply (load_lines_keeps user password after _ _ _ Hrest); trivial.
  apply (get_set_eq String.eqb str_eqb_eq).
Qed.

Lemma last_credential_line_wins_witness :
  dict_get String.eqb "alice" [("alice", "changed"); ("bob", "secret")]
  = Some "changed".
Proof.
  apply (last_credential_line_wins
           ["alice password123"; "bob secret"] ["# end"]
           "  alice changed  " "alice" "changed");
    try reflexivity.
  intros later p [<-|[]]. vm_compute. destruct p; discriminate.
Defined.

(* ================================================================== *)
(** * [client.py]: what the client sends is what the server handles *)

(** The stripped line behind each action of the command loop. *)
Lemma handle_command_inversion (typed : string) :
  let command := PyStr.strip typed in
  match Client.handle_command typed with
  | Client.Exit => command = Client.CMD_EXIT
  | Client.ListActivePeers => command = CMD_LIST_ACTIVE_PEERS
  | Client.ListPublishedFiles => command = CMD_LIST_PUBLISHED_FILES
  | Client.PublishFile f => command = CMD_PUBLISH ++ " " ++ f
  | Client.UnpublishFile f => command = CMD_UNPUBLISH ++ " " ++ f
  | Client.SearchFiles x => command = CMD_SEARCH ++ " " ++ x
  | Client.GetFile f => command = CMD_GET ++ " " ++ f
  | Client.Ignored => True
  end.
Proof.
  intros command. unfold Client.handle_command. fold command.
  destruct (String.eqb command Client.CMD_EXIT) eqn:E1;
    [now apply String.eqb_eq|].
  destruct (String.eqb command CMD_LIST_ACTIVE_PEERS) eqn:E2;
    [now apply String.eqb_eq|].
  destruct (String.eqb command CMD_LIST_PUBLISHED_FILES) eqn:E3;
    [now apply String.eqb_eq|].
  destruct (PyStr.startswith command (CMD_PUBLISH ++ " ")) eqn:E4.
  { apply startswith_app in E4. destruct E4 as [r ->]. reflexivity. }
  destruct (PyStr.startswith command (CMD_UNPUBLISH ++ " ")) eqn:E5.
  { apply startswith_app in E5. destruct E5 as [r ->]. reflexivity. }
  destruct (PyStr.startswith command (CMD_SEARCH ++ " ")) eqn:E6.
  { apply startswith_app in E6. destruct E6 as [r ->]. reflexivity. }
  destruct (PyStr.startswith command (CMD_GET ++ " ")) eqn:E7.
  { apply startswith_app in E7. destruct E7 as [r ->]. reflexivity. }
  exact I.
Qed.

Lemma strip_of_stripped (typed command : string) :
  PyStr.strip typed = command -> PyStr.strip command = command.
Proof. intros <-. apply strip_idempotent. Qed.

Lemma stripped_argument_not_empty (typed word : string) :
  PyStr.strip typed <> word ++ " " ++ EmptyString.
Proof.
  unfold PyStr.strip. apply rstrip_no_trailing_space. reflexivity.
Qed.

(** X14. Whatever line the user types, a request the client's command loop
    sends for it that fits the server's receive buffer of [BUFFER_SIZE]
    bytes is handled by the server as the same command with the same
    argument: the datagram is the stripped line, the server receives it
    whole, its own strip leaves it alone, and 'pub', 'unp', 'sch' and 'get'
    lines reach the publish, unpublish, search and get handlers, which
    parse back the very argument the client cut off; 'lap' and 'lpf' reach
    the two listing handlers.  The argument the client sends is never
    empty. *)
Theorem client_requests_reach_the_matching_handler (typed : string) :
  forall request,
    Client.request_of (Client.handle_command typed) = Some request ->
    (Wire.utf8_length request <= BUFFER_SIZE)%nat ->
    request = PyStr.strip typed
    /\ (forall a, payload (recvfrom request a) = Some request)
    /\ PyStr.strip request = request
    /\ match Client.handle_command typed with
       | Client.PublishFile f =>
           f <> EmptyString /\ parse_command request = (CMD_PUBLISH, f)
           /\ forall now a s,
                receive_and_dispatch now (recvfrom request a) s
                = handle_publish_file a request s
       | Client.UnpublishFile f =>
           f <> EmptyString /\ parse_command request = (CMD_UNPUBLISH, f)
           /\ forall now a s,
                receive_and_dispatch now (recvfrom request a) s
                = handle_unpublish_file a request s
       | Client.SearchFiles x =>
           x <> EmptyString /\ parse_command request = (CMD_SEARCH, x)
           /\ forall now a s,
                receive_and_dispatch now (recvfrom request a) s
                = handle_search_files a request s
       | Client.GetFile f =>
           f <> EmptyString /\ parse_command request = (CMD_GET, f)
           /\ forall now a s,
                receive_and_dispatch now (recvfrom request a) s
                = handle_get_request a request s
       | Client.ListActivePeers =>
           forall now a s,
             receive_and_dispatch now (recvfrom request a) s
             = handle_list_active_peers a s
       | Client.ListPublishedFiles =>
           forall now a s,
             receive_and_dispatch now (recvfrom request a) s
             = handle_list_published_files a s
       | Client.Exit | Client.Ignored => False
       end.
Proof.
  intros request Hreq Hfit.
  assert (forall now a s,
             receive_and_dispatch now (recvfrom request a) s
             = dispatch now (PyStr.strip request) a s) as Hrecv
    by (intros now a s; now apply receive_whole).
  assert (forall a, payload (recvfrom request a) = Some request) as Hwhole
    by (intros a; unfold recvfrom; cbn [payload];
        now apply recv_decode_whole).
  clear Hfit.
  pose proof (handle_command_inversion typed) as Hinv. cbv zeta in Hinv.
  destruct (Client.handle_command typed) as [| | |f|f|x|f|];
    cbn [Client.request_of] in Hreq; try discriminate;
    injection Hreq as <-.
  all: split; [now symmetry|].
  all: split; [exact Hwhole|].
  all: pose proof (strip_of_stripped typed _ Hinv) as Hfix.
  all: split; [exact Hfix|].
  all: try (split;
            [intros ->; exact (stripped_argument_not_empty typed _ Hinv)|];
            split; [reflexivity|]).
  all: intros now a s; rewrite Hrecv.
  all: unfold CMD_PUBLISH, CMD_UNPUBLISH, CMD_SEARCH, CMD_GET in Hfix.
  all: cbn [String.append] in Hfix.
  all: rewrite Hfix; unfold dispatch.
  all: match goal with
       | |- context [route ?m] =>
           pose proof (route_by_prefix m)
             as (_ & Hpub & Hunp & _ & Hlap & Hlpf & Hsch & Hget & _)
       end.
  - now rewrite (proj2 Hlap eq_refl).
  - now rewrite (proj2 Hlpf eq_refl).
  - now rewrite (proj2 Hpub eq_refl).
  - now rewrite (proj2 Hunp eq_refl).
  - now rewrite (proj2 Hsch eq_refl).
  - now rewrite (proj2 Hget eq_refl).
Qed.

Lemma client_requests_reach_the_matching_handler_witness :
  parse_command "pub my notes.txt" = (CMD_PUBLISH, "my notes.txt")
  /\ "pub my notes.txt" = PyStr.strip "  pub my notes.txt "
  /\ receive_and_dispatch 0%Q
       (recvfrom "pub my notes.txt" Examples.bob_addr) Examples.shared
     = handle_publish_file Examples.bob_addr "pub my notes.txt"
         Examples.shared.
Proof.
  destruct (client_requests_reach_the_matching_handler
              "  pub my notes.txt " "pub my notes.txt" eq_refl)
    as (Hsent & _ & _ & Hrest).
  { apply Nat.leb_le. reflexivity. }
  change (Client.handle_command "  pub my notes.txt ")
    with (Client.PublishFile "my notes.txt") in Hrest.
  destruct Hrest as (_ & Hparse & Hhandled).
  split; [exact Hparse|]. split; [exact Hsent|]. apply Hhandled.
Defined.

(** A line longer than the buffer reaches the handler with its argument
    cut: of a filename of 1100 letters the server registers the first
    1020. *)
Example long_request_is_cut_by_the_buffer :
  let request := CMD_PUBLISH ++ " " ++ Examples.letters 1100 in
  Client.request_of (Client.handle_command request) = Some request
  /\ receive_and_dispatch 0%Q (recvfrom request Examples.bob_addr)
       Examples.fresh
     = handle_publish_file Examples.bob_addr
         (CMD_PUBLISH ++ " " ++ Examples.letters 1020) Examples.fresh.
Proof. split; vm_compute; reflexivity. Qed.

(** The client forwards less than the server takes: 'pub' on its own and
    'publish x' are ignored by the command loop, though the server would
    handle either as a publish request. *)
Example client_ignores_what_the_server_accepts :
  Client.handle_command "pub" = Client.Ignored
  /\ Client.handle_command "publish x" = Client.Ignored
  /\ route "pub" = PUBLISH /\ route "publish x" = PUBLISH.
Proof. repeat split; reflexivity. Qed.

Lemma username_free (s : PeerSyncServer) (user : string) :
  (forall a d, In (a, d) (active_clients s) -> username d <> user) ->
  existsb (fun data => String.eqb (username data) user)
    (dict_values (active_clients s)) = false.
Proof.
  intros Hall.
  destruct (existsb _ (dict_values (active_clients s))) eqn:Ex; trivial.
  apply existsb_exists in Ex. destruct Ex as [d [Hd Heq]].
  apply String.eqb_eq in Heq. unfold dict_values in Hd.
  apply in_map_iff in Hd. destruct Hd as [[a d'] [<- Hin]].
  exfalso. exact (Hall a d' Hin Heq).
Qed.

Lemma auth_message_stripped (user password : string) :
  PyText.is_word password = true ->
  PyStr.strip (Client.auth_message user password)
  = Client.auth_message user password.
Proof.
  intros Hp.
  assert (Client.auth_message user password
          = String "a" (("uth " ++ user ++ " ") ++ password)) as ->.
  { unfold Client.auth_message. simpl. now rewrite str_app_assoc. }
  now apply strip_fixed.
Qed.

(** X15. A login request the client builds from a username and a
    password that fits the server's receive buffer of [BUFFER_SIZE] bytes
    is received whole, and is read back by the server as exactly that pair
    if and only if both are words, that is, not empty and free of
    whitespace.  For such a pair, when no session has the username and the
    credential table holds the pair, the server answers [OK] and opens the
    session. *)
Theorem client_login_is_read_back_when_both_are_words
  (user password : string) :
  (Wire.utf8_length (Client.auth_message user password) <= BUFFER_SIZE)%nat ->
  (forall a,
      payload (recvfrom (Client.auth_message user password) a)
      = Some (Client.auth_message user password))
  /\ (option_map (fun raw => PyStr.split (PyStr.strip raw))
        (Wire.recv_decode BUFFER_SIZE (Client.auth_message user password))
      = Some ["auth"; user; password]
      <-> PyText.is_word user = true /\ PyText.is_word password = true)
  /\ (PyText.is_word user = true -> PyText.is_word password = true ->
      forall now client_address s,
        (forall a d, In (a, d) (active_clients s) -> username d <> user) ->
        dict_get String.eqb user (credentials s) = Some password ->
        receive_and_dispatch now
          (recvfrom (Client.auth_message user password) client_address) s
        = Returned
            (with_active_clients
               (dict_set addr_eqb client_address
                  (mkClientData user now None) (active_clients s)) s)
            [(MSG_OK, client_address)]).
Proof.
  intros Hfit.
  pose proof (recv_decode_whole _ _ Hfit) as Hwhole.
  assert (PyText.is_word user = true -> PyText.is_word password = true ->
          PyStr.split (PyStr.strip (Client.auth_message user password))
          = ["auth"; user; password]) as Hback.
  { intros Hu Hp. rewrite auth_message_stripped by assumption.
    change (Client.auth_message user password)
      with ("auth" ++ " " ++ user ++ " " ++ password).
    now apply split_three. }
  split; [|split].
  - intros a. exact Hwhole.
  - rewrite Hwhole. cbn [option_map]. split.
    + intros [= Hsplit]. exact (split_three_words _ _ _ _ Hsplit).
    + intros [Hu Hp]. f_equal. now apply Hback.
  - intros Hu Hp now client_address s Hfree Hcred.
    rewrite receive_whole by exact Hfit.
    specialize (Hback Hu Hp).
    rewrite auth_message_stripped in * by assumption.
    unfold dispatch.
    destruct (route_by_prefix (Client.auth_message user password))
      as (_ & _ & _ & _ & _ & _ & _ & _ & Hauth).
    rewrite (proj2 Hauth eq_refl).
    unfold authenticate_client.
    rewrite Hback, (username_free s user Hfree), Hcred, String.eqb_refl.
    reflexivity.
Qed.

Lemma client_login_is_read_back_when_both_are_words_witness :
  (Wire.utf8_length (Client.auth_message "carol" "pw") <= BUFFER_SIZE)%nat
  /\ option_map (fun raw => PyStr.split (PyStr.strip raw))
       (Wire.recv_decode BUFFER_SIZE (Client.auth_message "carol" "pw"))
     = Some ["auth"; "carol"; "pw"]
  /\ PyText.is_word "two words" = false.
Proof.
  assert (Wire.utf8_length (Client.auth_message "carol" "pw")
          <= BUFFER_SIZE)%nat as Hfit by (apply Nat.leb_le; reflexivity).
  destruct (client_login_is_read_back_when_both_are_words "carol" "pw" Hfit)
    as (_ & [_ Hback] & _).
  split; [exact Hfit|]. split; [|reflexivity].
  apply Hback. split; reflexivity.
Defined.

(** A login longer than the buffer is cut before it is split: of a
    password of 1100 letters the server reads the first 1013. *)
Example long_login_is_cut_by_the_buffer :
  option_map (fun raw => PyStr.split (PyStr.strip raw))
    (Wire.recv_decode BUFFER_SIZE
       (Client.auth_message "carol" (Examples.letters 1100)))
  = Some ["auth"; "carol"; Examples.letters 1013].
Proof. vm_compute. reflexivity. Qed.

(** A password with a space shifts the words: the server reads three words
    only when the username is empty, and then takes the first password word
    for the username. *)
Example login_with_blank_in_password :
  PyStr.split (PyStr.strip (Client.auth_message "" "alice password123"))
  = ["auth"; "alice"; "password123"]
  /\ PyStr.split (PyStr.strip (Client.auth_message "alice" "pass word"))
     = ["auth"; "alice"; "pass"; "word"].
Proof. split; reflexivity. Qed.

(* ================================================================== *)
(** * From login to hand-off *)

Lemma filter_id {A} (f : A -> bool) (l : list A) :
  forallb f l = true -> filter f l = l.
Proof.
  induction l as [|x l IH]; simpl; trivial.
  intros [Hx Hl]%andb_true_iff. rewrite Hx. f_equal. auto.
Qed.

Lemma with_active_clients_same (s : PeerSyncServer) :
  with_active_clients (active_clients s) s = s.
Proof. now destruct s. Qed.

(** A turn whose sweep finds every session fresh is the dispatch alone. *)
Lemma run_iteration_fresh (sweep_time now : Q) (raw : string)
  (x : ClientAddress) (s : PeerSyncServer) :
  dict_wf (active_clients s) ->
  forallb (fun cd => negb (is_inactive sweep_time (snd cd)))
    (active_clients s) = true ->
  run_iteration sweep_time now (mkInbound (Some raw) x) s
  = Returned (state_of (dispatch now (PyStr.strip raw) x s))
      (sent_of (dispatch now (PyStr.strip raw) x s)).
Proof.
  intros Hwf Hfresh. rewrite run_iteration_returns by assumption.
  rewrite filter_id by assumption. rewrite with_active_clients_same.
  reflexivity.
Qed.

Lemma addr_eqb_refl (a : ClientAddress) : addr_eqb a a = true.
Proof. now apply addr_eqb_eq. Qed.

Lemma addr_eqb_neq (a b : ClientAddress) : a <> b -> addr_eqb a b = false.
Proof.
  intros Hne. destruct (addr_eqb a b) eqn:E; trivial.
  apply addr_eqb_eq in E. contradiction.
Qed.

Lemma dispatch_login (user password : string) (now : Q)
  (x : ClientAddress) (s : PeerSyncServer) :
  PyText.is_word user = true -> PyText.is_word password = true ->
  (forall a d, In (a, d) (active_clients s) -> username d <> user) ->
  dict_get String.eqb user (credentials s) = Some password ->
  dispatch now (PyStr.strip (Client.auth_message user password)) x s
  = Returned
      (with_active_clients
         (dict_set addr_eqb x (mkClientData user now None)
            (active_clients s)) s)
      [(MSG_OK, x)].
Proof.
  intros Hu Hp Hfree Hcred.
  rewrite auth_message_stripped by assumption. unfold dispatch.
  destruct (route_by_prefix (Client.auth_message user password))
    as (_ & _ & _ & _ & _ & _ & _ & _ & Hauth).
  rewrite (proj2 Hauth eq_refl). unfold authenticate_client.
  change (Client.auth_message user password)
    with ("auth" ++ " " ++ user ++ " " ++ password).
  rewrite split_three by (trivial; reflexivity).
  rewrite (username_free s user Hfree), Hcred, String.eqb_refl.
  reflexivity.
Qed.

Lemma dispatch_endpoint (host port : string) (now : Q) (x : ClientAddress)
  (d : ClientData) (s : PeerSyncServer) :
  PyText.is_word host = true -> PyText.is_word port = true ->
  clients_get x (active_clients s) = Some d ->
  dispatch now (PyStr.strip (Client.tcp_message host port)) x s
  = Returned
      (with_active_clients
         (dict_set addr_eqb x
            (mkClientData (username d) (last_heartbeat d)
               (Some (host, port))) (active_clients s)) s) [].
Proof.
  intros Hh Hp Hget.
  assert (PyStr.strip (Client.tcp_message host port)
          = Client.tcp_message host port) as ->.
  { assert (Client.tcp_message host port
            = String "T" (("CP " ++ host ++ " ") ++ port)) as ->.
    { unfold Client.tcp_message. simpl. now rewrite str_app_assoc. }
    now apply strip_fixed. }
  unfold dispatch.
  destruct (route_by_prefix (Client.tcp_message host port))
    as (_ & _ & _ & Htcp & _).
  rewrite (proj2 Htcp eq_refl). unfold process_tcp_address.
  change (Client.tcp_message host port)
    with ("TCP" ++ " " ++ host ++ " " ++ port).
  rewrite split_three by (trivial; reflexivity).
  now rewrite Hget.
Qed.

Lemma dispatch_publish (f : string) (now : Q) (x : ClientAddress)
  (d : ClientData) (s : PeerSyncServer) :
  PyText.is_word f = true ->
  clients_get x (active_clients s) = Some d ->
  dispatch now (PyStr.strip (CMD_PUBLISH ++ " " ++ f)) x s
  = Returned
      (with_published_files (publish f (username d) (published_files s)) s)
      [(RESP_FILE_PUBLISHED, x)].
Proof.
  intros Hf Hget.
  change (CMD_PUBLISH ++ " " ++ f) with (String "p" ("ub " ++ f)).
  rewrite (strip_fixed "p" "ub " f eq_refl Hf).
  change (String "p" ("ub " ++ f)) with (CMD_PUBLISH ++ " " ++ f).
  unfold dispatch.
  destruct (route_by_prefix (CMD_PUBLISH ++ " " ++ f))
    as (_ & Hpub & _).
  rewrite (proj2 Hpub eq_refl). unfold handle_publish_file.
  now rewrite parse_pub, Hget.
Qed.

Lemma dispatch_get (f : string) (now : Q) (x : ClientAddress)
  (s : PeerSyncServer) :
  PyText.is_word f = true ->
  dispatch now (PyStr.strip (CMD_GET ++ " " ++ f)) x s
  = handle_get_request x (CMD_GET ++ " " ++ f) s.
Proof.
  intros Hf.
  change (CMD_GET ++ " " ++ f) with (String "g" ("et " ++ f)).
  rewrite (strip_fixed "g" "et " f eq_refl Hf).
  change (String "g" ("et " ++ f)) with (CMD_GET ++ " " ++ f).
  unfold dispatch.
  destruct (route_by_prefix (CMD_GET ++ " " ++ f))
    as (_ & _ & _ & _ & _ & _ & _ & Hget & _).
  now rewrite (proj2 Hget eq_refl).
Qed.

Lemma parse_get (filename : string) :
  parse_command (CMD_GET ++ " " ++ filename) = (CMD_GET, filename).
Proof. reflexivity. Qed.

(** X16. The hand-off, end to end, from an empty server.  Peer A logs in
    with credentials of the table, reports its endpoint and publishes a
    file; peer B logs in from another address under another username and
    asks for the file.  If every sweep on the way comes within the timeout
    of the logins, the server answers [OK], the publish acknowledgement,
    [OK], and to B the line '<A> <host> <port>', which splits back into
    A's username, host and port; it ends with the two sessions and the one
    registry entry. *)
Theorem login_publish_get_hands_off_the_endpoint
  (table : dict string string) (a b : ClientAddress)
  (user_a password_a user_b password_b host port filename : string)
  (t1 n1 t2 n2 t3 n3 t4 n4 t5 n5 : Q) :
  PyText.is_word user_a = true -> PyText.is_word password_a = true ->
  PyText.is_word user_b = true -> PyText.is_word password_b = true ->
  PyText.is_word host = true -> PyText.is_word port = true ->
  PyText.is_word filename = true ->
  a <> b -> user_a <> user_b ->
  dict_get String.eqb user_a table = Some password_a ->
  dict_get String.eqb user_b table = Some password_b ->
  (t2 - n1 <= HEARTBEAT_TIMEOUT)%Q -> (t3 - n1 <= HEARTBEAT_TIMEOUT)%Q ->
  (t4 - n1 <= HEARTBEAT_TIMEOUT)%Q -> (t5 - n1 <= HEARTBEAT_TIMEOUT)%Q ->
  (t5 - n4 <= HEARTBEAT_TIMEOUT)%Q ->
  run
    [(t1, n1, mkInbound (Some (Client.auth_message user_a password_a)) a);
     (t2, n2, mkInbound (Some (Client.tcp_message host port)) a);
     (t3, n3, mkInbound (Some (CMD_PUBLISH ++ " " ++ filename)) a);
     (t4, n4, mkInbound (Some (Client.auth_message user_b password_b)) b);
     (t5, n5, mkInbound (Some (CMD_GET ++ " " ++ filename)) b)]
    (mkServer [] [] table)
  = Returned
      (mkServer
         [(a, mkClientData user_a n1 (Some (host, port)));
          (b, mkClientData user_b n4 None)]
         [(filename, [user_a])] table)
      [(MSG_OK, a); (RESP_FILE_PUBLISHED, a); (MSG_OK, b);
       (user_a ++ " " ++ host ++ " " ++ port, b)]
  /\ PyStr.split (user_a ++ " " ++ host ++ " " ++ port)
     = [user_a; host; port].
Proof.
  intros Hua Hpa Hub Hpb Hh Hp Hf Hab Hu Hca Hcb H2 H3 H4 H5 H5'.
  split; [|now apply split_three].
  assert (forall t, (t - n4 <= HEARTBEAT_TIMEOUT)%Q ->
                    is_inactive t (mkClientData user_b n4 None) = false)
    as HfreshB by (intros t H; now apply is_inactive_keep).
  assert (forall t tcp,
             (t - n1 <= HEARTBEAT_TIMEOUT)%Q ->
             is_inactive t (mkClientData user_a n1 tcp) = false)
    as HfreshA by (intros t tcp H; now apply is_inactive_keep).
  assert (addr_eqb b a = false) as Hba
    by (apply addr_eqb_neq; congruence).
  assert (String.eqb user_a user_b = false) as Hne
    by now apply String.eqb_neq.
  set (s0 := mkServer [] [] table).
  set (s1 := mkServer [(a, mkClientData user_a n1 None)] [] table).
  set (dA := mkClientData user_a n1 (Some (host, port))).
  set (s2 := mkServer [(a, dA)] [] table).
  set (s3 := mkServer [(a, dA)] [(filename, [user_a])] table).
  set (dB := mkClientData user_b n4 None).
  set (s4 := mkServer [(a, dA); (b, dB)] [(filename, [user_a])] table).
  assert (run_iteration t1 n1
            (mkInbound (Some (Client.auth_message user_a password_a)) a) s0
          = Returned s1 [(MSG_OK, a)]) as E1.
  { rewrite run_iteration_fresh; [|constructor|reflexivity].
    rewrite dispatch_login; trivial. intros ? ? []. }
  assert (run_iteration t2 n2
            (mkInbound (Some (Client.tcp_message host port)) a) s1
          = Returned s2 []) as E2.
  { rewrite run_iteration_fresh.
    - rewrite (dispatch_endpoint host port n2 a
                 (mkClientData user_a n1 None)); trivial.
      + simpl. unfold with_active_clients. simpl.
        now rewrite addr_eqb_refl.
      + simpl. now rewrite addr_eqb_refl.
    - dict_wf_by_computation.
    - simpl. now rewrite (HfreshA _ _ H2). }
  assert (run_iteration t3 n3
            (mkInbound (Some (CMD_PUBLISH ++ " " ++ filename)) a) s2
          = Returned s3 [(RESP_FILE_PUBLISHED, a)]) as E3.
  { rewrite run_iteration_fresh.
    - rewrite (dispatch_publish filename n3 a dA); trivial.
      simpl. now rewrite addr_eqb_refl.
    - dict_wf_by_computation.
    - simpl. unfold dA. now rewrite (HfreshA _ _ H3). }
  assert (run_iteration t4 n4
            (mkInbound (Some (Client.auth_message user_b password_b)) b) s3
          = Returned s4 [(MSG_OK, b)]) as E4.
  { rewrite run_iteration_fresh.
    - rewrite dispatch_login; trivial.
      + simpl. unfold with_active_clients. simpl. now rewrite Hba.
      + simpl. intros x d [[= <- <-]|[]]. exact Hu.
    - dict_wf_by_computation.
    - simpl. unfold dA. now rewrite (HfreshA _ _ H4). }
  assert (run_iteration t5 n5
            (mkInbound (Some (CMD_GET ++ " " ++ filename)) b) s4
          = Returned s4 [(user_a ++ " " ++ host ++ " " ++ port, b)]) as E5.
  { rewrite run_iteration_fresh.
    - rewrite dispatch_get by assumption.
      unfold handle_get_request. rewrite parse_get. simpl.
      rewrite Hba, addr_eqb_refl, String.eqb_refl. simpl.
      rewrite Hne, String.eqb_refl, addr_eqb_refl. reflexivity.
    - unfold dict_wf. simpl. constructor; [|constructor; [|constructor]].
      + simpl. intros [H|[]]. congruence.
      + simpl. tauto.
    - simpl. unfold dA, dB.
      now rewrite (HfreshA _ _ H5), (HfreshB _ H5'). }
  cbn [run]. fold s0.
  rewrite E1, and_then_returned, E2, and_then_returned, E3,
    and_then_returned, E4, and_then_returned, E5.
  reflexivity.
Qed.

Lemma login_publish_get_hands_off_the_endpoint_witness :
  run
    [(0%Q, 0%Q, mkInbound (Some (Client.auth_message "alice" "password123"))
                  Examples.alice_addr);
     (1%Q, 1%Q, mkInbound (Some (Client.tcp_message "127.0.0.1" "9001"))
                  Examples.alice_addr);
     (1%Q, 1%Q, mkInbound (Some "pub report.pdf") Examples.alice_addr);
     (2%Q, 2%Q, mkInbound (Some (Client.auth_message "bob" "secret"))
                  Examples.bob_addr);
     (3%Q, 3%Q, mkInbound (Some "get report.pdf") Examples.bob_addr)]
    Examples.fresh
  = Returned
      (mkServer
         [(Examples.alice_addr,
           mkClientData "alice" 0%Q (Some ("127.0.0.1", "9001")));
          (Examples.bob_addr, mkClientData "bob" 2%Q None)]
         [("report.pdf", ["alice"])] Examples.table)
      [(MSG_OK, Examples.alice_addr);
       (RESP_FILE_PUBLISHED, Examples.alice_addr);
       (MSG_OK, Examples.bob_addr);
       ("alice 127.0.0.1 9001", Examples.bob_addr)].
Proof.
  apply (login_publish_get_hands_off_the_endpoint Examples.table
           Examples.alice_addr Examples.bob_addr
           "alice" "password123" "bob" "secret" "127.0.0.1" "9001"
           "report.pdf" 0 0 1 1 1 1 2 2 3 3);
    try reflexivity; try discriminate.
Defined.

(* ================================================================== *)
(** * Sweeps in sequence, and logging in again *)

Lemma later_staleness (t t' : Q) (d : ClientData) :
  (t <= t')%Q -> is_inactive t' d = false -> is_inactive t d = false.
Proof.
  intros Hle H. apply is_inactive_le in H. apply is_inactive_le.
  eapply Qle_trans; [|exact H]. lra.
Qed.

(** X17. Sweeps made before a later one add nothing: after any number of
    sweeps at clock readings up to [t], a sweep at [t] leaves exactly what a
    single sweep at [t] would have left.  In particular sweeping twice at
    the same reading is sweeping once. *)
Theorem later_sweep_subsumes_earlier_ones
  (s : PeerSyncServer) (earlier : list Q) (t : Q) :
  dict_wf (active_clients s) ->
  (forall t0, In t0 earlier -> (t0 <= t)%Q) ->
  sweep_many (earlier ++ [t])%list s = check_for_inactive_clients t s.
Proof.
  revert s. induction earlier as [|t0 rest IH]; intros s Hwf Hle.
  - simpl. rewrite sweep_filter by assumption. reflexivity.
  - change (sweep_many ((t0 :: rest) ++ [t])%list s)
      with (and_then (check_for_inactive_clients t0 s)
              (sweep_many (rest ++ [t])%list)).
    pose proof (sweep_wf t0 s Hwf) as Hwf0.
    rewrite (sweep_filter t0) in * by assumption. simpl in Hwf0.
    rewrite and_then_returned, IH; trivial.
    + rewrite !sweep_filter by assumption. simpl.
      unfold with_active_clients. simpl. rewrite filter_filter.
      do 2 f_equal. apply filter_ext. intros [a d]. simpl.
      destruct (is_inactive t d) eqn:E; [apply andb_false_r|].
      rewrite (later_staleness t0 t d); trivial. apply Hle. now left.
    + intros t1 H1. apply Hle. now right.
Qed.

Lemma later_sweep_subsumes_earlier_ones_witness :
  sweep_many [1%Q; 2%Q; 4%Q; 4%Q] Examples.shared
  = check_for_inactive_clients 4%Q Examples.shared.
Proof.
  apply (later_sweep_subsumes_earlier_ones Examples.shared
           [1%Q; 2%Q; 4%Q] 4%Q).
  - dict_wf_by_computation.
  - intros t0 H. simpl in H.
    destruct H as [<-|[<-|[<-|[]]]]; vm_compute; discriminate.
Defined.

(** X18. A username whose session the sweep finds stale can log in again,
    from any address, in the very turn that sweeps the old session away:
    the sweep runs before the request is handled, so a login request that
    fits the receive buffer finds the username free, is answered [OK] and
    opens a session at the new address.  Stale is what the code tests: the
    difference of the two clock readings as doubles exceeds the timeout. *)
Theorem expired_username_can_log_in_again
  (s : PeerSyncServer) (sweep_time now : Q) (old_address : ClientAddress)
  (old : ClientData) (client_address : ClientAddress)
  (password : string) :
  dict_wf (active_clients s) ->
  unique_usernames (active_clients s) ->
  In (old_address, old) (active_clients s) ->
  Double.gtb (Double.sub sweep_time (last_heartbeat old)) HEARTBEAT_TIMEOUT
  = true ->
  PyText.is_word (username old) = true ->
  PyText.is_word password = true ->
  (Wire.utf8_length (Client.auth_message (username old) password)
   <= BUFFER_SIZE)%nat ->
  dict_get String.eqb (username old) (credentials s) = Some password ->
  run_iteration sweep_time now
    (recvfrom (Client.auth_message (username old) password) client_address)
    s
  = Returned
      (with_active_clients
         (dict_set addr_eqb client_address
            (mkClientData (username old) now None)
            (filter (fun cd => negb (is_inactive sweep_time (snd cd)))
               (active_clients s))) s)
      [(MSG_OK, client_address)].
Proof.
  intros Hwf Huniq Hin Hstale Hu Hp Hfit Hcred.
  rewrite run_iteration_returns by assumption.
  rewrite receive_whole by exact Hfit.
  rewrite dispatch_login; trivial.
  simpl. intros a d Ha Heq. apply filter_In in Ha.
  destruct Ha as [Ha Hfresh]. simpl in Hfresh.
  assert (a = old_address) as -> by now apply (Huniq a d old_address old).
  assert (d = old) as -> by (eapply wf_functional; eauto).
  unfold is_inactive in Hfresh. rewrite Hstale in Hfresh. discriminate.
Qed.

Lemma expired_username_can_log_in_again_witness :
  run_iteration 4%Q 4%Q
    (recvfrom (Client.auth_message "alice" "password123")
       Examples.carol_addr) Examples.shared
  = Returned
      (with_active_clients
         [(Examples.bob_addr, Examples.bob);
          (Examples.carol_addr, mkClientData "alice" 4%Q None)]
         Examples.shared)
      [(MSG_OK, Examples.carol_addr)].
Proof.
  apply (expired_username_can_log_in_again Examples.shared 4%Q 4%Q
           Examples.alice_addr Examples.alice Examples.carol_addr
           "password123"); try (vm_compute; reflexivity).
  - dict_wf_by_computation.
  - intros a1 d1 a2 d2 H1 H2. simpl in H1, H2.
    destruct H1 as [[= <- <-]|[[= <- <-]|[]]];
      destruct H2 as [[= <- <-]|[[= <- <-]|[]]];
      simpl; intros; congruence.
  - simpl. left. reflexivity.
  - apply Nat.leb_le. reflexivity.
Defined.

(** The session stamped 0.1 is not stale at 3.1, where the difference as
    doubles is 3: its username cannot log in again in that turn. *)
Example unexpired_username_is_refused :
  let stamped := (3602879701896397 # 2 ^ 55)%Q in
  let s := mkServer [(Examples.alice_addr, mkClientData "alice" stamped None)]
             [] Examples.table in
  run_iteration (6980579422424269 # 2 ^ 51)%Q (6980579422424269 # 2 ^ 51)%Q
    (recvfrom (Client.auth_message "alice" "password123")
       Examples.carol_addr) s
  = Returned s [(MSG_ERROR, Examples.carol_addr)].
Proof. vm_compute. reflexivity. Qed.

(* ================================================================== *)
(** * Order in the registry *)

Lemma keys_set_order {V : Type} (k : string) (v : V) (d : dict string V) :
  dict_keys (dict_set String.eqb k v d)
  = match dict_get String.eqb k d with
    | Some _ => dict_keys d
    | None => (dict_keys d ++ [k])%list
    end.
Proof.
  induction d as [|[k0 v0] d IH]; simpl; trivial.
  destruct (String.eqb k k0) eqn:E; simpl.
  - apply String.eqb_eq in E. now subst.
  - rewrite IH. now destruct (dict_get String.eqb k d).
Qed.

(** X19. Publishing keeps the order the registry is read in.  A publisher
    new to a file goes last in the file's list, behind those [GET] tries
    first, and a publisher already listed changes nothing; a file new to
    the registry goes last among the filenames, the others keeping their
    place; no other file's publishers are touched.  Unpublishing takes the
    first occurrence of the username out of the list and keeps the order of
    the others; it drops the file when the list becomes empty and touches
    no other file. *)
Theorem registry_updates_keep_the_order
  (files : dict string (list string)) (filename user : string) :
  (files_get filename (publish filename user files)
   = Some match files_get filename files with
          | Some publishers =>
              if PyStr.mem user publishers then publishers
              else (publishers ++ [user])%list
          | None => [user]
          end)
  /\ (dict_keys (publish filename user files)
      = match files_get filename files with
        | Some _ => dict_keys files
        | None => (dict_keys files ++ [filename])%list
        end)
  /\ (forall other, other <> filename ->
        files_get other (publish filename user files)
        = files_get other files)
  /\ (forall publishers,
        files_get filename files = Some publishers ->
        files_get filename (unpublish filename user publishers files)
        = match PyStr.remove_first user publishers with
          | [] => None
          | _ :: _ => Some (PyStr.remove_first user publishers)
          end
        /\ forall other, other <> filename ->
             files_get other (unpublish filename user publishers files)
             = files_get other files).
Proof.
  unfold publish. split; [|split; [|split]].
  - destruct (files_get filename files) as [pubs|] eqn:G.
    + destruct (PyStr.mem user pubs); [exact G|].
      apply (get_set_eq String.eqb str_eqb_eq).
    + apply (get_set_eq String.eqb str_eqb_eq).
  - destruct (files_get filename files) as [pubs|] eqn:G.
    + destruct (PyStr.mem user pubs); trivial.
      now rewrite keys_set_order, G.
    + now rewrite keys_set_order, G.
  - intros other Hne.
    destruct (files_get filename files) as [pubs|].
    + destruct (PyStr.mem user pubs); trivial.
      now apply (get_set_ne String.eqb str_eqb_eq).
    + now apply (get_set_ne String.eqb str_eqb_eq).
  - intros pubs G. unfold unpublish. split.
    + destruct (PyStr.remove_first user pubs).
      * apply (get_del_eq String.eqb str_eqb_eq).
      * apply (get_set_eq String.eqb str_eqb_eq).
    + intros other Hne. destruct (PyStr.remove_first user pubs).
      * rewrite (get_del_ne String.eqb str_eqb_eq) by assumption.
        now apply (get_set_ne String.eqb str_eqb_eq).
      * now apply (get_set_ne String.eqb str_eqb_eq).
Qed.

Lemma registry_updates_keep_the_order_witness :
  files_get "report.pdf"
    (publish "report.pdf" "bob" (published_files Examples.shared))
  = Some ["alice"; "bob"]
  /\ files_get "document.txt"
       (unpublish "document.txt" "alice" ["alice"; "bob"]
          (published_files Examples.shared))
     = Some ["bob"].
Proof.
  destruct (registry_updates_keep_the_order (published_files Examples.shared)
              "report.pdf" "bob") as (Hpub & _).
  destruct (registry_updates_keep_the_order (published_files Examples.shared)
              "document.txt" "alice") as (_ & _ & _ & Hunp).
  split; [exact Hpub|].
  destruct (Hunp ["alice"; "bob"] eq_refl) as [H _]. exact H.
Defined.

(* ================================================================== *)
(** * Searching for nothing in particular *)

Lemma contains_empty (s : string) : PyStr.contains EmptyString s = true.
Proof. destruct s; reflexivity. Qed.

(** X20. A search without an argument, 'sch' or 'sch' and a space, matches
    every filename: a requester with a session gets every published file
    it does not publish itself, in registry order, or 'No files found' when
    there is none.  Whatever the substring, every filename a search returns
    is one of the published filenames. *)
Theorem empty_search_lists_every_file_of_others
  (s : PeerSyncServer) (client_address : ClientAddress)
  (requester : ClientData) (message : string) :
  clients_get client_address (active_clients s) = Some requester ->
  let others :=
    map fst
      (filter (fun fp => negb (PyStr.mem (username requester) (snd fp)))
         (published_files s)) in
  (snd (parse_command message) = EmptyString ->
   handle_search_files client_address message s
   = Returned s
       [(match others with
         | [] => RESP_NO_FILES_FOUND
         | _ :: _ => PyStr.join ", " others
         end, client_address)])
  /\ forall filename,
       In filename
         (matching_files (snd (parse_command message)) (username requester)
            (published_files s)) ->
       In filename (dict_keys (published_files s)).
Proof.
  intros Hreq others. split.
  - intros Harg. unfold handle_search_files. rewrite Hreq, Harg.
    assert (matching_files EmptyString (username requester)
              (published_files s) = others) as ->; [|reflexivity].
    unfold matching_files, others. f_equal. apply filter_ext.
    intros [f pubs]. simpl. now rewrite contains_empty.
  - intros filename Hin. unfold matching_files in Hin.
    apply in_map_iff in Hin. destruct Hin as [fp [<- Hfp]].
    apply filter_In in Hfp. unfold dict_keys. apply in_map. tauto.
Qed.

Lemma empty_search_lists_every_file_of_others_witness :
  handle_search_files Examples.bob_addr "sch" Examples.shared
  = Returned Examples.shared [("report.pdf", Examples.bob_addr)].
Proof.
  destruct (empty_search_lists_every_file_of_others Examples.shared
              Examples.bob_addr Examples.bob "sch" eq_refl) as [H _].
  apply H. reflexivity.
Defined.
